(** * AwsS3Store: a shallow embedding of the session store of wwebjs-aws-s3

    The store keeps one zip archive per WhatsApp session in an S3 bucket.
    Its methods are asynchronous JavaScript; every [await] suspends until
    the call it waits for has finished, so the methods are modelled as
    sequential computations in a small monad that carries the history of
    observable events and can complete normally or by a thrown error. *)

From Stdlib Require Import PeanoNat NArith List String Ascii Bool Lia.
Import ListNotations.

Local Open Scope string_scope.
Local Open Scope list_scope.
Local Open Scope N_scope.

(** ** Buffers

    The upload loop only uses two operations of Node's [Buffer]:
    [Buffer.concat(list)] and [.length].  They are kept behind an
    interface so that the same code runs on real byte sequences and on
    byte counts (archives of several GiB cannot be written out as lists). *)

Class Bytes (B : Type) : Type := {
  blength : B -> N;
  bconcat : list B -> B
}.

Definition total_length {B} `{Bytes B} (l : list B) : N :=
  fold_right (fun b n => blength b + n) 0 l.

(** [Buffer.concat] keeps every byte: the length of the result is the sum
    of the lengths. *)
Class BytesLaws (B : Type) `{Bytes B} : Prop := {
  blength_bconcat : forall l : list B, blength (bconcat l) = total_length l
}.

(** Real buffers: sequences of bytes. *)
#[export] Instance ByteBuffer : Bytes (list Byte.byte) := {|
  blength := fun b => N.of_nat (List.length b);
  bconcat := @List.concat Byte.byte
|}.

(** Buffers known by their length only. *)
#[export] Instance Extent : Bytes N := {|
  blength := fun n => n;
  bconcat := fold_right N.add 0
|}.

(** ** JavaScript values the store looks at *)

(** [!s] for a value documented as a String that may be missing. *)
Definition falsy (v : option string) : bool :=
  match v with
  | None => true
  | Some s => match s with EmptyString => true | String _ _ => false end
  end.

(** [!n] for a number that may be missing. *)
Definition falsy_num (v : option N) : bool :=
  match v with
  | None => true
  | Some n => n =? 0
  end.

(** [`${v}`]: a missing value prints as the word undefined. *)
Definition template (v : option string) : string :=
  match v with
  | None => "undefined"
  | Some s => s
  end.

Record JsError : Type := { name : string; message : string }.

Definition TypeError (msg : string) : JsError :=
  {| name := "TypeError"; message := msg |}.

Definition Error (msg : string) : JsError :=
  {| name := "Error"; message := msg |}.

(** ** Paths and keys *)

Definition backslash : ascii := "\"%char.
Definition slash : ascii := "/"%char.

(** [s.replace(/\\/g, '/')] *)
Fixpoint replace_backslashes (s : string) : string :=
  match s with
  | EmptyString => EmptyString
  | String c rest =>
      String (if Ascii.eqb c backslash then slash else c)
             (replace_backslashes rest)
  end.

Fixpoint has_backslash (s : string) : bool :=
  match s with
  | EmptyString => false
  | String c rest => Ascii.eqb c backslash || has_backslash rest
  end.

(** [path.join] is Node's, and differs between platforms; the store takes
    it from its host.  [remoteFilePath] is the expression every method
    computes for its key:
    [path.join(this.remoteDataPath, `${options.session}.zip`).replace(/\\/g, '/')]. *)
Definition remoteFilePath (join : string -> string -> string)
    (remoteDataPath : string) (session : option string) : string :=
  replace_backslashes (join remoteDataPath (template session ++ ".zip")%string).

(** *** The POSIX [path.join]

    Node joins the non-empty arguments with a slash and normalises the
    result: empty and [.] segments are dropped, a [..] segment removes the
    segment before it (or stays, in a relative path, when there is none
    left to remove), a leading and a trailing slash are kept. *)

Fixpoint split_segments (s : string) (cur : string) : list string :=
  match s with
  | EmptyString => [cur]
  | String c rest =>
      if Ascii.eqb c slash then cur :: split_segments rest EmptyString
      else split_segments rest (cur ++ String c EmptyString)%string
  end.

Definition is_dotdot (s : string) : bool := String.eqb s "..".

(** [res] is the stack of kept segments, last one first. *)
Fixpoint normalize_segments (allowAboveRoot : bool) (segs : list string)
    (res : list string) : list string :=
  match segs with
  | [] => rev res
  | seg :: rest =>
      if String.eqb seg "" || String.eqb seg "." then
        normalize_segments allowAboveRoot rest res
      else if is_dotdot seg then
        match res with
        | last :: before =>
            if is_dotdot last then
              normalize_segments allowAboveRoot rest
                (if allowAboveRoot then seg :: res else res)
            else normalize_segments allowAboveRoot rest before
        | [] =>
            normalize_segments allowAboveRoot rest
              (if allowAboveRoot then [seg] else [])
        end
      else normalize_segments allowAboveRoot rest (seg :: res)
  end.

Definition starts_with_slash (s : string) : bool :=
  match s with
  | String c _ => Ascii.eqb c slash
  | EmptyString => false
  end.

Fixpoint ends_with_slash (s : string) : bool :=
  match s with
  | EmptyString => false
  | String c EmptyString => Ascii.eqb c slash
  | String _ rest => ends_with_slash rest
  end.

Definition posix_normalize (p : string) : string :=
  match p with
  | EmptyString => "."
  | _ =>
      let isAbsolute := starts_with_slash p in
      let trailingSeparator := ends_with_slash p in
      let body :=
        String.concat "/"
          (normalize_segments (negb isAbsolute) (split_segments p "") []) in
      match body with
      | EmptyString =>
          if isAbsolute then "/" else if trailingSeparator then "./" else "."
      | _ =>
          let body := if trailingSeparator then (body ++ "/")%string else body in
          if isAbsolute then ("/" ++ body)%string else body
      end
  end.

Definition posix_join (a b : string) : string :=
  match a, b with
  | EmptyString, EmptyString => "."
  | EmptyString, _ => posix_normalize b
  | _, EmptyString => posix_normalize a
  | _, _ => posix_normalize (a ++ "/" ++ b)%string
  end.

(** ** The S3 client, the file system and the event history *)

Record Metadata : Type := { httpStatusCode : option N }.

(** What a resolved [send] hands back; only the fields the store reads. *)
Record Output : Type := {
  metadata : option Metadata;     (* result.$metadata *)
  UploadId : option string;
  ETag : option string
}.

(** An entry of [MultipartUpload.Parts]. *)
Record Part : Type := { PartNumber : N; PartETag : option string }.

Section Store.

Context {B : Type} `{Bytes B}.

(** A local file: the size [fs.statSync] reports, the chunks its read
    stream delivers, and the error the stream ends with, if any. *)
Record File : Type := {
  size : N;
  chunks : list B;
  readError : option JsError
}.

(** The object [fs.createReadStream(path)] returns. *)
Record ReadStream : Type := {
  streamPath : string;
  streamChunks : list B;
  streamError : option JsError
}.

(** The commands of [@aws-sdk/client-s3], with the parameters the store
    passes.  [AbortMultipartUploadCommand] is the SDK's; the store never
    constructs it. *)
Inductive Command : Type :=
| ListObjectsCommand (Bucket : option string)
| HeadObjectCommand (Bucket : option string) (Key : string)
| PutObjectCommand (Bucket : option string) (Key : string)
    (Body : ReadStream) (ContentType : string)
    (AccelerateStatus : string) (ContentEncoding : string)
| DeleteObjectCommand (Bucket : option string) (Key : string)
| CreateMultipartUploadCommand (Bucket : option string) (Key : string)
    (ACL : string) (ContentType : string)
| UploadPartCommand (Bucket : option string) (Key : string)
    (uploadId : option string) (partNumber : N) (Body : B)
| CompleteMultipartUploadCommand (Bucket : option string) (Key : string)
    (uploadId : option string) (Parts : list Part)
| AbortMultipartUploadCommand (Bucket : option string) (Key : string)
    (uploadId : option string).

(** Everything a method does that can be seen from outside, in order. *)
Inductive Event : Type :=
| ConsoleLog (line : string)
| ConsoleLogError (line : string) (error : JsError)
| DebugLog (msg : string)
| SetRemoteFilePath (value : string)          (* options.remoteFilePath = ... *)
| StatSync (path : string) (result : JsError + N)
| CreateReadStream (path : string)
| StreamFailed (path : string) (error : JsError)
| Send (command : Command) (result : JsError + Output).

(** A client answers a command knowing everything that happened before. *)
Definition S3Client : Type := list Event -> Command -> JsError + Output.

(** The host: Node's [path.join] and the local file system. *)
Record Host : Type := {
  join : string -> string -> string;
  fs : string -> option File
}.

Record AwsS3Store : Type := {
  bucketName : option string;
  remoteDataPath : option string;
  s3Client : option S3Client;
  debugEnabled : bool
}.

(** The argument of the constructor, [{ bucketName, remoteDataPath, s3Client }]. *)
Record StoreOptions : Type := {
  optBucketName : option string;
  optRemoteDataPath : option string;
  optS3Client : option S3Client
}.

(** The [options] object the session manager passes to every method. *)
Record Options : Type := {
  session : option string;
  path : option string
}.

(** *** Computations *)

Inductive Completion (A : Type) : Type :=
| Normal (value : A)
| Throw (error : JsError).
Arguments Normal {A} value.
Arguments Throw {A} error.

(** A computation reads the history so far and yields its completion and
    the events it added. *)
Definition M (A : Type) : Type := list Event -> Completion A * list Event.

Definition ret {A} (a : A) : M A := fun _ => (Normal a, []).

Definition throw {A} (e : JsError) : M A := fun _ => (Throw e, []).

Definition bind {A C} (m : M A) (k : A -> M C) : M C :=
  fun h =>
    match m h with
    | (Normal a, ev) =>
        match k a (h ++ ev) with
        | (r, ev') => (r, ev ++ ev')
        end
    | (Throw e, ev) => (Throw e, ev)
    end.

Definition tryCatch {A} (m : M A) (handler : JsError -> M A) : M A :=
  fun h =>
    match m h with
    | (Normal a, ev) => (Normal a, ev)
    | (Throw e, ev) =>
        match handler e (h ++ ev) with
        | (r, ev') => (r, ev ++ ev')
        end
    end.

Definition emit (e : Event) : M unit := fun _ => (Normal tt, [e]).

End Store.

Arguments File B : clear implicits.
Arguments ReadStream B : clear implicits.
Arguments Command B : clear implicits.
Arguments Event B : clear implicits.
Arguments S3Client B : clear implicits.
Arguments Host B : clear implicits.
Arguments AwsS3Store B : clear implicits.
Arguments StoreOptions B : clear implicits.
Arguments M B A : clear implicits.
Arguments Normal {A} value.
Arguments Throw {A} error.

Declare Scope js_scope.
Delimit Scope js_scope with js.
Notation "x <- m ;; k" := (bind m (fun x => k))
  (at level 61, m at next level, right associativity) : js_scope.
Notation "m ;; k" := (bind m (fun _ => k))
  (at level 61, right associativity) : js_scope.
Local Open Scope js_scope.

(** ** The class *)

Section Methods.

Context {B : Type} `{Bytes B}.
Variable host : Host B.

(** [console.log(line)] *)
Definition log (line : string) : M B unit := emit (ConsoleLog line).

(** [debugLog(msg)]: a line is printed (behind a timestamp) only when the
    store was built with [STORE_DEBUG=true]. *)
Definition debugLog (this : AwsS3Store B) (msg : string) : M B unit :=
  if debugEnabled this then emit (DebugLog msg) else ret tt.

(** [await this.s3Client.send(command)] *)
Definition send (this : AwsS3Store B) (command : Command B) : M B Output :=
  match s3Client this with
  | None =>
      throw (TypeError "Cannot read properties of undefined (reading 'send')")
  | Some client =>
      fun h =>
        let result := client h command in
        (match result with
         | inl error => Throw error
         | inr output => Normal output
         end, [Send command result])
  end.

(** [fs.statSync(path).size] *)
Definition statSync (p : string) : M B N :=
  fun _ =>
    match fs host p with
    | Some f => (Normal (size f), [StatSync p (inr (size f))])
    | None =>
        let error :=
          Error ("ENOENT: no such file or directory, stat '" ++ p ++ "'")%string in
        (Throw error, [StatSync p (inl error)])
    end.

(** The stream of the file at [p]; a missing file shows when the stream is
    read. *)
Definition streamOf (p : string) : ReadStream B :=
  match fs host p with
  | Some f =>
      {| streamPath := p; streamChunks := chunks f;
         streamError := readError f |}
  | None =>
      {| streamPath := p; streamChunks := [];
         streamError :=
           Some (Error ("ENOENT: no such file or directory, open '"
                        ++ p ++ "'")%string) |}
  end.

(** [fs.createReadStream(path)] *)
Definition createReadStream (p : string) : M B (ReadStream B) :=
  fun _ => (Normal (streamOf p), [CreateReadStream p]).

(** [for await (const chunk of stream) body]: the body runs on every chunk
    in order; a stream that fails throws once its chunks are used up. *)
Fixpoint iterate {S : Type} (body : B -> S -> M B S) (cs : list B) (s : S)
    : M B S :=
  match cs with
  | [] => ret s
  | chunk :: rest => s' <- body chunk s ;; iterate body rest s'
  end.

Definition forAwait {S : Type} (stream : ReadStream B)
    (body : B -> S -> M B S) (s : S) : M B S :=
  s' <- iterate body (streamChunks stream) s ;;
  match streamError stream with
  | None => ret s'
  | Some error => emit (StreamFailed (streamPath stream) error) ;; throw error
  end.

(** *** constructor *)

(** The parameter [{ bucketName, remoteDataPath, s3Client } = {}]: a call
    without an argument destructures the empty object. *)
Definition givenOptions (arg : option (StoreOptions B)) : StoreOptions B :=
  match arg with
  | Some o => o
  | None =>
      {| optBucketName := None; optRemoteDataPath := None;
         optS3Client := None |}
  end.

Definition constructor (STORE_DEBUG : option string)
    (arg : option (StoreOptions B)) : JsError + AwsS3Store B :=
  let o := givenOptions arg in
  if falsy (optBucketName o) then
    inl (Error "A valid bucket name is required for AwsS3Store.")
  else if falsy (optRemoteDataPath o) then
    inl (Error "A valid remote dir path is required for AwsS3Store.")
  else
    match optS3Client o with
    | None => inl (Error "A valid S3Client instance is required for AwsS3Store.")
    | Some _ =>
        inr {| bucketName := optBucketName o;
               remoteDataPath := optRemoteDataPath o;
               s3Client := optS3Client o;
               debugEnabled :=
                 match STORE_DEBUG with
                 | Some v => String.eqb v "true"
                 | None => false
                 end |}
    end.

(** *** isValidConfig *)

Definition isValidConfig (this : AwsS3Store B) (options : Options) : M B bool :=
  if falsy (session options) then
    log "Error: A valid session is required for AwsS3Store." ;; ret false
  else if falsy (bucketName this) then
    log "Error: A valid bucket name is required for AwsS3Store." ;; ret false
  else if falsy (remoteDataPath this) then
    log "Error: A valid remote dir path is required for AwsS3Store." ;; ret false
  else
    match s3Client this with
    | None =>
        log "Error: A valid S3Client instance is required for AwsS3Store." ;;
        ret false
    | Some _ =>
        tryCatch
          (result <- send this (ListObjectsCommand (bucketName this)) ;;
           match metadata result with
           | None => ret false
           | Some md =>
               if falsy_num (httpStatusCode md) then ret false
               else
                 match httpStatusCode md with
                 | Some code => if code =? 200 then ret true else ret false
                 | None => ret false
                 end
           end)
          (fun error =>
             emit (ConsoleLogError "Error: Invalid AwsS3Store configuration" error) ;;
             ret true)
    end.

(** The key of the session's archive; [path.join] rejects a base path that
    is not a string. *)
Definition remoteKey (this : AwsS3Store B) (options : Options) : M B string :=
  match remoteDataPath this with
  | Some base => ret (remoteFilePath (join host) base (session options))
  | None =>
      throw (TypeError "The 'path' argument must be of type string. Received undefined")
  end.

(** [err.name === 'NoSuchKey' || err.name === 'NotFound'] *)
Definition notFound (err : JsError) : bool :=
  String.eqb (name err) "NoSuchKey" || String.eqb (name err) "NotFound".

(** *** sessionExists

    The result is [true], [false] or nothing ([undefined]). *)

Definition sessionExists (this : AwsS3Store B) (options : Options)
    : M B (option bool) :=
  debugLog this "[METHOD: sessionExists] Triggered." ;;
  valid <- isValidConfig this options ;;
  if negb valid then ret None
  else
    remote <- remoteKey this options ;;
    tryCatch
      (send this (HeadObjectCommand (bucketName this) remote) ;;
       debugLog this
         ("[METHOD: sessionExists] File found. PATH='" ++ remote ++ "'.")%string ;;
       ret (Some true))
      (fun err =>
         if notFound err then
           debugLog this
             ("[METHOD: sessionExists] File not found. PATH='" ++ remote ++ "'.")%string ;;
           ret (Some false)
         else
           debugLog this
             ("[METHOD: sessionExists] Error: " ++ message err)%string ;;
           ret None).

(** *** delete *)

Definition delete (this : AwsS3Store B) (options : Options) : M B unit :=
  debugLog this "[METHOD: delete] Triggered." ;;
  valid <- isValidConfig this options ;;
  if negb valid then ret tt
  else
    remote <- remoteKey this options ;;
    tryCatch
      (send this (HeadObjectCommand (bucketName this) remote) ;;
       send this (DeleteObjectCommand (bucketName this) remote) ;;
       debugLog this
         ("[METHOD: delete] File deleted. PATH='" ++ remote ++ "'.")%string)
      (fun err =>
         if notFound err then
           debugLog this
             ("[METHOD: delete] File not found. PATH='" ++ remote ++ "'.")%string
         else
           debugLog this ("[METHOD: delete] Error: " ++ message err)%string).

(** *** save *)

Definition partSize : N := 1024 * 1024 * 20.

(** The variables of the multipart branch: [partNumber], [parts], [buffer]. *)
Record Upload : Type := {
  partNumber : N;
  parts : list Part;
  buffer : list B
}.

(** [UploadPartCommand] with the buffered chunks as one body, then
    [parts.push] of the part's number and entity tag. *)
Definition uploadBuffer (this : AwsS3Store B) (remote : string)
    (uploadId : option string) (u : Upload) : M B Upload :=
  uploadPartResponse <-
    send this
      (UploadPartCommand (bucketName this) remote uploadId (partNumber u)
         (bconcat (buffer u))) ;;
  ret {| partNumber := partNumber u;
         parts := parts u ++ [{| PartNumber := partNumber u;
                                 PartETag := ETag uploadPartResponse |}];
         buffer := buffer u |}.

(** The body of the stream loop: the chunk is pushed, and a buffer that
    has reached [partSize] is uploaded, the number moves on and the buffer
    is emptied. *)
Definition onChunk (this : AwsS3Store B) (remote : string)
    (uploadId : option string) (chunk : B) (u : Upload) : M B Upload :=
  let u := {| partNumber := partNumber u; parts := parts u;
              buffer := buffer u ++ [chunk] |} in
  let bufferSize := blength (bconcat (buffer u)) in
  if partSize <=? bufferSize then
    u <- uploadBuffer this remote uploadId u ;;
    ret {| partNumber := partNumber u + 1; parts := parts u; buffer := [] |}
  else ret u.

(** The [else] branch of [save]: create, the stream loop, the rest of the
    buffer, complete. *)
Definition multipartUpload (this : AwsS3Store B) (remote localPath : string)
    : M B unit :=
  log ("[S3 Store] Uploading Multiepart File " ++ localPath)%string ;;
  createMultipartUpload <-
    send this
      (CreateMultipartUploadCommand (bucketName this) remote
         "private" "application/zip") ;;
  let uploadId := UploadId createMultipartUpload in
  fileStream <- createReadStream localPath ;;
  u <- forAwait fileStream (onChunk this remote uploadId)
         {| partNumber := 1; parts := []; buffer := [] |} ;;
  u <- match buffer u with
       | [] => ret u
       | _ :: _ => uploadBuffer this remote uploadId u
       end ;;
  send this
    (CompleteMultipartUploadCommand (bucketName this) remote uploadId
       (parts u)) ;;
  ret tt.

(** The [then] branch of [save]: the read stream is put as it is. *)
Definition singleUpload (this : AwsS3Store B) (remote localPath : string)
    : M B unit :=
  log ("[S3 Store] Uploading Single File " ++ localPath)%string ;;
  fileStream <- createReadStream localPath ;;
  send this
    (PutObjectCommand (bucketName this) remote fileStream
       "application/zip" "Enabled" "gzip") ;;
  ret tt.

(** The [try] block of [save]. *)
Definition transfer (this : AwsS3Store B) (options : Options)
    (remote : string) : M B unit :=
  let localPath := (template (session options) ++ ".zip")%string in
  fileSize <- statSync localPath ;;
  (if fileSize <=? 1024 * 1024 * 1024 * 4
   then singleUpload this remote localPath
   else multipartUpload this remote localPath) ;;
  debugLog this ("[METHOD: save] File saved. PATH='" ++ remote ++ "'.")%string.

Definition save (this : AwsS3Store B) (options : Options) : M B unit :=
  debugLog this "[METHOD: save] Triggered." ;;
  valid <- isValidConfig this options ;;
  if negb valid then ret tt
  else
    remote <- remoteKey this options ;;
    emit (SetRemoteFilePath remote) ;;
    tryCatch (transfer this options remote)
      (fun error =>
         debugLog this ("[METHOD: save] Error: " ++ message error)%string ;;
         throw error).

End Methods.

(** ** Reading a history *)

Section Histories.

Context {B : Type} `{Bytes B}.

(** The commands sent, in order. *)
Fixpoint sends (ev : list (Event B)) : list (Command B) :=
  match ev with
  | [] => []
  | Send c _ :: rest => c :: sends rest
  | _ :: rest => sends rest
  end.

Definition isPutObject (c : Command B) : bool :=
  match c with PutObjectCommand _ _ _ _ _ _ => true | _ => false end.

Definition isCreateMultipartUpload (c : Command B) : bool :=
  match c with CreateMultipartUploadCommand _ _ _ _ => true | _ => false end.

Definition isUploadPart (c : Command B) : bool :=
  match c with UploadPartCommand _ _ _ _ _ => true | _ => false end.

Definition isCompleteMultipartUpload (c : Command B) : bool :=
  match c with CompleteMultipartUploadCommand _ _ _ _ => true | _ => false end.

Definition isAbortMultipartUpload (c : Command B) : bool :=
  match c with AbortMultipartUploadCommand _ _ _ => true | _ => false end.

Definition isDeleteObject (c : Command B) : bool :=
  match c with DeleteObjectCommand _ _ => true | _ => false end.

Definition isHeadObject (c : Command B) : bool :=
  match c with HeadObjectCommand _ _ => true | _ => false end.

Definition isMultipart (c : Command B) : bool :=
  isCreateMultipartUpload c || isUploadPart c || isCompleteMultipartUpload c
  || isAbortMultipartUpload c.

Definition count (p : Command B -> bool) (ev : list (Event B)) : nat :=
  List.length (filter p (sends ev)).

(** The part number and the body of every [UploadPartCommand] sent. *)
Fixpoint uploads (cs : list (Command B)) : list (N * B) :=
  match cs with
  | [] => []
  | UploadPartCommand _ _ _ n body :: rest => (n, body) :: uploads rest
  | _ :: rest => uploads rest
  end.

(** The part lists handed to [CompleteMultipartUploadCommand]. *)
Fixpoint completions (cs : list (Command B)) : list (list Part) :=
  match cs with
  | [] => []
  | CompleteMultipartUploadCommand _ _ _ ps :: rest => ps :: completions rest
  | _ :: rest => completions rest
  end.

(** The numbers [first], [first + 1], ... ([n] of them). *)
Fixpoint numbersFrom (first : N) (n : nat) : list N :=
  match n with
  | O => []
  | S n' => first :: numbersFrom (first + 1) n'
  end.

End Histories.

(** ** Clients and hosts to run the store on *)

Section Fixtures.

Context {B : Type} `{Bytes B}.

Definition status (code : N) : Output :=
  {| metadata := Some {| httpStatusCode := Some code |};
     UploadId := None; ETag := None |}.

(** A client that accepts everything. *)
Definition okClient : S3Client B :=
  fun _ c =>
    match c with
    | CreateMultipartUploadCommand _ _ _ _ =>
        inr {| metadata := Some {| httpStatusCode := Some 200 |};
               UploadId := Some "upload-1"; ETag := None |}
    | UploadPartCommand _ _ _ _ _ =>
        inr {| metadata := Some {| httpStatusCode := Some 200 |};
               UploadId := None; ETag := Some "etag" |}
    | DeleteObjectCommand _ _ => inr (status 204)
    | _ => inr (status 200)
    end.

(** A client that rejects the commands [p] selects with [error]. *)
Definition failingOn (p : Command B -> bool) (error : JsError) : S3Client B :=
  fun h c => if p c then inl error else okClient h c.

Definition sameBucket (a b : option string) : bool :=
  match a, b with
  | Some x, Some y => String.eqb x y
  | None, None => true
  | _, _ => false
  end.

(** Whether the object [bucket]/[key] exists after the history [h], in a
    bucket that starts empty: a put or a completed multipart upload that
    succeeded creates it, a delete that succeeded removes it. *)
Fixpoint stored (bucket : option string) (key : string) (h : list (Event B))
    (present : bool) : bool :=
  match h with
  | [] => present
  | Send (PutObjectCommand b k _ _ _ _) (inr _) :: rest =>
      stored bucket key rest
        (if sameBucket b bucket && String.eqb k key then true else present)
  | Send (CompleteMultipartUploadCommand b k _ _) (inr _) :: rest =>
      stored bucket key rest
        (if sameBucket b bucket && String.eqb k key then true else present)
  | Send (DeleteObjectCommand b k) (inr _) :: rest =>
      stored bucket key rest
        (if sameBucket b bucket && String.eqb k key then false else present)
  | _ :: rest => stored bucket key rest present
  end.

(** An S3 bucket kept in the history: [HeadObject] answers for the objects
    stored so far and fails with [NotFound] for the others. *)
Definition memoryS3 : S3Client B :=
  fun h c =>
    match c with
    | HeadObjectCommand b k =>
        if stored b k h false then inr (status 200)
        else inl {| name := "NotFound"; message := "UnknownError" |}
    | _ => okClient h c
    end.

Definition posixHost (files : string -> option (File B)) : Host B :=
  {| join := posix_join; fs := files |}.

Definition noFiles : string -> option (File B) := fun _ => None.

(** A directory with one file. *)
Definition oneFile (p : string) (f : File B) : string -> option (File B) :=
  fun q => if String.eqb q p then Some f else None.

Definition storeWith (client : S3Client B) : AwsS3Store B :=
  {| bucketName := Some "satuin"; remoteDataPath := Some "dev/wwebjs-auth";
     s3Client := Some client; debugEnabled := false |}.

Definition sessionOptions (id : string) : Options :=
  {| session := Some id; path := None |}.

End Fixtures.

Definition GiB : N := 1024 * 1024 * 1024.
Definition MiB : N := 1024 * 1024.
Definition KiB : N := 1024.

(** An archive of [n] bytes delivered in chunks of [c] bytes and the rest. *)
Definition archiveIn (c n : N) : File N :=
  {| size := n;
     chunks := repeat c (N.to_nat (n / c))
               ++ (if n mod c =? 0 then [] else [n mod c]);
     readError := None |}.

(** An archive as Node's read stream delivers it by default, 64 KiB at a
    time ([highWaterMark]). *)
Definition archive (n : N) : File N := archiveIn (64 * KiB) n.

(** The probe's answer carries an explicit HTTP 200. *)
Definition explicitSuccess (o : Output) : bool :=
  match metadata o with
  | Some md =>
      match httpStatusCode md with
      | Some code => code =? 200
      | None => false
      end
  | None => false
  end.

(** ** What is claimed of a run *)

Section Observations.

Context {B : Type} `{Bytes B}.

(** The events of [debugLog(msg)]. *)
Definition debugLine (this : AwsS3Store B) (msg : string) : list (Event B) :=
  if debugEnabled this then [DebugLog msg] else [].

(** Every event a computation adds, from any history, satisfies [P]. *)
Definition emits {A : Type} (P : Event B -> Prop) (m : M B A) : Prop :=
  forall h r ev, m h = (r, ev) -> Forall P ev.

Definition isListObjects (c : Command B) : bool :=
  match c with ListObjectsCommand _ => true | _ => false end.

(** The error of an event that is a failed step of a transfer: the stat,
    the read stream, or any command but the bucket probe. *)
Definition transferFailure (x : Event B) : option JsError :=
  match x with
  | StatSync _ (inl e) => Some e
  | StreamFailed _ e => Some e
  | Send c (inl e) => if isListObjects c then None else Some e
  | _ => None
  end.

(** An event that is a call: a command sent or a file operation. *)
Definition isCall (x : Event B) : bool :=
  match x with
  | Send _ _ | StatSync _ _ | CreateReadStream _ => true
  | _ => false
  end.

(** The outcome of the head probe of a run, if one was made. *)
Fixpoint headProbe (ev : list (Event B)) : option (JsError + Output) :=
  match ev with
  | [] => None
  | Send (HeadObjectCommand _ _) result :: _ => Some result
  | _ :: rest => headProbe rest
  end.

(** What [isValidConfig] can add to the history. *)
Definition isValidationEvent (x : Event B) : bool :=
  match x with
  | ConsoleLog _ | ConsoleLogError _ _ => true
  | Send (ListObjectsCommand _) _ => true
  | _ => false
  end.

(** The commands of a run other than the bucket probe. *)
Definition requests (ev : list (Event B)) : list (Command B) :=
  filter (fun c => negb (isListObjects c)) (sends ev).

(** The errors of the failed transfer steps of a run, in order. *)
Fixpoint failures (ev : list (Event B)) : list JsError :=
  match ev with
  | [] => []
  | x :: rest =>
      match transferFailure x with
      | Some e => e :: failures rest
      | None => failures rest
      end
  end.

(** What a run did after its first failed transfer step. *)
Fixpoint afterFailure (ev : list (Event B)) : list (Event B) :=
  match ev with
  | [] => []
  | x :: rest =>
      match transferFailure x with
      | Some _ => rest
      | None => afterFailure rest
      end
  end.

(** What the [fs.statSync] of a run found, if the run got to it. *)
Fixpoint archiveSize (ev : list (Event B)) : option (JsError + N) :=
  match ev with
  | [] => None
  | StatSync _ result :: _ => Some result
  | _ :: rest => archiveSize rest
  end.

(** A computation stops at its first failed step and throws its error. *)
Definition failStop {A : Type} (m : M B A) : Prop :=
  forall h r ev,
    m h = (r, ev) ->
    match r with
    | Normal _ => failures ev = []
    | Throw e => failures ev = [e] /\ afterFailure ev = []
    end.

(** The lengths of the bodies of the parts uploaded. *)
Definition partLengths (ev : list (Event B)) : list N :=
  map (fun nb => blength (snd nb)) (uploads (sends ev)).

(** The numbers of the parts uploaded. *)
Definition partNumbers (ev : list (Event B)) : list N :=
  map fst (uploads (sends ev)).

(** [ceil(s / t)] *)
Definition ceilDiv (s t : N) : N := (s + t - 1) / t.

(** A read stream with chunks of [c] bytes and a last chunk of at most
    [c]. *)
Fixpoint evenlyChunked (c : N) (cs : list B) : bool :=
  match cs with
  | [] => true
  | [b] => (0 <? blength b) && (blength b <=? c)
  | b :: rest => (blength b =? c) && evenlyChunked c rest
  end.

(** An event that is not an [AbortMultipartUploadCommand]. *)
Definition notAbort (x : Event B) : bool :=
  match x with
  | Send c _ => negb (isAbortMultipartUpload c)
  | _ => true
  end.

(** An event that touches no local file but [p]: a stat or a stream of
    another file, or a put of another stream, is excluded. *)
Definition readsOnly (host : Host B) (p : string) (x : Event B) : Prop :=
  match x with
  | StatSync q _ | CreateReadStream q | StreamFailed q _ => q = p
  | Send (PutObjectCommand _ _ body _ _ _) _ => body = streamOf host p
  | _ => True
  end.

(** How a computation ends whose last step was a command answered by
    [result]. *)
Definition thrown {A : Type} (result : JsError + Output) (a : A)
    : Completion A :=
  match result with inl e => Throw e | inr _ => Normal a end.

(** An event of the stream loop: an [UploadPartCommand] sent. *)
Definition isUpload (x : Event B) : bool :=
  match x with
  | Send c _ => isUploadPart c
  | _ => false
  end.

(** A client that accepts every command. *)
Definition accepting (client : S3Client B) : Prop :=
  forall h c, exists o, client h c = inr o.

(** A computation that completes normally from every history. *)
Definition succeeds {A : Type} (m : M B A) : Prop :=
  forall h, exists a ev, m h = (Normal a, ev).

End Observations.

(** ** The private method and further observations *)

Section Previous.

Context {B : Type} `{Bytes B}.

(** *** #deletePrevious

    The method reads the key from [options.remoteFilePath]; the field is
    passed beside [options] here, [None] when it is not set. *)
Definition deletePrevious (this : AwsS3Store B) (options : Options)
    (optionsRemoteFilePath : option string) : M B unit :=
  debugLog this "[METHOD: #deletePrevious] Triggered." ;;
  if falsy optionsRemoteFilePath then
    throw (Error "A valid remote file path is required for AwsS3Store.")
  else
    valid <- isValidConfig this options ;;
    if negb valid then ret tt
    else
      let key := template optionsRemoteFilePath in
      tryCatch
        (send this (HeadObjectCommand (bucketName this) key) ;;
         send this (DeleteObjectCommand (bucketName this) key) ;;
         debugLog this
           ("[METHOD: #deletePrevious] File deleted. PATH='" ++ key ++ "'.")%string)
        (fun err =>
           if notFound err then
             debugLog this
               ("[METHOD: #deletePrevious] File not found. PATH='" ++ key ++ "'.")%string
           else
             debugLog this
               ("[METHOD: #deletePrevious] Error: " ++ message err)%string).

(** A command that names [bucket], and [key] when it names an object. *)
Definition addressedTo (bucket : option string) (key : string)
    (c : Command B) : Prop :=
  match c with
  | ListObjectsCommand b => b = bucket
  | HeadObjectCommand b k | DeleteObjectCommand b k
  | PutObjectCommand b k _ _ _ _ | CreateMultipartUploadCommand b k _ _
  | UploadPartCommand b k _ _ _ | CompleteMultipartUploadCommand b k _ _
  | AbortMultipartUploadCommand b k _ => b = bucket /\ k = key
  end.

(** The upload identifier the store was given, if a
    [CreateMultipartUploadCommand] of the run was answered. *)
Fixpoint createdUploadId (ev : list (Event B)) : option (option string) :=
  match ev with
  | [] => None
  | Send (CreateMultipartUploadCommand _ _ _ _) (inr o) :: _ =>
      Some (UploadId o)
  | _ :: rest => createdUploadId rest
  end.

(** An event that is no command, or a command that names [bucket], and
    [key] when it names an object. *)
Definition addressed (bucket : option string) (key : string)
    (x : Event B) : Prop :=
  match x with
  | Send c _ => addressedTo bucket key c
  | _ => True
  end.

(** A command of a multipart upload sent. *)
Definition ofMultipart (x : Event B) : bool :=
  match x with
  | Send c _ => isMultipart c
  | _ => false
  end.

(** The upload identifiers carried by the commands that continue a
    multipart upload. *)
Fixpoint uploadIds (ev : list (Event B)) : list (option string) :=
  match ev with
  | [] => []
  | Send (UploadPartCommand _ _ id _ _) _ :: rest
  | Send (CompleteMultipartUploadCommand _ _ id _) _ :: rest
  | Send (AbortMultipartUploadCommand _ _ id) _ :: rest => id :: uploadIds rest
  | _ :: rest => uploadIds rest
  end.

(** The parts that were uploaded and answered: the number each was sent
    under, with the entity tag of its answer. *)
Fixpoint answeredParts (ev : list (Event B)) : list Part :=
  match ev with
  | [] => []
  | Send (UploadPartCommand _ _ _ n _) (inr o) :: rest =>
      {| PartNumber := n; PartETag := ETag o |} :: answeredParts rest
  | _ :: rest => answeredParts rest
  end.

(** The values a run wrote into [options.remoteFilePath]. *)
Fixpoint keysWritten (ev : list (Event B)) : list string :=
  match ev with
  | [] => []
  | SetRemoteFilePath key :: rest => key :: keysWritten rest
  | _ :: rest => keysWritten rest
  end.

Definition isDebugLog (x : Event B) : bool :=
  match x with DebugLog _ => true | _ => false end.

(** A command that changes what the bucket holds. *)
Definition isWrite (c : Command B) : bool :=
  isPutObject c || isCompleteMultipartUpload c || isDeleteObject c.

(** A client whose bucket probe is answered, with a status that is not 200. *)
Definition probeDenied (client : S3Client B) : Prop :=
  forall h bucket,
    exists o,
      client h (ListObjectsCommand bucket) = inr o /\ explicitSuccess o = false.

(** A client whose bucket probe throws. *)
Definition probeThrows (client : S3Client B) : Prop :=
  forall h bucket, exists e, client h (ListObjectsCommand bucket) = inl e.

(** A store whose three fields are there. *)
Definition configured (this : AwsS3Store B) : bool :=
  negb (falsy (bucketName this)) && negb (falsy (remoteDataPath this))
  && match s3Client this with Some _ => true | None => false end.

End Previous.

(** A client that answers the bucket probe with 403 and accepts the rest. *)
Definition forbiddenProbe {B : Type} : S3Client B :=
  fun h c =>
    match c with
    | ListObjectsCommand _ => inr (status 403)
    | _ => okClient h c
    end.


(** A client that behaves like a bucket: the probe of the bucket is
    answered with 200, a delete is accepted, and a head probe is answered
    for the objects stored so far and fails as not found for the others. *)
Definition bucketLike {B : Type} (client : S3Client B) : Prop :=
  forall h bucket key,
    (exists o, client h (ListObjectsCommand bucket) = inr o /\
               explicitSuccess o = true) /\
    (exists o, client h (DeleteObjectCommand bucket key) = inr o) /\
    (if stored bucket key h false
     then exists o, client h (HeadObjectCommand bucket key) = inr o
     else exists e, client h (HeadObjectCommand bucket key) = inl e /\
                    notFound e = true).


(** The commands of each public method. *)
Definition probes {B : Type} (c : Command B) : bool :=
  isListObjects c || isHeadObject c.

Definition stores {B : Type} (c : Command B) : bool :=
  isListObjects c || isPutObject c || isCreateMultipartUpload c
  || isUploadPart c || isCompleteMultipartUpload c.

Definition removes {B : Type} (c : Command B) : bool :=
  isListObjects c || isHeadObject c || isDeleteObject c.


(** A bucket kept in the history whose objects may not be deleted:
    [DeleteObject] is refused. *)
Definition deleteDenied {B : Type} : S3Client B :=
  fun h c =>
    match c with
    | DeleteObjectCommand _ _ => inl (Error "AccessDenied")
    | _ => memoryS3 h c
    end.


(** * Properties *)

(** ** Running computations *)

Section Running.

Context {B : Type} `{Bytes B}.

Lemma bind_normal {A C} (m : M B A) (k : A -> M B C) h a ev r ev' :
  m h = (Normal a, ev) -> k a (h ++ ev) = (r, ev') ->
  bind m k h = (r, ev ++ ev').
Proof. intros Hm Hk. unfold bind. rewrite Hm, Hk. reflexivity. Qed.

Lemma bind_step {A C} (m : M B A) (k : A -> M B C) h a ev :
  m h = (Normal a, ev) ->
  bind m k h = let (r, ev') := k a (h ++ ev) in (r, ev ++ ev').
Proof. intros Hm. unfold bind. rewrite Hm. reflexivity. Qed.

Lemma bind_inv {A C} (m : M B A) (k : A -> M B C) h r ev :
  bind m k h = (r, ev) ->
  (exists e, m h = (Throw e, ev) /\ r = Throw e) \/
  (exists a ev1 ev2,
      m h = (Normal a, ev1) /\ k a (h ++ ev1) = (r, ev2) /\ ev = ev1 ++ ev2).
Proof.
  unfold bind. destruct (m h) as [[a|e] ev1].
  - destruct (k a (h ++ ev1)) as [r2 ev2] eqn:Hk. intros [= <- <-].
    right. exists a, ev1, ev2. auto.
  - intros [= <- <-]. left. exists e. auto.
Qed.

Lemma tryCatch_inv {A} (m : M B A) (handler : JsError -> M B A) h r ev :
  tryCatch m handler h = (r, ev) ->
  (exists a, m h = (Normal a, ev) /\ r = Normal a) \/
  (exists e ev1 ev2,
      m h = (Throw e, ev1) /\ handler e (h ++ ev1) = (r, ev2) /\
      ev = ev1 ++ ev2).
Proof.
  unfold tryCatch. destruct (m h) as [[a|e] ev1].
  - intros [= <- <-]. left. exists a. auto.
  - destruct (handler e (h ++ ev1)) as [r2 ev2] eqn:Hh. intros [= <- <-].
    right. exists e, ev1, ev2. auto.
Qed.

Lemma send_run (this : AwsS3Store B) client c h :
  s3Client this = Some client ->
  send this c h =
  (match client h c with inl e => Throw e | inr o => Normal o end,
   [Send c (client h c)]).
Proof. intros Hc. unfold send. rewrite Hc. reflexivity. Qed.

Lemma debugLog_run (this : AwsS3Store B) msg h :
  debugLog this msg h = (Normal tt, debugLine this msg).
Proof. unfold debugLog, debugLine. destruct (debugEnabled this); reflexivity. Qed.

End Running.

(** ** The constructor *)

Section Construction.

Context {B : Type} `{Bytes B}.

(** C8.  The constructor throws when the bucket name or the remote path is
    missing or empty or when no client is given (and so also when it is
    called without an argument); it returns no store in that case.  When
    the three are there it returns a store holding exactly them. *)
Theorem constructor_requires_all (env : option string)
    (arg : option (StoreOptions B)) :
  (falsy (optBucketName (givenOptions arg)) = true ->
   constructor env arg =
   inl (Error "A valid bucket name is required for AwsS3Store.")) /\
  (falsy (optBucketName (givenOptions arg)) = false ->
   falsy (optRemoteDataPath (givenOptions arg)) = true ->
   constructor env arg =
   inl (Error "A valid remote dir path is required for AwsS3Store.")) /\
  (falsy (optBucketName (givenOptions arg)) = false ->
   falsy (optRemoteDataPath (givenOptions arg)) = false ->
   optS3Client (givenOptions arg) = None ->
   constructor env arg =
   inl (Error "A valid S3Client instance is required for AwsS3Store.")) /\
  (forall bucket remote client,
      arg = Some {| optBucketName := Some bucket;
                    optRemoteDataPath := Some remote;
                    optS3Client := Some client |} ->
      bucket <> "" -> remote <> "" ->
      exists store,
        constructor env arg = inr store /\
        bucketName store = Some bucket /\
        remoteDataPath store = Some remote /\
        s3Client store = Some client /\
        debugEnabled store =
        match env with Some v => String.eqb v "true" | None => false end).
Proof.
  unfold constructor, givenOptions.
  repeat split.
  - intros ->. reflexivity.
  - intros -> ->. reflexivity.
  - intros -> -> ->. reflexivity.
  - intros bucket remote client -> Hb Hr. simpl.
    destruct bucket as [|c1 b1]; [congruence|].
    destruct remote as [|c2 r2]; [congruence|].
    simpl. eexists. repeat split.
Qed.

End Construction.

(** A store built from the example's options. *)
Lemma constructor_requires_all_witness :
  (constructor (B := N) None None =
   inl (Error "A valid bucket name is required for AwsS3Store.")) /\
  (constructor None
     (Some {| optBucketName := Some "satuin"; optRemoteDataPath := Some "";
              optS3Client := Some (okClient (B := N)) |}) =
   inl (Error "A valid remote dir path is required for AwsS3Store.")) /\
  (constructor (B := N) None
     (Some {| optBucketName := Some "satuin";
              optRemoteDataPath := Some "dev/wwebjs-auth";
              optS3Client := None |}) =
   inl (Error "A valid S3Client instance is required for AwsS3Store.")) /\
  (exists store,
      constructor (Some "true")
        (Some {| optBucketName := Some "satuin";
                 optRemoteDataPath := Some "dev/wwebjs-auth";
                 optS3Client := Some (okClient (B := N)) |}) = inr store /\
      bucketName store = Some "satuin" /\
      remoteDataPath store = Some "dev/wwebjs-auth" /\
      s3Client store = Some okClient /\
      debugEnabled store = true).
Proof.
  split; [|split; [|split]].
  - apply (constructor_requires_all (B := N) None None). reflexivity.
  - apply (constructor_requires_all (B := N)); reflexivity.
  - apply (constructor_requires_all (B := N)); reflexivity.
  - apply (constructor_requires_all (B := N) (Some "true") _).
    exact (eq_refl). discriminate. discriminate.
Defined.

(** ** The key of a session *)

Section Keys.

Context {B : Type} `{Bytes B}.
Variable host : Host B.

Lemma replace_backslashes_clean (s : string) :
  has_backslash (replace_backslashes s) = false.
Proof.
  induction s as [|c s IH]; simpl; [reflexivity|].
  rewrite IH, orb_false_r.
  destruct (Ascii.eqb c backslash) eqn:Hc; [reflexivity| exact Hc].
Qed.

(** C3.  The key of a session is computed without any effect and without
    looking at the history: it is [path.join] of the base path and the
    identifier followed by [.zip], with every backslash turned into a
    slash.  So two computations from the same base path and identifier
    give the same key, the key holds no backslash, and the POSIX join of
    [prod/auth] and [work-phone] gives [prod/auth/work-phone.zip]. *)
Theorem remoteKey_pure (this : AwsS3Store B) (options : Options)
    (base id : string) (h h' : list (Event B)) :
  remoteDataPath this = Some base ->
  session options = Some id ->
  remoteKey host this options h =
    (Normal (replace_backslashes (join host base (id ++ ".zip")%string)), []) /\
  remoteKey host this options h' = remoteKey host this options h /\
  has_backslash (remoteFilePath (join host) base (Some id)) = false /\
  remoteFilePath posix_join "prod/auth" (Some "work-phone") =
    "prod/auth/work-phone.zip".
Proof.
  intros Hbase Hid. unfold remoteKey, remoteFilePath.
  rewrite Hbase, Hid. simpl.
  repeat split. apply replace_backslashes_clean.
Qed.

End Keys.

(** A host whose [path.join] writes backslashes, as on Windows. *)
Lemma remoteKey_pure_witness :
  let windows : Host N :=
    {| join := fun a b => (a ++ "\" ++ b)%string; fs := noFiles |} in
  remoteKey windows (storeWith okClient) (sessionOptions "work-phone") [] =
    (Normal "dev/wwebjs-auth/work-phone.zip", []) /\
  has_backslash
    (remoteFilePath (join windows) "dev/wwebjs-auth" (Some "work-phone")) = false.
Proof.
  intros windows.
  destruct (remoteKey_pure windows (storeWith okClient)
              (sessionOptions "work-phone") "dev/wwebjs-auth" "work-phone"
              [] [] eq_refl eq_refl) as (Hkey & _ & Hclean & _).
  split; [exact Hkey | exact Hclean].
Defined.

(** ** isValidConfig *)

Section Validation.

Context {B : Type} `{Bytes B}.
Variable host : Host B.

Lemma status_check (o : Output) (h : list (Event B)) :
  match metadata o with
  | None => ret false
  | Some md =>
      if falsy_num (httpStatusCode md) then ret false
      else
        match httpStatusCode md with
        | Some code => if code =? 200 then ret true else ret false
        | None => ret false
        end
  end h = (Normal (explicitSuccess o), @nil (Event B)).
Proof.
  unfold explicitSuccess. destruct (metadata o) as [[[code|]]|]; simpl;
    try reflexivity.
  destruct (code =? 0) eqn:H0; destruct (code =? 200) eqn:H200;
    try reflexivity.
  apply N.eqb_eq in H0, H200. subst. discriminate.
Qed.

(** What [isValidConfig] does once the four fields are there: one
    [ListObjectsCommand]; an answer is judged by its status code, an error
    is printed and counts as valid. *)
Lemma isValidConfig_probe (this : AwsS3Store B) (options : Options) client h :
  falsy (session options) = false ->
  falsy (bucketName this) = false ->
  falsy (remoteDataPath this) = false ->
  s3Client this = Some client ->
  isValidConfig this options h =
  match client h (ListObjectsCommand (bucketName this)) with
  | inr o =>
      (Normal (explicitSuccess o),
       [Send (ListObjectsCommand (bucketName this)) (inr o)])
  | inl e =>
      (Normal true,
       [Send (ListObjectsCommand (bucketName this)) (inl e);
        ConsoleLogError "Error: Invalid AwsS3Store configuration" e])
  end.
Proof.
  intros Hs Hb Hp Hc. unfold isValidConfig. rewrite Hs, Hb, Hp, Hc.
  unfold tryCatch, bind. rewrite (send_run this client _ h Hc).
  destruct (client h (ListObjectsCommand (bucketName this))) as [e|o].
  - reflexivity.
  - rewrite status_check. reflexivity.
Qed.

(** C4.  [isValidConfig] never throws.  It answers [false], after one
    printed line and without a probe, for the first of session, bucket
    name, remote path and client that is missing.  With all four there it
    sends one [ListObjectsCommand]: an answer makes it [true] exactly
    when the answer carries status 200, and an error thrown by the probe
    is printed and makes it [true]. *)
Theorem isValidConfig_decides (this : AwsS3Store B) (options : Options)
    (h : list (Event B)) :
  (exists valid, fst (isValidConfig this options h) = Normal valid) /\
  (falsy (session options) = true ->
   isValidConfig this options h =
   (Normal false,
    [ConsoleLog "Error: A valid session is required for AwsS3Store."])) /\
  (falsy (session options) = false -> falsy (bucketName this) = true ->
   isValidConfig this options h =
   (Normal false,
    [ConsoleLog "Error: A valid bucket name is required for AwsS3Store."])) /\
  (falsy (session options) = false -> falsy (bucketName this) = false ->
   falsy (remoteDataPath this) = true ->
   isValidConfig this options h =
   (Normal false,
    [ConsoleLog "Error: A valid remote dir path is required for AwsS3Store."])) /\
  (falsy (session options) = false -> falsy (bucketName this) = false ->
   falsy (remoteDataPath this) = false -> s3Client this = None ->
   isValidConfig this options h =
   (Normal false,
    [ConsoleLog "Error: A valid S3Client instance is required for AwsS3Store."])) /\
  (forall client,
      falsy (session options) = false -> falsy (bucketName this) = false ->
      falsy (remoteDataPath this) = false -> s3Client this = Some client ->
      (forall o,
          client h (ListObjectsCommand (bucketName this)) = inr o ->
          isValidConfig this options h =
          (Normal (explicitSuccess o),
           [Send (ListObjectsCommand (bucketName this)) (inr o)])) /\
      (forall e,
          client h (ListObjectsCommand (bucketName this)) = inl e ->
          isValidConfig this options h =
          (Normal true,
           [Send (ListObjectsCommand (bucketName this)) (inl e);
            ConsoleLogError "Error: Invalid AwsS3Store configuration" e]))).
Proof.
  split; [|repeat split].
  - destruct (falsy (session options)) eqn:Hs;
      [unfold isValidConfig; rewrite Hs; eexists; reflexivity|].
    destruct (falsy (bucketName this)) eqn:Hb;
      [unfold isValidConfig; rewrite Hs, Hb; eexists; reflexivity|].
    destruct (falsy (remoteDataPath this)) eqn:Hp;
      [unfold isValidConfig; rewrite Hs, Hb, Hp; eexists; reflexivity|].
    destruct (s3Client this) as [client|] eqn:Hc;
      [|unfold isValidConfig; rewrite Hs, Hb, Hp, Hc; eexists; reflexivity].
    rewrite (isValidConfig_probe this options client h Hs Hb Hp Hc).
    destruct (client h _); eexists; reflexivity.
  - intros Hs. unfold isValidConfig. rewrite Hs. reflexivity.
  - intros Hs Hb. unfold isValidConfig. rewrite Hs, Hb. reflexivity.
  - intros Hs Hb Hp. unfold isValidConfig. rewrite Hs, Hb, Hp. reflexivity.
  - intros Hs Hb Hp Hc. unfold isValidConfig. rewrite Hs, Hb, Hp, Hc.
    reflexivity.
  - intros o Ho. rewrite (isValidConfig_probe this options client h); auto. rewrite Ho. reflexivity.
  - intros e He. rewrite (isValidConfig_probe this options client h); auto. rewrite He. reflexivity.
Qed.

(** The two ways [isValidConfig] ends. *)
Lemma isValidConfig_cases (this : AwsS3Store B) (options : Options) h :
  (exists evv,
      isValidConfig this options h = (Normal false, evv) /\
      Forall (fun x => isValidationEvent x = true) evv) \/
  (exists evv client base,
      isValidConfig this options h = (Normal true, evv) /\
      s3Client this = Some client /\ remoteDataPath this = Some base /\
      falsy (session options) = false /\
      Forall (fun x => isValidationEvent x = true) evv).
Proof.
  destruct (falsy (session options)) eqn:Hs;
    [left; unfold isValidConfig; rewrite Hs; eexists; split;
     [reflexivity | repeat constructor]|].
  destruct (falsy (bucketName this)) eqn:Hb;
    [left; unfold isValidConfig; rewrite Hs, Hb; eexists; split;
     [reflexivity | repeat constructor]|].
  destruct (falsy (remoteDataPath this)) eqn:Hp;
    [left; unfold isValidConfig; rewrite Hs, Hb, Hp; eexists; split;
     [reflexivity | repeat constructor]|].
  destruct (s3Client this) as [client|] eqn:Hc;
    [|left; unfold isValidConfig; rewrite Hs, Hb, Hp, Hc; eexists; split;
      [reflexivity | repeat constructor]].
  rewrite (isValidConfig_probe this options client h Hs Hb Hp Hc).
  destruct (remoteDataPath this) as [base|] eqn:Hbase; [|discriminate].
  destruct (client h (ListObjectsCommand (bucketName this))) as [e|o].
  - right. exists [Send (ListObjectsCommand (bucketName this)) (inl e);
                   ConsoleLogError "Error: Invalid AwsS3Store configuration" e],
      client, base.
    repeat split; repeat constructor.
  - destruct (explicitSuccess o).
    + right. eexists _, client, base. repeat split; repeat constructor.
    + left. eexists. split; [reflexivity | repeat constructor].
Qed.

End Validation.

(** A probe that is refused still validates; a missing session does not. *)
Lemma isValidConfig_decides_witness :
  isValidConfig
    (storeWith (failingOn (B := N) isListObjects (Error "AccessDenied")))
    (sessionOptions "work-phone") [] =
  (Normal true,
   [Send (ListObjectsCommand (Some "satuin")) (inl (Error "AccessDenied"));
    ConsoleLogError "Error: Invalid AwsS3Store configuration"
      (Error "AccessDenied")]) /\
  isValidConfig (storeWith (okClient (B := N)))
    {| session := Some ""; path := None |} [] =
  (Normal false,
   [ConsoleLog "Error: A valid session is required for AwsS3Store."]).
Proof.
  split.
  - destruct (isValidConfig_decides
                (storeWith (failingOn (B := N) isListObjects
                              (Error "AccessDenied")))
                (sessionOptions "work-phone") [])
      as (_ & _ & _ & _ & _ & Hprobe).
    destruct (Hprobe _ eq_refl eq_refl eq_refl eq_refl) as [_ Herr].
    apply Herr. reflexivity.
  - destruct (isValidConfig_decides (storeWith (okClient (B := N)))
                {| session := Some ""; path := None |} [])
      as (_ & Hsession & _).
    apply Hsession. reflexivity.
Defined.

(** ** sessionExists *)

Section Existence.

Context {B : Type} `{Bytes B}.
Variable host : Host B.

Lemma headProbe_app (a b : list (Event B)) :
  headProbe (a ++ b) =
  match headProbe a with Some r => Some r | None => headProbe b end.
Proof.
  induction a as [|x a IH]; simpl; [reflexivity|].
  destruct x as [| | | | | | |c r]; try exact IH.
  destruct c; try exact IH; reflexivity.
Qed.

Lemma headProbe_validation (ev : list (Event B)) :
  Forall (fun x => isValidationEvent x = true) ev -> headProbe ev = None.
Proof.
  induction 1 as [|x ev Hx _ IH]; simpl; [reflexivity|].
  destruct x as [| | | | | | |c r]; try exact IH; try discriminate.
  destruct c; try exact IH; discriminate.
Qed.

Lemma headProbe_debugLine (this : AwsS3Store B) msg :
  headProbe (debugLine this msg) = None.
Proof. unfold debugLine. destruct (debugEnabled this); reflexivity. Qed.

Lemma sends_app (a b : list (Event B)) : sends (a ++ b) = sends a ++ sends b.
Proof.
  induction a as [|x a IH]; simpl; [reflexivity|].
  destruct x; simpl; rewrite ?IH; reflexivity.
Qed.

Lemma requests_app (a b : list (Event B)) :
  requests (a ++ b) = requests a ++ requests b.
Proof. unfold requests. rewrite sends_app, filter_app. reflexivity. Qed.

Lemma count_app (p : Command B -> bool) (a b : list (Event B)) :
  count p (a ++ b) = (count p a + count p b)%nat.
Proof. unfold count. rewrite sends_app, filter_app, length_app. reflexivity. Qed.

Lemma sends_debugLine (this : AwsS3Store B) msg : sends (debugLine this msg) = [].
Proof. unfold debugLine. destruct (debugEnabled this); reflexivity. Qed.

Lemma requests_debugLine (this : AwsS3Store B) msg :
  requests (debugLine this msg) = [].
Proof. unfold requests. rewrite sends_debugLine. reflexivity. Qed.

Lemma requests_validation (ev : list (Event B)) :
  Forall (fun x => isValidationEvent x = true) ev -> requests ev = [].
Proof.
  induction 1 as [|x ev Hx _ IH]; [reflexivity|].
  destruct x as [| | | | | | |c r]; try exact IH; try discriminate.
  destruct c; try discriminate. exact IH.
Qed.

Lemma count_debugLine (p : Command B -> bool) (this : AwsS3Store B) msg :
  count p (debugLine this msg) = 0%nat.
Proof. unfold count. rewrite sends_debugLine. reflexivity. Qed.

Lemma count_validation (ev : list (Event B)) :
  Forall (fun x => isValidationEvent x = true) ev ->
  count isDeleteObject ev = 0%nat.
Proof.
  induction 1 as [|x ev Hx _ IH]; [reflexivity|].
  destruct x as [| | | | | | |c r]; try exact IH; try discriminate.
  destruct c; try discriminate. exact IH.
Qed.

(** The run of [sessionExists] when the configuration is refused. *)
Lemma sessionExists_refused (this : AwsS3Store B) (options : Options) h evv :
  isValidConfig this options
    (h ++ debugLine this "[METHOD: sessionExists] Triggered.") =
    (Normal false, evv) ->
  sessionExists host this options h =
  (Normal None, debugLine this "[METHOD: sessionExists] Triggered." ++ evv).
Proof.
  intros Hv. unfold sessionExists.
  erewrite bind_normal; [reflexivity | apply debugLog_run |].
  erewrite bind_normal; [| exact Hv | reflexivity].
  rewrite app_nil_r. reflexivity.
Qed.

(** The run of [sessionExists] when the configuration is accepted: one
    [HeadObjectCommand] for the session's key decides the answer. *)
Lemma sessionExists_probed (this : AwsS3Store B) (options : Options) h evv
    client base :
  isValidConfig this options
    (h ++ debugLine this "[METHOD: sessionExists] Triggered.") =
    (Normal true, evv) ->
  s3Client this = Some client -> remoteDataPath this = Some base ->
  let dbg := debugLine this "[METHOD: sessionExists] Triggered." in
  let key := remoteFilePath (join host) base (session options) in
  let head := HeadObjectCommand (bucketName this) key in
  let answer := client ((h ++ dbg) ++ evv) head in
  sessionExists host this options h =
  match answer with
  | inr _ =>
      (Normal (Some true),
       dbg ++ evv ++ Send head answer ::
         debugLine this
           ("[METHOD: sessionExists] File found. PATH='" ++ key ++ "'.")%string)
  | inl err =>
      if notFound err then
        (Normal (Some false),
         dbg ++ evv ++ Send head answer ::
           debugLine this
             ("[METHOD: sessionExists] File not found. PATH='" ++ key ++ "'.")%string)
      else
        (Normal None,
         dbg ++ evv ++ Send head answer ::
           debugLine this
             ("[METHOD: sessionExists] Error: " ++ message err)%string)
  end.
Proof.
  intros Hv Hc Hbase dbg key head answer. unfold sessionExists.
  assert (Hkey : forall h', remoteKey host this options h' = (Normal key, [])).
  { intros h'. unfold remoteKey. rewrite Hbase. reflexivity. }
  rewrite (bind_step _ _ _ _ _ (debugLog_run this _ h)).
  rewrite (bind_step _ _ _ _ _ Hv). cbn [negb].
  rewrite (bind_step _ _ _ _ _ (Hkey _)). rewrite app_nil_r.
  unfold tryCatch, bind. rewrite (send_run this client _ _ Hc).
  fold key. fold head. fold dbg. fold answer.
  destruct answer as [err|o].
  - destruct (notFound err); rewrite debugLog_run; unfold ret;
      cbv beta iota zeta; cbn [app]; rewrite app_nil_r; reflexivity.
  - rewrite debugLog_run. unfold ret. cbv beta iota zeta. cbn [app].
    rewrite app_nil_r. reflexivity.
Qed.

(** C5.  [sessionExists] never throws.  When the configuration is
    accepted it sends one head probe, for the key of the session, and its
    answer follows what the client answers to this probe: [true] when the
    probe succeeds, [false] when it fails with an error named [NoSuchKey]
    or [NotFound], and nothing ([undefined]) when it fails with any other
    error.  When the configuration is refused it sends no probe and
    answers nothing. *)
Theorem sessionExists_follows_probe (this : AwsS3Store B) (options : Options)
    (h : list (Event B)) :
  let dbg := debugLine this "[METHOD: sessionExists] Triggered." in
  let validation := isValidConfig this options (h ++ dbg) in
  let run := sessionExists host this options h in
  match fst validation with
  | Normal true =>
      exists client base,
        s3Client this = Some client /\ remoteDataPath this = Some base /\
        let head :=
          HeadObjectCommand (bucketName this)
            (remoteFilePath (join host) base (session options)) in
        let answer := client ((h ++ dbg) ++ snd validation) head in
        requests (snd run) = [head] /\
        headProbe (snd run) = Some answer /\
        fst run =
        Normal match answer with
               | inr _ => Some true
               | inl err => if notFound err then Some false else None
               end
  | Normal false =>
      fst run = Normal None /\ requests (snd run) = [] /\
      headProbe (snd run) = None
  | Throw _ => False
  end.
Proof.
  intros dbg validation run. subst dbg validation run.
  destruct (isValidConfig_cases this options
              (h ++ debugLine this "[METHOD: sessionExists] Triggered."))
    as [(evv & Hv & Hevv) | (evv & client & base & Hv & Hc & Hbase & _ & Hevv)];
    rewrite Hv; cbn [fst snd].
  - rewrite (sessionExists_refused this options h evv Hv). cbn [fst snd].
    rewrite requests_app, requests_debugLine, (requests_validation _ Hevv).
    rewrite headProbe_app, headProbe_debugLine, (headProbe_validation _ Hevv).
    auto.
  - exists client, base. split; [exact Hc|]. split; [exact Hbase|].
    rewrite (sessionExists_probed this options h evv client base Hv Hc Hbase).
    cbv zeta.
    assert (Hrun : forall answer tail,
               requests tail = [] ->
               requests
                 (debugLine this "[METHOD: sessionExists] Triggered." ++ evv ++
                  Send (HeadObjectCommand (bucketName this)
                          (remoteFilePath (join host) base (session options)))
                    answer :: tail) =
               [HeadObjectCommand (bucketName this)
                  (remoteFilePath (join host) base (session options))] /\
               headProbe
                 (debugLine this "[METHOD: sessionExists] Triggered." ++ evv ++
                  Send (HeadObjectCommand (bucketName this)
                          (remoteFilePath (join host) base (session options)))
                    answer :: tail) = Some answer).
    { intros answer tail Htail.
      rewrite requests_app, requests_debugLine, requests_app,
        (requests_validation _ Hevv).
      rewrite headProbe_app, headProbe_debugLine, headProbe_app,
        (headProbe_validation _ Hevv).
      change (?x :: tail) with ([x] ++ tail).
      rewrite requests_app, Htail. split; reflexivity. }
    destruct (client _ _) as [err|o]; [destruct (notFound err)|];
      cbn [fst snd];
      (edestruct Hrun as [Hreq Hprobe]; [apply requests_debugLine|]);
      rewrite Hreq, Hprobe; auto.
Qed.

End Existence.

(** Three runs of [sessionExists]: the archive is there, it is not, and
    the probe is refused for another reason. *)
Example sessionExists_found :
  fst (sessionExists (posixHost noFiles) (storeWith (okClient (B := N)))
         (sessionOptions "work-phone") []) = Normal (Some true).
Proof. reflexivity. Qed.

Example sessionExists_missing :
  fst (sessionExists (posixHost noFiles) (storeWith (memoryS3 (B := N)))
         (sessionOptions "work-phone") []) = Normal (Some false).
Proof. reflexivity. Qed.

Example sessionExists_unknown :
  fst (sessionExists (posixHost noFiles)
         (storeWith (failingOn (B := N) isHeadObject (Error "AccessDenied")))
         (sessionOptions "work-phone") []) = Normal None.
Proof. reflexivity. Qed.

(** Four stores: the archive is there, it is not, the probe is refused
    for another reason, and the configuration is refused. *)
Lemma sessionExists_follows_probe_witness :
  let host := posixHost (B := N) noFiles in
  let options := sessionOptions "work-phone" in
  let head :=
    HeadObjectCommand (B := N) (Some "satuin")
      "dev/wwebjs-auth/work-phone.zip" in
  let found := sessionExists host (storeWith okClient) options [] in
  let missing := sessionExists host (storeWith memoryS3) options [] in
  let unknown :=
    sessionExists host
      (storeWith (failingOn isHeadObject (Error "AccessDenied"))) options [] in
  let refused := sessionExists host (storeWith forbiddenProbe) options [] in
  (fst found = Normal (Some true) /\ requests (snd found) = [head]) /\
  (fst missing = Normal (Some false) /\ requests (snd missing) = [head]) /\
  (fst unknown = Normal None /\ requests (snd unknown) = [head]) /\
  (fst refused = Normal None /\ requests (snd refused) = []).
Proof.
  intros host options head found missing unknown refused.
  split; [|split; [|split]].
  - destruct (sessionExists_follows_probe host (storeWith okClient) options [])
      as (client & base & Hc & Hbase & Hreq & _ & Hres).
    injection Hc as <-. injection Hbase as <-.
    split; [exact Hres | exact Hreq].
  - destruct (sessionExists_follows_probe host (storeWith memoryS3) options [])
      as (client & base & Hc & Hbase & Hreq & _ & Hres).
    injection Hc as <-. injection Hbase as <-.
    split; [exact Hres | exact Hreq].
  - destruct (sessionExists_follows_probe host
                (storeWith (failingOn isHeadObject (Error "AccessDenied")))
                options [])
      as (client & base & Hc & Hbase & Hreq & _ & Hres).
    injection Hc as <-. injection Hbase as <-.
    split; [exact Hres | exact Hreq].
  - destruct (sessionExists_follows_probe host (storeWith forbiddenProbe)
                options [])
      as (Hres & Hreq & _).
    split; [exact Hres | exact Hreq].
Defined.

(** ** delete *)

Section Deletion.

Context {B : Type} `{Bytes B}.
Variable host : Host B.

Lemma delete_refused (this : AwsS3Store B) (options : Options) h evv :
  isValidConfig this options
    (h ++ debugLine this "[METHOD: delete] Triggered.") = (Normal false, evv) ->
  delete host this options h =
  (Normal tt, debugLine this "[METHOD: delete] Triggered." ++ evv).
Proof.
  intros Hv. unfold delete.
  rewrite (bind_step _ _ _ _ _ (debugLog_run this _ h)).
  rewrite (bind_step _ _ _ _ _ Hv). cbn [negb]. unfold ret.
  rewrite app_nil_r. reflexivity.
Qed.

(** The run of [delete] on an accepted configuration: the head probe, and
    the delete command only after the probe succeeded; whatever either of
    them throws ends in a debug line. *)
Lemma delete_probed (this : AwsS3Store B) (options : Options) h evv
    client base :
  isValidConfig this options
    (h ++ debugLine this "[METHOD: delete] Triggered.") = (Normal true, evv) ->
  s3Client this = Some client -> remoteDataPath this = Some base ->
  let dbg := debugLine this "[METHOD: delete] Triggered." in
  let key := remoteFilePath (join host) base (session options) in
  let head := HeadObjectCommand (bucketName this) key in
  let del := DeleteObjectCommand (bucketName this) key in
  let answer := client ((h ++ dbg) ++ evv) head in
  let answer' := client (((h ++ dbg) ++ evv) ++ [Send head answer]) del in
  let swallowed (err : JsError) :=
    if notFound err
    then debugLine this
           ("[METHOD: delete] File not found. PATH='" ++ key ++ "'.")%string
    else debugLine this ("[METHOD: delete] Error: " ++ message err)%string in
  delete host this options h =
  (Normal tt,
   dbg ++ evv ++
   match answer with
   | inl err => Send head answer :: swallowed err
   | inr _ =>
       Send head answer :: Send del answer' ::
       match answer' with
       | inl err => swallowed err
       | inr _ =>
           debugLine this
             ("[METHOD: delete] File deleted. PATH='" ++ key ++ "'.")%string
       end
   end).
Proof.
  intros Hv Hc Hbase dbg key head del answer answer' swallowed.
  unfold delete.
  assert (Hkey : forall h', remoteKey host this options h' = (Normal key, [])).
  { intros h'. unfold remoteKey. rewrite Hbase. reflexivity. }
  rewrite (bind_step _ _ _ _ _ (debugLog_run this _ h)).
  rewrite (bind_step _ _ _ _ _ Hv). cbn [negb].
  rewrite (bind_step _ _ _ _ _ (Hkey _)). rewrite app_nil_r.
  unfold tryCatch, bind. rewrite (send_run this client _ _ Hc).
  fold key. fold head. fold del. fold dbg. fold answer.
  destruct answer as [err|o].
  - subst swallowed. cbv beta.
    destruct (notFound err); rewrite debugLog_run; reflexivity.
  - rewrite (send_run this client _ _ Hc). fold answer'.
    destruct answer' as [err|o'].
    + subst swallowed. cbv beta.
      destruct (notFound err); rewrite debugLog_run; reflexivity.
    + rewrite debugLog_run. reflexivity.
Qed.

Lemma stored_app bucket key (a b : list (Event B)) present :
  stored bucket key (a ++ b) present =
  stored bucket key b (stored bucket key a present).
Proof.
  revert present. induction a as [|x a IH]; intros present; [reflexivity|].
  destruct x as [| | | | | | |c r]; simpl; try apply IH.
  destruct c; try apply IH; destruct r; apply IH.
Qed.

Lemma stored_quiet bucket key (ev : list (Event B)) present :
  requests ev = [] -> stored bucket key ev present = present.
Proof.
  revert present. induction ev as [|x ev IH]; intros present Hq;
    [reflexivity|].
  destruct x as [| | | | | | |c r]; simpl; try (apply IH; exact Hq).
  destruct c; try discriminate Hq. apply IH. exact Hq.
Qed.

Lemma sameBucket_refl (b : option string) : sameBucket b b = true.
Proof. destruct b as [s|]; [apply String.eqb_refl | reflexivity]. Qed.

(** On the bucket kept in the history the configuration is judged the
    same whatever happened before. *)
End Deletion.

Example delete_saved_archive :
  requests
    (snd (delete (posixHost (B := N) noFiles) (storeWith memoryS3)
            (sessionOptions "work-phone")
            [Send
               (PutObjectCommand (Some "satuin")
                  "dev/wwebjs-auth/work-phone.zip"
                  {| streamPath := "work-phone.zip"; streamChunks := [4608];
                     streamError := None |}
                  "application/zip" "Enabled" "gzip")
               (inr (status 200))])) =
  [HeadObjectCommand (Some "satuin") "dev/wwebjs-auth/work-phone.zip";
   DeleteObjectCommand (Some "satuin") "dev/wwebjs-auth/work-phone.zip"].
Proof. reflexivity. Qed.

(** ** save: failures *)

Section Failures.

Context {B : Type} `{Bytes B}.
Variable host : Host B.

Lemma failures_app (a b : list (Event B)) :
  failures (a ++ b) = failures a ++ failures b.
Proof.
  induction a as [|x a IH]; simpl; [reflexivity|].
  destruct (transferFailure x); simpl; rewrite IH; reflexivity.
Qed.

Lemma afterFailure_app (a b : list (Event B)) :
  failures a = [] -> afterFailure (a ++ b) = afterFailure b.
Proof.
  induction a as [|x a IH]; simpl; [reflexivity|].
  destruct (transferFailure x); [discriminate | exact IH].
Qed.

Lemma afterFailure_app_failed (a b : list (Event B)) :
  failures a <> [] -> afterFailure (a ++ b) = afterFailure a ++ b.
Proof.
  induction a as [|x a IH]; simpl; [congruence|].
  destruct (transferFailure x); [reflexivity | exact IH].
Qed.

Lemma failures_debugLine (this : AwsS3Store B) msg :
  failures (debugLine this msg) = [].
Proof. unfold debugLine. destruct (debugEnabled this); reflexivity. Qed.

Lemma failures_validation (ev : list (Event B)) :
  Forall (fun x => isValidationEvent x = true) ev -> failures ev = [].
Proof.
  induction 1 as [|x ev Hx _ IH]; [reflexivity|].
  destruct x as [| | | | | | |c r]; try exact IH; try discriminate.
  destruct c; try discriminate. destruct r; exact IH.
Qed.

Lemma failStop_ret {A} (a : A) : failStop (ret (B := B) a).
Proof. intros h r ev [= <- <-]. reflexivity. Qed.

Lemma failStop_bind {A C} (m : M B A) (k : A -> M B C) :
  failStop m -> (forall a, failStop (k a)) -> failStop (bind m k).
Proof.
  intros Hm Hk h r ev Hrun.
  destruct (bind_inv _ _ _ _ _ Hrun)
    as [(e & Hm1 & ->) | (a & ev1 & ev2 & Hm1 & Hk1 & ->)].
  - exact (Hm _ _ _ Hm1).
  - specialize (Hm _ _ _ Hm1). specialize (Hk _ _ _ _ Hk1). cbn in Hm.
    rewrite failures_app, Hm, (afterFailure_app _ _ Hm). exact Hk.
Qed.

Lemma failStop_emit (x : Event B) :
  transferFailure x = None -> failStop (emit x).
Proof. intros Hx h r ev [= <- <-]. cbn. rewrite Hx. reflexivity. Qed.

Lemma failStop_log (line : string) : failStop (log (B := B) line).
Proof. apply failStop_emit. reflexivity. Qed.

Lemma failStop_debugLog (this : AwsS3Store B) msg : failStop (debugLog this msg).
Proof.
  intros h r ev. rewrite debugLog_run. intros [= <- <-].
  apply failures_debugLine.
Qed.

Lemma failStop_send (this : AwsS3Store B) client c :
  s3Client this = Some client -> isListObjects c = false ->
  failStop (send this c).
Proof.
  intros Hc Hl h r ev. rewrite (send_run this client c h Hc).
  intros [= <- <-]. destruct (client h c); cbn; rewrite ?Hl; auto.
Qed.

Lemma failStop_statSync (p : string) : failStop (statSync host p).
Proof.
  intros h r ev. unfold statSync. destruct (fs host p); intros [= <- <-];
    cbn; auto.
Qed.

Lemma failStop_createReadStream (p : string) :
  failStop (createReadStream host p).
Proof. intros h r ev [= <- <-]. reflexivity. Qed.

Lemma failStop_iterate {S} (body : B -> S -> M B S) (cs : list B) :
  (forall chunk s, failStop (body chunk s)) ->
  forall s, failStop (iterate body cs s).
Proof.
  intros Hbody. induction cs as [|chunk cs IH]; intros s; simpl.
  - apply failStop_ret.
  - apply failStop_bind; [apply Hbody | exact IH].
Qed.

Lemma failStop_forAwait {S} (stream : ReadStream B) (body : B -> S -> M B S) s :
  (forall chunk s, failStop (body chunk s)) ->
  failStop (forAwait stream body s).
Proof.
  intros Hbody. unfold forAwait. apply failStop_bind.
  - apply failStop_iterate, Hbody.
  - intros s'. destruct (streamError stream) as [e|]; [|apply failStop_ret].
    intros h r ev [= <- <-]. cbn. auto.
Qed.

Lemma failStop_uploadBuffer (this : AwsS3Store B) client remote uploadId u :
  s3Client this = Some client ->
  failStop (uploadBuffer this remote uploadId u).
Proof.
  intros Hc. unfold uploadBuffer. apply failStop_bind.
  - apply (failStop_send this client); [exact Hc | reflexivity].
  - intros o. apply failStop_ret.
Qed.

Lemma failStop_onChunk (this : AwsS3Store B) client remote uploadId chunk u :
  s3Client this = Some client ->
  failStop (onChunk this remote uploadId chunk u).
Proof.
  intros Hc. unfold onChunk. cbv zeta.
  destruct (partSize <=? _); [|apply failStop_ret].
  apply failStop_bind.
  - apply (failStop_uploadBuffer this client). exact Hc.
  - intros u'. apply failStop_ret.
Qed.

Lemma failStop_transfer (this : AwsS3Store B) client options remote :
  s3Client this = Some client ->
  failStop (transfer host this options remote).
Proof.
  intros Hc. unfold transfer. cbv zeta.
  apply failStop_bind; [apply failStop_statSync|]. intros fileSize.
  apply failStop_bind; [|intros; apply failStop_debugLog].
  destruct (fileSize <=? _).
  - unfold singleUpload.
    apply failStop_bind; [apply failStop_log|]. intros _.
    apply failStop_bind; [apply failStop_createReadStream|]. intros stream.
    apply failStop_bind; [|intros; apply failStop_ret].
    apply (failStop_send this client); [exact Hc | reflexivity].
  - unfold multipartUpload.
    apply failStop_bind; [apply failStop_log|]. intros _.
    apply failStop_bind;
      [apply (failStop_send this client); [exact Hc | reflexivity]|].
    intros created.
    apply failStop_bind; [apply failStop_createReadStream|]. intros stream.
    apply failStop_bind.
    { apply failStop_forAwait. intros chunk u.
      apply (failStop_onChunk this client). exact Hc. }
    intros u. apply failStop_bind.
    { destruct (buffer u); [apply failStop_ret|].
      apply (failStop_uploadBuffer this client). exact Hc. }
    intros u'. apply failStop_bind; [|intros; apply failStop_ret].
    apply (failStop_send this client); [exact Hc | reflexivity].
Qed.

End Failures.

(** ** save: what it may do *)

Section Safety.

Context {B : Type} `{Bytes B}.
Variable host : Host B.

Lemma emits_ret {A} (P : Event B -> Prop) (a : A) : emits P (ret a).
Proof. intros h r ev [= <- <-]. constructor. Qed.

Lemma emits_throw {A} (P : Event B -> Prop) e : emits P (throw (A := A) e).
Proof. intros h r ev [= <- <-]. constructor. Qed.

(** Sequencing, with what is known of the value handed on. *)
Lemma emits_bind {A C} (P : Event B -> Prop) (Q : A -> Prop)
    (m : M B A) (k : A -> M B C) :
  emits P m -> (forall h a ev, m h = (Normal a, ev) -> Q a) ->
  (forall a, Q a -> emits P (k a)) -> emits P (bind m k).
Proof.
  intros Hm HQ Hk h r ev Hrun.
  destruct (bind_inv _ _ _ _ _ Hrun)
    as [(e & Hm1 & ->) | (a & ev1 & ev2 & Hm1 & Hk1 & ->)].
  - exact (Hm _ _ _ Hm1).
  - apply Forall_app. split; [exact (Hm _ _ _ Hm1)|].
    exact (Hk a (HQ _ _ _ Hm1) _ _ _ Hk1).
Qed.

Lemma emits_seq {A C} (P : Event B -> Prop) (m : M B A) (k : A -> M B C) :
  emits P m -> (forall a, emits P (k a)) -> emits P (bind m k).
Proof.
  intros Hm Hk. apply (emits_bind P (fun _ => True)); auto.
Qed.

Lemma emits_tryCatch {A} (P : Event B -> Prop) (m : M B A) handler :
  emits P m -> (forall e, emits P (handler e)) -> emits P (tryCatch m handler).
Proof.
  intros Hm Hh h r ev Hrun.
  destruct (tryCatch_inv _ _ _ _ _ Hrun)
    as [(a & Hm1 & ->) | (e & ev1 & ev2 & Hm1 & Hh1 & ->)].
  - exact (Hm _ _ _ Hm1).
  - apply Forall_app. split; [exact (Hm _ _ _ Hm1) | exact (Hh _ _ _ _ Hh1)].
Qed.

Lemma emits_emit (P : Event B -> Prop) x : P x -> emits P (emit x).
Proof. intros Hx h r ev [= <- <-]. repeat constructor. exact Hx. Qed.

Lemma emits_debugLog (P : Event B -> Prop) (this : AwsS3Store B) msg :
  P (DebugLog msg) -> emits P (debugLog this msg).
Proof.
  intros Hx. unfold debugLog.
  destruct (debugEnabled this); [apply emits_emit, Hx | apply emits_ret].
Qed.

Lemma emits_send (P : Event B -> Prop) (this : AwsS3Store B) c :
  (forall result, P (Send c result)) -> emits P (send this c).
Proof.
  intros Hx h r ev. unfold send. destruct (s3Client this) as [client|].
  - intros [= <- <-]. repeat constructor. apply Hx.
  - intros [= <- <-]. constructor.
Qed.

Lemma emits_statSync (P : Event B -> Prop) p :
  (forall result, P (StatSync p result)) -> emits P (statSync host p).
Proof.
  intros Hx h r ev. unfold statSync.
  destruct (fs host p); intros [= <- <-]; repeat constructor; apply Hx.
Qed.

Lemma emits_createReadStream (P : Event B -> Prop) p :
  P (CreateReadStream p) -> emits P (createReadStream host p).
Proof. intros Hx h r ev [= <- <-]. repeat constructor. exact Hx. Qed.

Lemma createReadStream_value p h stream ev :
  createReadStream host p h = (Normal stream, ev) -> stream = streamOf host p.
Proof. unfold createReadStream. intros [= <- <-]. reflexivity. Qed.

Lemma streamOf_path p : streamPath (streamOf host p) = p.
Proof. unfold streamOf. destruct (fs host p); reflexivity. Qed.

Lemma emits_iterate {S} (P : Event B -> Prop) (body : B -> S -> M B S) cs :
  (forall chunk s, emits P (body chunk s)) ->
  forall s, emits P (iterate body cs s).
Proof.
  intros Hbody. induction cs as [|chunk cs IH]; intros s; simpl.
  - apply emits_ret.
  - apply emits_seq; [apply Hbody | exact IH].
Qed.

Lemma emits_forAwait {S} (P : Event B -> Prop) (stream : ReadStream B)
    (body : B -> S -> M B S) s :
  (forall chunk s, emits P (body chunk s)) ->
  (forall e, P (StreamFailed (streamPath stream) e)) ->
  emits P (forAwait stream body s).
Proof.
  intros Hbody Hx. unfold forAwait. apply emits_seq.
  - apply emits_iterate, Hbody.
  - intros s'. destruct (streamError stream) as [e|]; [|apply emits_ret].
    apply emits_seq; [apply emits_emit, Hx | intros; apply emits_throw].
Qed.

Lemma emits_isValidConfig (P : Event B -> Prop) (this : AwsS3Store B) options :
  (forall x, isValidationEvent x = true -> P x) ->
  emits P (isValidConfig this options).
Proof.
  intros HP h r ev Hrun.
  destruct (isValidConfig_cases this options h)
    as [(evv & Hv & Hevv) | (evv & client & base & Hv & _ & _ & _ & Hevv)];
    rewrite Hv in Hrun; injection Hrun as <- <-;
    (eapply Forall_impl; [|exact Hevv]); exact HP.
Qed.

Lemma emits_uploadBuffer (P : Event B -> Prop) (this : AwsS3Store B)
    remote uploadId u :
  (forall c result, isUploadPart c = true -> P (Send c result)) ->
  emits P (uploadBuffer this remote uploadId u).
Proof.
  intros HP. unfold uploadBuffer. apply emits_seq.
  - apply emits_send. intros result. apply HP. reflexivity.
  - intros o. apply emits_ret.
Qed.

Lemma emits_onChunk (P : Event B -> Prop) (this : AwsS3Store B)
    remote uploadId chunk u :
  (forall c result, isUploadPart c = true -> P (Send c result)) ->
  emits P (onChunk this remote uploadId chunk u).
Proof.
  intros HP. unfold onChunk. cbv zeta.
  destruct (partSize <=? _); [|apply emits_ret].
  apply emits_seq; [apply emits_uploadBuffer, HP | intros; apply emits_ret].
Qed.

(** What [save] may add to the history: lines printed, the key written
    into [options], the stat and the read stream of [p], the bucket probe,
    a put of the stream of [p] and the three multipart commands. *)
Lemma emits_save (P : Event B -> Prop) (this : AwsS3Store B) options :
  let p := (template (session options) ++ ".zip")%string in
  (forall x, isValidationEvent x = true -> P x) ->
  (forall msg, P (DebugLog msg)) ->
  (forall line, P (ConsoleLog line)) ->
  (forall key, P (SetRemoteFilePath key)) ->
  (forall result, P (StatSync p result)) ->
  P (CreateReadStream p) ->
  (forall e, P (StreamFailed p e)) ->
  (forall b k ct acc enc result,
      P (Send (PutObjectCommand b k (streamOf host p) ct acc enc) result)) ->
  (forall c result,
      isCreateMultipartUpload c || isUploadPart c
      || isCompleteMultipartUpload c = true -> P (Send c result)) ->
  emits P (save host this options).
Proof.
  intros p Hval Hdbg Hlog Hset Hstat Hopen Hfail Hput Hmulti.
  unfold save.
  apply emits_seq; [apply emits_debugLog, Hdbg|]. intros _.
  apply emits_seq; [apply emits_isValidConfig, Hval|]. intros valid.
  destruct (negb valid); [apply emits_ret|].
  apply emits_seq.
  { unfold remoteKey. destruct (remoteDataPath this);
      [apply emits_ret | apply emits_throw]. }
  intros remote.
  apply emits_seq; [apply emits_emit, Hset|]. intros _.
  apply emits_tryCatch.
  2:{ intros e. apply emits_seq; [apply emits_debugLog, Hdbg|].
      intros. apply emits_throw. }
  unfold transfer. cbv zeta. fold p.
  apply emits_seq; [apply emits_statSync, Hstat|]. intros fileSize.
  apply emits_seq; [|intros; apply emits_debugLog, Hdbg].
  destruct (fileSize <=? _).
  - unfold singleUpload.
    apply emits_seq; [apply emits_emit, Hlog|]. intros _.
    apply (emits_bind P (fun stream => stream = streamOf host p)).
    + apply emits_createReadStream, Hopen.
    + intros h stream ev. apply createReadStream_value.
    + intros stream ->.
      apply emits_seq; [|intros; apply emits_ret].
      apply emits_send. intros result. apply Hput.
  - unfold multipartUpload.
    apply emits_seq; [apply emits_emit, Hlog|]. intros _.
    apply emits_seq.
    { apply emits_send. intros result. apply Hmulti. reflexivity. }
    intros created.
    apply (emits_bind P (fun stream => stream = streamOf host p)).
    + apply emits_createReadStream, Hopen.
    + intros h stream ev. apply createReadStream_value.
    + intros stream ->.
      assert (Hup : forall c result,
                 isUploadPart c = true -> P (Send c result)).
      { intros c result Hc. apply Hmulti. rewrite Hc.
        destruct (isCreateMultipartUpload c); reflexivity. }
      apply emits_seq.
      { apply emits_forAwait.
        - intros chunk u. apply emits_onChunk, Hup.
        - rewrite streamOf_path. exact Hfail. }
      intros u. apply emits_seq.
      { destruct (buffer u); [apply emits_ret|].
        apply emits_uploadBuffer, Hup. }
      intros u'. apply emits_seq; [|intros; apply emits_ret].
      apply emits_send. intros result. apply Hmulti.
      reflexivity.
Qed.

End Safety.

(** ** save: the run *)

Section SaveRun.

Context {B : Type} `{Bytes B}.
Variable host : Host B.

Lemma save_refused (this : AwsS3Store B) (options : Options) h evv :
  isValidConfig this options
    (h ++ debugLine this "[METHOD: save] Triggered.") = (Normal false, evv) ->
  save host this options h =
  (Normal tt, debugLine this "[METHOD: save] Triggered." ++ evv).
Proof.
  intros Hv. unfold save.
  rewrite (bind_step _ _ _ _ _ (debugLog_run this _ h)).
  rewrite (bind_step _ _ _ _ _ Hv). cbn [negb]. unfold ret.
  rewrite app_nil_r. reflexivity.
Qed.

(** The run of [save] on an accepted configuration: the key is written
    into [options], the [try] block runs, and what it throws is thrown
    again after a debug line. *)
Lemma save_transferred (this : AwsS3Store B) (options : Options) h evv
    client base :
  isValidConfig this options
    (h ++ debugLine this "[METHOD: save] Triggered.") = (Normal true, evv) ->
  s3Client this = Some client -> remoteDataPath this = Some base ->
  let dbg := debugLine this "[METHOD: save] Triggered." in
  let key := remoteFilePath (join host) base (session options) in
  save host this options h =
  match
    transfer host this options key
      (((h ++ dbg) ++ evv) ++ [SetRemoteFilePath key])
  with
  | (Normal a, evb) => (Normal a, dbg ++ evv ++ SetRemoteFilePath key :: evb)
  | (Throw e, evb) =>
      (Throw e,
       dbg ++ evv ++ SetRemoteFilePath key :: evb ++
       debugLine this ("[METHOD: save] Error: " ++ message e)%string)
  end.
Proof.
  intros Hv Hc Hbase dbg key. unfold save.
  assert (Hkey : forall h', remoteKey host this options h' = (Normal key, [])).
  { intros h'. unfold remoteKey. rewrite Hbase. reflexivity. }
  rewrite (bind_step _ _ _ _ _ (debugLog_run this _ h)).
  rewrite (bind_step _ _ _ _ _ Hv). cbn [negb].
  rewrite (bind_step _ _ _ _ _ (Hkey _)). rewrite app_nil_r.
  unfold bind at 1. unfold emit at 1. unfold tryCatch.
  fold key. fold dbg.
  destruct (transfer host this options key _) as [[a|e] evb].
  - reflexivity.
  - unfold bind. rewrite debugLog_run. unfold throw. cbn [app].
    rewrite app_nil_r. reflexivity.
Qed.

Lemma afterFailure_none (ev : list (Event B)) :
  failures ev = [] -> afterFailure ev = [].
Proof.
  induction ev as [|x ev IH]; simpl; [reflexivity|].
  destruct (transferFailure x); [discriminate | exact IH].
Qed.

Lemma calls_debugLine (this : AwsS3Store B) msg :
  filter isCall (debugLine this msg) = [].
Proof. unfold debugLine. destruct (debugEnabled this); reflexivity. Qed.

(** C7.  [save] throws exactly when a step of its transfer failed (the
    stat, the put, the multipart create, a part upload, the complete, or
    the read stream), and it throws that step's error; after the failed
    step it sends nothing and touches no file; and no run of [save] ever
    sends an [AbortMultipartUploadCommand]. *)
Theorem save_rethrows (this : AwsS3Store B) (options : Options)
    (h : list (Event B)) :
  let run := save host this options h in
  failures (snd run) =
    match fst run with Throw e => [e] | Normal _ => [] end /\
  filter isCall (afterFailure (snd run)) = [] /\
  Forall (fun x => notAbort x = true) (snd run).
Proof.
  intros run. subst run. split; [|split].
  - destruct (isValidConfig_cases this options
                (h ++ debugLine this "[METHOD: save] Triggered."))
      as [(evv & Hv & Hevv) | (evv & client & base & Hv & Hc & Hbase & _ & Hevv)].
    + rewrite (save_refused this options h evv Hv). cbn [fst snd].
      rewrite failures_app, failures_debugLine.
      apply (failures_validation _ Hevv).
    + rewrite (save_transferred this options h evv client base Hv Hc Hbase).
      cbv zeta.
      destruct (transfer host this options _ _) as [[a|e] evb] eqn:Hrun;
        apply (failStop_transfer host this client _ _ Hc) in Hrun;
        cbn [fst snd];
        rewrite failures_app, failures_debugLine, failures_app,
          (failures_validation _ Hevv); cbn [app failures transferFailure].
      * exact Hrun.
      * rewrite failures_app, failures_debugLine, app_nil_r. apply Hrun.
  - destruct (isValidConfig_cases this options
                (h ++ debugLine this "[METHOD: save] Triggered."))
      as [(evv & Hv & Hevv) | (evv & client & base & Hv & Hc & Hbase & _ & Hevv)].
    + rewrite (save_refused this options h evv Hv). cbn [fst snd].
      rewrite afterFailure_none; [reflexivity|].
      rewrite failures_app, failures_debugLine.
      apply (failures_validation _ Hevv).
    + rewrite (save_transferred this options h evv client base Hv Hc Hbase).
      cbv zeta.
      destruct (transfer host this options _ _) as [[a|e] evb] eqn:Hrun;
        apply (failStop_transfer host this client _ _ Hc) in Hrun;
        cbn [fst snd].
      * rewrite afterFailure_none; [reflexivity|].
        rewrite failures_app, failures_debugLine, failures_app,
          (failures_validation _ Hevv). exact Hrun.
      * destruct Hrun as [Hfail Hlast].
        rewrite afterFailure_app by apply failures_debugLine.
        rewrite afterFailure_app by apply (failures_validation _ Hevv).
        cbn [afterFailure transferFailure].
        rewrite afterFailure_app_failed by (rewrite Hfail; discriminate).
        rewrite Hlast. apply calls_debugLine.
  - apply (emits_save host (fun x => notAbort x = true) this options)
      with (h := h) (r := fst (save host this options h));
      try reflexivity.
    + intros x Hx. destruct x as [| | | | | | |c r]; try reflexivity.
      destruct c; try discriminate; reflexivity.
    + intros c result Hc. destruct c; try discriminate; reflexivity.
    + destruct (save host this options h); reflexivity.
Qed.

End SaveRun.

(** ** The stream loop *)

Section Loop.

Context {B : Type} `{Bytes B} `{!BytesLaws B}.
Variable this : AwsS3Store B.
Variable client : S3Client B.
Hypothesis Hclient : s3Client this = Some client.
Variable remote : string.
Variable uploadId : option string.

Lemma iterate_step {S} (body : B -> S -> M B S) chunk cs s h :
  iterate body (chunk :: cs) s h =
  match body chunk s h with
  | (Normal s', ev) =>
      let (r, ev') := iterate body cs s' (h ++ ev) in (r, ev ++ ev')
  | (Throw e, ev) => (Throw e, ev)
  end.
Proof. reflexivity. Qed.

(** One turn of the loop. *)
Lemma onChunk_run chunk (u : Upload) h :
  onChunk this remote uploadId chunk u h =
  let buf := buffer u ++ [chunk] in
  if partSize <=? blength (bconcat buf) then
    let cmd :=
      UploadPartCommand (bucketName this) remote uploadId (partNumber u)
        (bconcat buf) in
    match client h cmd with
    | inl e => (Throw e, [Send cmd (inl e)])
    | inr o =>
        (Normal {| partNumber := partNumber u + 1;
                   parts := parts u ++ [{| PartNumber := partNumber u;
                                           PartETag := ETag o |}];
                   buffer := [] |},
         [Send cmd (inr o)])
    end
  else
    (Normal {| partNumber := partNumber u; parts := parts u; buffer := buf |},
     []).
Proof.
  unfold onChunk. cbv zeta. cbn [buffer partNumber parts].
  destruct (partSize <=? _); [|reflexivity].
  unfold uploadBuffer, bind. cbn [buffer partNumber parts].
  rewrite (send_run this client _ h Hclient).
  destruct (client h _); reflexivity.
Qed.

Lemma uploadBuffer_run (u : Upload) h :
  uploadBuffer this remote uploadId u h =
  let cmd :=
    UploadPartCommand (bucketName this) remote uploadId (partNumber u)
      (bconcat (buffer u)) in
  match client h cmd with
  | inl e => (Throw e, [Send cmd (inl e)])
  | inr o =>
      (Normal {| partNumber := partNumber u;
                 parts := parts u ++ [{| PartNumber := partNumber u;
                                         PartETag := ETag o |}];
                 buffer := buffer u |},
       [Send cmd (inr o)])
  end.
Proof.
  unfold uploadBuffer, bind. rewrite (send_run this client _ h Hclient).
  destruct (client h _); reflexivity.
Qed.

(** The loop numbers its parts from [partNumber] on, one by one, and
    records them under these numbers. *)
Lemma iterate_numbers cs : forall (u : Upload) h r ev,
  iterate (onChunk this remote uploadId) cs u h = (r, ev) ->
  partNumbers ev = numbersFrom (partNumber u) (List.length (partNumbers ev)) /\
  match r with
  | Normal u' =>
      partNumber u' = partNumber u + N.of_nat (List.length (partNumbers ev)) /\
      map PartNumber (parts u') = map PartNumber (parts u) ++ partNumbers ev
  | Throw _ => True
  end.
Proof.
  induction cs as [|chunk cs IH]; intros u h r ev Hrun.
  - injection Hrun as <- <-. cbn. rewrite N.add_0_r, app_nil_r. auto.
  - rewrite iterate_step, onChunk_run in Hrun. cbv zeta in Hrun.
    destruct (partSize <=? _).
    + destruct (client h _) as [e|o].
      * injection Hrun as <- <-. cbn. auto.
      * destruct (iterate _ cs _ _) as [r' ev'] eqn:Hrest.
        injection Hrun as <- <-.
        apply IH in Hrest. cbn [partNumber parts] in Hrest.
        destruct Hrest as [Hnum Hend].
        change ([?x] ++ ?l) with (x :: l).
        unfold partNumbers in *. cbn [sends uploads map fst List.length numbersFrom].
        split; [f_equal; exact Hnum|].
        destruct r' as [u'|]; [|exact I].
        destruct Hend as [Hn Hp]. split.
        -- rewrite Hn. lia.
        -- rewrite Hp, map_app, <- app_assoc. reflexivity.
    + destruct (iterate _ cs _ _) as [r' ev'] eqn:Hrest.
      injection Hrun as <- <-. apply IH in Hrest. exact Hrest.
Qed.

Lemma partLengths_upload b k u n (body : B) result (ev : list (Event B)) :
  partLengths (Send (UploadPartCommand b k u n body) result :: ev) =
  blength body :: partLengths ev.
Proof. reflexivity. Qed.

Lemma partSize_pos : 0 < partSize.
Proof. reflexivity. Qed.

Lemma total_length_app (a b : list B) :
  total_length (a ++ b) = total_length a + total_length b.
Proof.
  unfold total_length. induction a as [|x a IH]; simpl; [reflexivity|].
  rewrite IH. lia.
Qed.

Lemma total_length_concat (groups : list (list B)) :
  total_length (List.concat groups) =
  fold_right N.add 0 (map total_length groups).
Proof.
  induction groups as [|g groups IH]; simpl; [reflexivity|].
  rewrite total_length_app, IH. reflexivity.
Qed.

(** Every part the loop uploads holds at least [partSize] bytes, and less
    than [partSize] plus the largest chunk; what the loop leaves in the
    buffer is less than [partSize]. *)
Lemma iterate_lengths (c : N) cs : forall (u : Upload) h r ev,
  Forall (fun b => blength b <= c) cs ->
  total_length (buffer u) < partSize ->
  iterate (onChunk this remote uploadId) cs u h = (r, ev) ->
  Forall (fun n => partSize <= n < partSize + c) (partLengths ev) /\
  match r with
  | Normal u' => total_length (buffer u') < partSize
  | Throw _ => True
  end.
Proof.
  induction cs as [|chunk cs IH]; intros u h r ev Hcs Hbuf Hrun.
  - injection Hrun as <- <-. split; [constructor | exact Hbuf].
  - inversion Hcs as [|? ? Hchunk Hcs']; subst.
    rewrite iterate_step, onChunk_run in Hrun. cbv zeta in Hrun.
    assert (Hsize : blength (bconcat (buffer u ++ [chunk])) =
                    total_length (buffer u) + blength chunk).
    { rewrite blength_bconcat, total_length_app. cbn. lia. }
    destruct (partSize <=? _) eqn:Hfull.
    + apply N.leb_le in Hfull.
      assert (Hpart : partSize <= blength (bconcat (buffer u ++ [chunk]))
                      < partSize + c) by lia.
      destruct (client h _) as [e|o].
      * injection Hrun as <- <-. split; [|exact I].
        rewrite partLengths_upload. repeat constructor; apply Hpart.
      * destruct (iterate _ cs _ _) as [r' ev'] eqn:Hrest.
        injection Hrun as <- <-.
        apply IH in Hrest; [|exact Hcs' | exact partSize_pos].
        destruct Hrest as [Hlen Hend]. split; [|exact Hend].
        cbn [app]. rewrite partLengths_upload.
        constructor; [exact Hpart | exact Hlen].
    + apply N.leb_gt in Hfull.
      destruct (iterate _ cs _ _) as [r' ev'] eqn:Hrest.
      injection Hrun as <- <-.
      apply IH in Hrest; [exact Hrest | exact Hcs'|].
      cbn [buffer]. rewrite <- blength_bconcat. exact Hfull.
Qed.

(** The bodies of the parts are the chunks of the stream, in order and
    each once, cut into groups; what is not uploaded yet is in the buffer. *)
Lemma iterate_groups cs : forall (u : Upload) h r ev,
  iterate (onChunk this remote uploadId) cs u h = (r, ev) ->
  exists groups tail,
    map snd (uploads (sends ev)) = map bconcat groups /\
    buffer u ++ cs = List.concat groups ++ tail /\
    match r with
    | Normal u' => tail = buffer u'
    | Throw _ => True
    end.
Proof.
  induction cs as [|chunk cs IH]; intros u h r ev Hrun.
  - injection Hrun as <- <-. exists [], (buffer u). cbn.
    rewrite app_nil_r. auto.
  - rewrite iterate_step, onChunk_run in Hrun. cbv zeta in Hrun.
    destruct (partSize <=? _).
    + destruct (client h _) as [e|o].
      * injection Hrun as <- <-. exists [buffer u ++ [chunk]], cs. cbn.
        rewrite app_nil_r, <- app_assoc. auto.
      * destruct (iterate _ cs _ _) as [r' ev'] eqn:Hrest.
        injection Hrun as <- <-.
        apply IH in Hrest. cbn [buffer] in Hrest.
        destruct Hrest as (groups & tail & Hbodies & Hcut & Hend).
        exists ((buffer u ++ [chunk]) :: groups), tail.
        cbn in Hcut |- *. rewrite Hbodies, Hcut, <- !app_assoc. auto.
    + destruct (iterate _ cs _ _) as [r' ev'] eqn:Hrest.
      injection Hrun as <- <-.
      apply IH in Hrest. cbn [buffer] in Hrest.
      destruct Hrest as (groups & tail & Hbodies & Hcut & Hend).
      exists groups, tail. cbn [app]. rewrite <- Hcut, <- app_assoc. auto.
Qed.

Lemma below_multiple (t T c : N) :
  0 < c -> t mod c = 0 -> T mod c = 0 -> t < T -> t + c <= T.
Proof.
  intros Hc Ht HT Hlt.
  pose proof (N.div_mod t c ltac:(lia)) as Et.
  pose proof (N.div_mod T c ltac:(lia)) as ET.
  rewrite Ht in Et. rewrite HT in ET.
  assert (t / c < T / c) by nia. nia.
Qed.

(** When all chunks but the last have the same length [c], and [c]
    divides [partSize], the loop cuts parts of exactly [partSize] bytes. *)
Lemma iterate_even (c : N) cs : forall (u : Upload) h r ev,
  0 < c -> partSize mod c = 0 ->
  evenlyChunked c cs = true ->
  total_length (buffer u) mod c = 0 ->
  total_length (buffer u) < partSize ->
  (buffer u = [] \/ 0 < total_length (buffer u)) ->
  iterate (onChunk this remote uploadId) cs u h = (r, ev) ->
  Forall (fun n => n = partSize) (partLengths ev) /\
  match r with
  | Normal u' =>
      total_length (buffer u') < partSize /\
      (buffer u' = [] \/ 0 < total_length (buffer u'))
  | Throw _ => True
  end.
Proof.
  induction cs as [|chunk cs IH]; intros u h r ev Hc Hdiv Heven Hmod Hbuf Hpos Hrun.
  - injection Hrun as <- <-. split; [constructor | auto].
  - assert (Hchunk : 0 < blength chunk <= c /\
                     (cs <> [] -> blength chunk = c /\ evenlyChunked c cs = true)).
    { destruct cs as [|chunk' rest].
      - cbn in Heven. apply andb_true_iff in Heven. destruct Heven as [H1 H2].
        apply N.ltb_lt in H1. apply N.leb_le in H2.
        split; [lia | congruence].
      - cbn [evenlyChunked] in Heven. apply andb_true_iff in Heven.
        destruct Heven as [H1 H2]. apply N.eqb_eq in H1.
        split; [lia | auto]. }
    destruct Hchunk as [Hlen Hnext].
    pose proof (below_multiple _ _ _ Hc Hmod Hdiv Hbuf) as Hroom.
    rewrite iterate_step, onChunk_run in Hrun. cbv zeta in Hrun.
    assert (Hsize : blength (bconcat (buffer u ++ [chunk])) =
                    total_length (buffer u) + blength chunk).
    { rewrite blength_bconcat, total_length_app. cbn. lia. }
    destruct (partSize <=? _) eqn:Hfull.
    + apply N.leb_le in Hfull.
      assert (Hexact : blength (bconcat (buffer u ++ [chunk])) = partSize)
        by lia.
      destruct (client h _) as [e|o].
      * injection Hrun as <- <-. split; [|exact I].
        rewrite partLengths_upload. repeat constructor. exact Hexact.
      * destruct (iterate _ cs _ _) as [r' ev'] eqn:Hrest.
        injection Hrun as <- <-. cbn [app]. rewrite partLengths_upload.
        destruct cs as [|chunk' rest].
        -- injection Hrest as <- <-. split.
           ++ repeat constructor. exact Hexact.
           ++ cbn. split; [exact partSize_pos | auto].
        -- destruct Hnext as [_ Heven']; [discriminate|].
           apply IH in Hrest; try assumption.
           ++ destruct Hrest as [Hlens Hend]. split; [|exact Hend].
              constructor; [exact Hexact | exact Hlens].
           ++ apply (N.Div0.mod_0_l c).
           ++ exact partSize_pos.
           ++ left. reflexivity.
    + apply N.leb_gt in Hfull.
      destruct (iterate _ cs _ _) as [r' ev'] eqn:Hrest.
      injection Hrun as <- <-. cbn [app].
      assert (Htotal : total_length (buffer u ++ [chunk]) =
                       total_length (buffer u) + blength chunk).
      { rewrite total_length_app. cbn. lia. }
      destruct cs as [|chunk' rest].
      * injection Hrest as <- <-. split; [constructor|].
        cbn [buffer]. rewrite Htotal. split; [lia | right; lia].
      * destruct Hnext as [Hfullchunk Heven']; [discriminate|].
        apply IH in Hrest; try assumption; cbn [buffer]; rewrite Htotal.
        -- rewrite Hfullchunk.
           rewrite <- N.Div0.add_mod_idemp_r, N.Div0.mod_same, N.add_0_r.
           exact Hmod.
        -- lia.
        -- right. lia.
Qed.

End Loop.

(** ** The anatomy of a transfer *)

Section Anatomy.

Context {B : Type} `{Bytes B}.
Variable host : Host B.
Variable this : AwsS3Store B.
Variable client : S3Client B.
Hypothesis Hclient : s3Client this = Some client.

(** Every way a multipart upload can go. *)
Lemma multipartUpload_inv remote p h r ev :
  multipartUpload host this remote p h = (r, ev) ->
  let create :=
    CreateMultipartUploadCommand (bucketName this) remote
      "private" "application/zip" in
  let line :=
    ConsoleLog ("[S3 Store] Uploading Multiepart File " ++ p)%string in
  exists created rest,
    ev = line :: Send create created :: rest /\
    match created with
    | inl e => r = Throw e /\ rest = []
    | inr o =>
        let upload n body :=
          UploadPartCommand (bucketName this) remote (UploadId o) n body in
        let complete ps :=
          CompleteMultipartUploadCommand (bucketName this) remote
            (UploadId o) ps in
        exists h1 rl evl evt,
          rest = CreateReadStream p :: evl ++ evt /\
          iterate (onChunk this remote (UploadId o))
            (streamChunks (streamOf host p))
            {| partNumber := 1; parts := []; buffer := [] |} h1 = (rl, evl) /\
          match rl with
          | Throw e => r = Throw e /\ evt = []
          | Normal u =>
              match streamError (streamOf host p) with
              | Some e => r = Throw e /\ evt = [StreamFailed p e]
              | None =>
                  match buffer u with
                  | [] =>
                      exists completed,
                        evt = [Send (complete (parts u)) completed] /\
                        r = thrown completed tt
                  | _ :: _ =>
                      exists uploaded,
                        let last :=
                          Send (upload (partNumber u) (bconcat (buffer u)))
                            uploaded in
                        match uploaded with
                        | inl e => r = Throw e /\ evt = [last]
                        | inr o' =>
                            exists completed,
                              evt =
                              [last;
                               Send
                                 (complete
                                    (parts u ++
                                     [{| PartNumber := partNumber u;
                                         PartETag := ETag o' |}]))
                                 completed] /\
                              r = thrown completed tt
                        end
                  end
              end
          end
    end.
Proof.
  intros Hrun create line. unfold multipartUpload in Hrun.
  apply bind_inv in Hrun.
  destruct Hrun as [(e & Hm & _) | (a & ev1 & ev2 & Hm & Hrun & ->)];
    [discriminate Hm|].
  injection Hm as <- <-.
  apply bind_inv in Hrun. rewrite (send_run this client _ _ Hclient) in Hrun.
  fold create in Hrun.
  destruct (client _ create) as [e'|o] eqn:Hcreated.
  { destruct Hrun as [(e & Hm & ->) | (o & ev1 & ev3 & Hm & _)];
      [|discriminate Hm].
    injection Hm as <- <-. exists (inl e'), []. auto. }
  destruct Hrun as [(e & Hm & _) | (o1 & ev1 & ev3 & Hm & Hrun & ->)];
    [discriminate Hm|].
  injection Hm as <- <-.
  exists (inr o), ev3. split; [reflexivity|]. cbv zeta.
  apply bind_inv in Hrun.
  destruct Hrun as [(e & Hm & _) | (stream & ev1 & ev4 & Hm & Hrun & ->)];
    [discriminate Hm|].
  injection Hm as <- <-.
  apply bind_inv in Hrun. unfold forAwait in Hrun.
  destruct Hrun as [(e & Hloop & ->) | (u & ev1 & ev5 & Hloop & Hrun & ->)].
  - apply bind_inv in Hloop.
    destruct Hloop as [(e' & Hloop & [= <-]) | (u & evl & ev6 & Hloop & Herr & ->)].
    + eexists _, (Throw e), ev4, []. rewrite app_nil_r.
      split; [reflexivity|]. split; [exact Hloop | auto].
    + eexists _, (Normal u), evl, ev6. split; [reflexivity|].
      split; [exact Hloop|].
      destruct (streamError (streamOf host p)) as [e'|];
        [|discriminate Herr].
      apply bind_inv in Herr.
      destruct Herr as [(e2 & Hm & _) | ([] & ev7 & ev8 & Hm & Hthrow & ->)];
        [discriminate Hm|].
      injection Hm as <-. injection Hthrow as <- <-.
      rewrite (streamOf_path host). auto.
  - apply bind_inv in Hloop.
    destruct Hloop as [(e' & _ & Hn) | (u0 & evl & ev6 & Hloop & Herr & ->)];
      [discriminate Hn|].
    destruct (streamError (streamOf host p)) as [e'|] eqn:Hstream.
    { apply bind_inv in Herr.
      destruct Herr as [(e2 & Hm & _) | ([] & ev7 & ev8 & Hm & Hthrow & _)];
        [discriminate Hm | discriminate Hthrow]. }
    injection Herr as -> <-. rewrite app_nil_r in *.
    eexists _, (Normal u), evl, ev5. split; [reflexivity|].
    split; [exact Hloop|].
    apply bind_inv in Hrun.
    destruct (buffer u) as [|b0 bs] eqn:Hbuffer.
    + destruct Hrun as [(e & Hm & _) | (u' & ev7 & ev8 & Hm & Hrun & ->)];
        [discriminate Hm|].
      injection Hm as <- <-. cbn [app].
      apply bind_inv in Hrun.
      rewrite (send_run this client _ _ Hclient) in Hrun.
      match type of Hrun with
      | context [client ?hh ?cc] => exists (client hh cc);
                                    destruct (client hh cc) as [e|o2]
      end.
      * destruct Hrun as [(e1 & Hm & ->) | (a & ev9 & ev10 & Hm & _)];
          [|discriminate Hm].
        injection Hm as <- <-. auto.
      * destruct Hrun as [(e1 & Hm & _) | (a & ev9 & ev10 & Hm & Hret & ->)];
          [discriminate Hm|].
        injection Hm as <- <-. injection Hret as <- <-. auto.
    + rewrite <- Hbuffer in *. clear Hbuffer b0 bs.
      rewrite (uploadBuffer_run this client Hclient) in Hrun.
      cbv zeta in Hrun.
      match type of Hrun with
      | context [client ?hh ?cc] => exists (client hh cc);
                                    destruct (client hh cc) as [e|o2]
      end.
      * destruct Hrun as [(e1 & Hm & ->) | (a & ev9 & ev10 & Hm & _)];
          [|discriminate Hm].
        injection Hm as <- <-. auto.
      * destruct Hrun as [(e1 & Hm & _) | (a & ev9 & ev10 & Hm & Hrun & ->)];
          [discriminate Hm|].
        injection Hm as <- <-. cbn [parts] in Hrun.
        apply bind_inv in Hrun.
        rewrite (send_run this client _ _ Hclient) in Hrun.
        match type of Hrun with
        | context [client ?hh ?cc] => exists (client hh cc);
                                      destruct (client hh cc) as [e|o3]
        end.
        -- destruct Hrun as [(e1 & Hm & ->) | (a & ev11 & ev12 & Hm & _)];
             [|discriminate Hm].
           injection Hm as <- <-. auto.
        -- destruct Hrun as [(e1 & Hm & _) | (a & ev11 & ev12 & Hm & Hret & ->)];
             [discriminate Hm|].
           injection Hm as <- <-. injection Hret as <- <-. auto.
Qed.

Lemma singleUpload_run remote p h :
  singleUpload host this remote p h =
  let line := ConsoleLog ("[S3 Store] Uploading Single File " ++ p)%string in
  let cmd :=
    PutObjectCommand (bucketName this) remote (streamOf host p)
      "application/zip" "Enabled" "gzip" in
  let put := client ((h ++ [line]) ++ [CreateReadStream p]) cmd in
  (thrown put tt, [line; CreateReadStream p; Send cmd put]).
Proof.
  unfold singleUpload, bind, log, emit, createReadStream.
  rewrite (send_run this client _ _ Hclient). cbv zeta.
  destruct (client _ _); reflexivity.
Qed.

(** Every way the [try] block of [save] can go. *)
Lemma transfer_inv options remote h r ev :
  transfer host this options remote h = (r, ev) ->
  let p := (template (session options) ++ ".zip")%string in
  match fs host p with
  | None => exists e, r = Throw e /\ ev = [StatSync p (inl e)]
  | Some f =>
      exists evu,
        ev = StatSync p (inr (size f)) :: evu /\
        if size f <=? 1024 * 1024 * 1024 * 4 then
          exists put,
            evu =
            ConsoleLog ("[S3 Store] Uploading Single File " ++ p)%string ::
            CreateReadStream p ::
            Send
              (PutObjectCommand (bucketName this) remote (streamOf host p)
                 "application/zip" "Enabled" "gzip") put ::
            match put with
            | inr _ =>
                debugLine this
                  ("[METHOD: save] File saved. PATH='" ++ remote ++ "'.")%string
            | inl _ => []
            end /\
            r = thrown put tt
        else
          exists h1 evm,
            multipartUpload host this remote p h1 = (r, evm) /\
            evu =
            evm ++
            match r with
            | Normal _ =>
                debugLine this
                  ("[METHOD: save] File saved. PATH='" ++ remote ++ "'.")%string
            | Throw _ => []
            end
  end.
Proof.
  intros Hrun p. unfold transfer in Hrun. cbv zeta in Hrun. fold p in Hrun.
  apply bind_inv in Hrun. unfold statSync in Hrun.
  destruct (fs host p) as [f|].
  2:{ destruct Hrun as [(e & Hm & ->) | (a & ev1 & ev2 & Hm & _)];
        [|discriminate Hm].
      injection Hm as <- <-. eexists. auto. }
  destruct Hrun as [(e & Hm & _) | (a & ev1 & ev2 & Hm & Hrun & ->)];
    [discriminate Hm|].
  injection Hm as <- <-. exists ev2. split; [reflexivity|].
  apply bind_inv in Hrun.
  destruct (size f <=? _).
  - rewrite singleUpload_run in Hrun. cbv zeta in Hrun.
    match type of Hrun with
    | context [client ?hh ?cc] => exists (client hh cc);
                                  destruct (client hh cc) as [e|o]
    end.
    + destruct Hrun as [(e1 & Hm & ->) | (a & ev3 & ev4 & Hm & _)];
        [|discriminate Hm].
      injection Hm as <- <-. auto.
    + destruct Hrun as [(e1 & Hm & _) | (a & ev3 & ev4 & Hm & Hdbg & ->)];
        [discriminate Hm|].
      injection Hm as <- <-. rewrite debugLog_run in Hdbg.
      injection Hdbg as <- <-. auto.
  - destruct Hrun as [(e & Hm & ->) | (a & ev3 & ev4 & Hm & Hdbg & ->)].
    + eexists _, ev2. rewrite app_nil_r. split; [exact Hm | reflexivity].
    + rewrite debugLog_run in Hdbg. injection Hdbg as <- <-.
      destruct a. eexists _, ev3. split; [exact Hm | reflexivity].
Qed.

Lemma archiveSize_app (a b : list (Event B)) :
  archiveSize (a ++ b) =
  match archiveSize a with Some r => Some r | None => archiveSize b end.
Proof.
  induction a as [|x a IH]; simpl; [reflexivity|].
  destruct x; try exact IH; reflexivity.
Qed.

Lemma archiveSize_validation (ev : list (Event B)) :
  Forall (fun x => isValidationEvent x = true) ev -> archiveSize ev = None.
Proof.
  induction 1 as [|x ev Hx _ IH]; [reflexivity|].
  destruct x; try exact IH; discriminate.
Qed.

Lemma archiveSize_debugLine msg : archiveSize (debugLine this msg) = None.
Proof. unfold debugLine. destruct (debugEnabled this); reflexivity. Qed.

End Anatomy.

Section SaveAnatomy.

Context {B : Type} `{Bytes B}.
Variable host : Host B.

(** A run of [save] either stops at the validation, having sent at most
    the bucket probe, or is the [try] block between the validation and a
    last debug line. *)
Lemma save_anatomy (this : AwsS3Store B) (options : Options) h :
  let run := save host this options h in
  (fst run = Normal tt /\ archiveSize (snd run) = None /\
   requests (snd run) = []) \/
  (exists client base h1 evb pre post,
      s3Client this = Some client /\ remoteDataPath this = Some base /\
      transfer host this options
        (remoteFilePath (join host) base (session options)) h1 =
        (fst run, evb) /\
      snd run = pre ++ evb ++ post /\
      requests pre = [] /\ archiveSize pre = None /\ sends post = []).
Proof.
  intros run. subst run.
  destruct (isValidConfig_cases this options
              (h ++ debugLine this "[METHOD: save] Triggered."))
    as [(evv & Hv & Hevv) | (evv & client & base & Hv & Hc & Hbase & _ & Hevv)].
  - left. rewrite (save_refused host this options h evv Hv). cbn [fst snd].
    rewrite archiveSize_app, archiveSize_debugLine,
      (archiveSize_validation _ Hevv).
    rewrite requests_app, requests_debugLine, (requests_validation _ Hevv).
    auto.
  - right.
    rewrite (save_transferred host this options h evv client base Hv Hc Hbase).
    cbv zeta.
    set (key := remoteFilePath (join host) base (session options)).
    set (dbg := debugLine this "[METHOD: save] Triggered.").
    destruct (transfer host this options key _) as [[a|e] evb] eqn:Hrun.
    + exists client, base. eexists _, evb, (dbg ++ evv ++ [SetRemoteFilePath key]), [].
      cbn [fst snd]. repeat split; try assumption.
      * exact Hrun.
      * rewrite app_nil_r, <- !app_assoc. reflexivity.
      * subst dbg. rewrite requests_app, requests_debugLine, requests_app,
          (requests_validation _ Hevv). reflexivity.
      * subst dbg. rewrite archiveSize_app, archiveSize_debugLine,
          archiveSize_app, (archiveSize_validation _ Hevv). reflexivity.
    + exists client, base.
      eexists _, evb, (dbg ++ evv ++ [SetRemoteFilePath key]),
        (debugLine this ("[METHOD: save] Error: " ++ message e)%string).
      cbn [fst snd]. repeat split; try assumption.
      * exact Hrun.
      * rewrite <- !app_assoc. reflexivity.
      * subst dbg. rewrite requests_app, requests_debugLine, requests_app,
          (requests_validation _ Hevv). reflexivity.
      * subst dbg. rewrite archiveSize_app, archiveSize_debugLine,
          archiveSize_app, (archiveSize_validation _ Hevv). reflexivity.
      * apply sends_debugLine.
Qed.

End SaveAnatomy.

(** ** The multipart upload *)

Section Multipart.

Context {B : Type} `{Bytes B}.
Variable host : Host B.
Variable this : AwsS3Store B.
Variable client : S3Client B.
Hypothesis Hclient : s3Client this = Some client.

Lemma iterate_uploads remote uploadId cs (u : Upload) h r ev :
  iterate (onChunk this remote uploadId) cs u h = (r, ev) ->
  Forall (fun x => isUpload x = true) ev.
Proof.
  apply (emits_iterate (fun x => isUpload x = true)).
  intros chunk s. apply emits_onChunk. intros c result Hc. exact Hc.
Qed.

Lemma uploads_sends (ev : list (Event B)) :
  Forall (fun x => isUpload x = true) ev ->
  Forall (fun c => isUploadPart c = true) (sends ev) /\
  requests ev = sends ev.
Proof.
  induction 1 as [|x ev Hx _ [IH1 IH2]]; [split; [constructor | reflexivity]|].
  destruct x as [| | | | | | |c r]; try discriminate.
  cbn in Hx. split; [constructor; assumption|].
  unfold requests in *. cbn [sends filter].
  destruct c; try discriminate. cbn. rewrite IH2. reflexivity.
Qed.

Lemma filter_none {A} (p : A -> bool) (l : list A) :
  Forall (fun c => p c = false) l -> filter p l = [].
Proof.
  induction 1 as [|x l Hx _ IH]; [reflexivity|].
  cbn. rewrite Hx. exact IH.
Qed.

(** The loop has uploaded a part, or holds chunks in its buffer, as soon
    as the stream delivered a chunk. *)
Lemma iterate_progress remote uploadId cs (u : Upload) h u' ev :
  iterate (onChunk this remote uploadId) cs u h = (Normal u', ev) ->
  buffer u ++ cs <> [] -> buffer u' = [] -> sends ev <> [].
Proof.
  intros Hrun Hcs Hempty.
  destruct (iterate_groups this client Hclient remote uploadId cs u h _ _ Hrun)
    as (groups & tail & Hbodies & Hcut & ->).
  rewrite Hempty, app_nil_r in Hcut.
  destruct groups as [|g groups]; [cbn in Hcut; congruence|].
  intros Hnone. rewrite Hnone in Hbodies. discriminate Hbodies.
Qed.

(** The commands of a multipart upload: the create, the part uploads, and
    the complete, which is there exactly when the upload succeeded. *)
Lemma multipartUpload_sends remote p h r ev :
  multipartUpload host this remote p h = (r, ev) ->
  exists create ups tail,
    sends ev = create :: ups ++ tail /\
    isCreateMultipartUpload create = true /\
    Forall (fun c => isUploadPart c = true) ups /\
    match r with
    | Normal _ =>
        (exists complete,
            tail = [complete] /\ isCompleteMultipartUpload complete = true) /\
        (streamChunks (streamOf host p) <> [] -> ups <> [])
    | Throw _ =>
        tail = [] \/
        (exists complete,
            tail = [complete] /\ isCompleteMultipartUpload complete = true)
    end.
Proof.
  intros Hrun.
  destruct (multipartUpload_inv host this client Hclient _ _ _ _ _ Hrun)
    as (created & rest & -> & Hrest).
  cbn [sends]. eexists. destruct created as [e|o].
  { destruct Hrest as [-> ->]. exists [], []. cbn. auto. }
  cbv zeta in Hrest.
  destruct Hrest as (h1 & rl & evl & evt & -> & Hloop & Hend).
  cbn [sends]. rewrite sends_app.
  pose proof (uploads_sends _ (iterate_uploads _ _ _ _ _ _ _ Hloop))
    as [Hups _].
  destruct rl as [u|e].
  2:{ destruct Hend as [-> ->]. exists (sends evl), []. cbn. auto. }
  destruct (streamError (streamOf host p)) as [e|].
  { destruct Hend as [-> ->]. exists (sends evl), []. cbn. auto. }
  destruct (buffer u) as [|b0 bs] eqn:Hbuffer.
  - destruct Hend as (completed & -> & ->). eexists (sends evl), [_].
    cbn [sends]. repeat split; auto.
    destruct completed as [e|o']; cbn.
    + right. eexists. split; reflexivity.
    + split; [eexists; split; reflexivity|].
      intros Hcs. eapply iterate_progress; eauto.
  - cbv zeta in Hend. destruct Hend as (uploaded & Hend).
    destruct uploaded as [e|o'].
    + destruct Hend as [-> ->]. eexists (sends evl ++ [_]), [].
      cbn [sends]. rewrite app_nil_r. repeat split; auto.
      apply Forall_app. split; [exact Hups | repeat constructor].
    + destruct Hend as (completed & -> & ->).
      eexists (sends evl ++ [_]), [_].
      cbn [sends]. rewrite <- app_assoc. cbn [app]. repeat split; auto.
      * apply Forall_app. split; [exact Hups | repeat constructor].
      * destruct completed as [e|o'']; cbn.
        -- right. eexists. split; reflexivity.
        -- split; [eexists; split; reflexivity|].
           intros _ Hnone. apply app_eq_nil in Hnone.
           destruct Hnone as [_ Hnone]. discriminate Hnone.
Qed.

End Multipart.

(** ** save: one strategy or the other *)

Section Strategy.

Context {B : Type} `{Bytes B}.
Variable host : Host B.

Lemma filter_requests (p : Command B -> bool) (ev : list (Event B)) :
  (forall c, p c = true -> isListObjects c = false) ->
  filter p (sends ev) = filter p (requests ev).
Proof.
  intros Hp. unfold requests.
  induction (sends ev) as [|c l IH]; [reflexivity|].
  cbn. destruct (p c) eqn:Hc.
  - rewrite (Hp c Hc). cbn. rewrite Hc, IH. reflexivity.
  - destruct (isListObjects c); cbn; rewrite ?Hc; exact IH.
Qed.

Lemma requests_quiet (ev : list (Event B)) : sends ev = [] -> requests ev = [].
Proof. unfold requests. intros ->. reflexivity. Qed.

Lemma requests_only (l : list (Command B)) :
  Forall (fun c => isListObjects c = false) l ->
  filter (fun c => negb (isListObjects c)) l = l.
Proof.
  induction 1 as [|c l Hc _ IH]; [reflexivity|].
  cbn. rewrite Hc. cbn. rewrite IH. reflexivity.
Qed.

(** The requests of the [try] block, by the size the stat found. *)
Lemma transfer_requests (this : AwsS3Store B) client options remote h r ev :
  s3Client this = Some client ->
  transfer host this options remote h = (r, ev) ->
  let p := (template (session options) ++ ".zip")%string in
  match archiveSize ev with
  | Some (inr fileSize) =>
      if fileSize <=? 4 * GiB then
        exists put, requests ev = [put] /\ isPutObject put = true
      else
        exists create ups tail,
          requests ev = create :: ups ++ tail /\
          isCreateMultipartUpload create = true /\
          Forall (fun c => isUploadPart c = true) ups /\
          match r with
          | Normal _ =>
              (exists complete,
                  tail = [complete] /\
                  isCompleteMultipartUpload complete = true) /\
              (streamChunks (streamOf host p) <> [] -> ups <> [])
          | Throw _ =>
              tail = [] \/
              (exists complete,
                  tail = [complete] /\
                  isCompleteMultipartUpload complete = true)
          end
  | Some (inl _) => requests ev = []
  | None => False
  end.
Proof.
  intros Hc Hrun p.
  pose proof (transfer_inv host this client Hc _ _ _ _ _ Hrun) as Hinv.
  cbv zeta in Hinv. fold p in Hinv.
  destruct (fs host p) as [f|].
  2:{ destruct Hinv as (e & -> & ->). reflexivity. }
  destruct Hinv as (evu & -> & Hevu). cbn [archiveSize].
  change (4 * GiB) with (1024 * 1024 * 1024 * 4).
  destruct (size f <=? _).
  - destruct Hevu as (put & -> & _).
    exists (PutObjectCommand (bucketName this) remote (streamOf host p)
              "application/zip" "Enabled" "gzip").
    split; [|reflexivity].
    unfold requests. cbn [sends filter isListObjects negb].
    destruct put; [reflexivity | rewrite sends_debugLine; reflexivity].
  - destruct Hevu as (h1 & evm & Hmulti & ->).
    destruct (multipartUpload_sends host this client Hc _ _ _ _ _ Hmulti)
      as (create & ups & tail & Hsends & Hcreate & Hups & Htail).
    exists create, ups, tail. repeat split; try assumption.
    unfold requests. cbn [sends]. rewrite sends_app, Hsends.
    replace (sends _) with (@nil (Command B))
      by (destruct r; [rewrite sends_debugLine|]; reflexivity).
    rewrite app_nil_r. apply requests_only.
    constructor; [destruct create; try discriminate; reflexivity|].
    apply Forall_app. split.
    + eapply Forall_impl; [|exact Hups].
      intros c Hu. destruct c; try discriminate; reflexivity.
    + destruct r; [destruct Htail as [(complete & -> & Hcomplete) _]
                  | destruct Htail as [-> | (complete & -> & Hcomplete)]];
        repeat constructor; destruct complete; try discriminate; reflexivity.
Qed.

(** C2.  By the size the stat of the run found: an archive of at most
    4 GiB is sent with exactly one [PutObjectCommand] and no multipart
    command at all; a larger one is never put, a multipart upload is
    created once, and a run that succeeds has sent the create, one or more
    part uploads (as soon as the stream delivers a chunk) and the
    complete, in this order.  A run that does not get to a successful stat
    requests nothing. *)
Theorem save_strategy (this : AwsS3Store B) (options : Options)
    (h : list (Event B)) :
  let run := save host this options h in
  let p := (template (session options) ++ ".zip")%string in
  match archiveSize (snd run) with
  | Some (inr fileSize) =>
      if fileSize <=? 4 * GiB then
        count isPutObject (snd run) = 1%nat /\
        count isMultipart (snd run) = 0%nat
      else
        count isPutObject (snd run) = 0%nat /\
        count isCreateMultipartUpload (snd run) = 1%nat /\
        (fst run = Normal tt ->
         exists create ups complete,
           requests (snd run) = create :: ups ++ [complete] /\
           isCreateMultipartUpload create = true /\
           Forall (fun c => isUploadPart c = true) ups /\
           isCompleteMultipartUpload complete = true /\
           (streamChunks (streamOf host p) <> [] -> ups <> []))
  | _ => requests (snd run) = []
  end.
Proof.
  intros run p.
  destruct (save_anatomy host this options h)
    as [(_ & Hnone & Hreq) |
        (client & base & h1 & evb & pre & post & Hc & _ & Hrun & Hev &
         Hpre & Hsize & Hpost)];
    fold run in Hnone, Hreq || fold run in Hrun, Hev.
  { rewrite Hnone. exact Hreq. }
  pose proof (transfer_requests this client _ _ _ _ _ Hc Hrun) as Hreq.
  cbv zeta in Hreq. fold p in Hreq.
  assert (Hrequests : requests (snd run) = requests evb).
  { rewrite Hev, !requests_app, Hpre, (requests_quiet post Hpost), app_nil_r.
    reflexivity. }
  assert (Hcount : forall q : Command B -> bool,
             (forall c, q c = true -> isListObjects c = false) ->
             count q (snd run) = List.length (filter q (requests evb))).
  { intros q Hq. unfold count. rewrite (filter_requests q _ Hq), Hrequests.
    reflexivity. }
  assert (Hstat : archiveSize (snd run) = archiveSize evb).
  { rewrite Hev, archiveSize_app, Hsize, archiveSize_app.
    destruct (archiveSize evb); [reflexivity | contradiction]. }
  rewrite Hstat.
  destruct (archiveSize evb) as [[e|fileSize]|]; [| |contradiction].
  { rewrite Hrequests. exact Hreq. }
  destruct (fileSize <=? 4 * GiB).
  - destruct Hreq as (put & Hput & Hisput).
    rewrite !Hcount, Hput.
    + cbn. rewrite Hisput. destruct put; try discriminate. auto.
    + intros c Hm. destruct c; try discriminate; reflexivity.
    + intros c Hm. destruct c; try discriminate; reflexivity.
  - destruct Hreq as (create & ups & tail & Hsends & Hcreate & Hups & Htail).
    assert (Hnoput : filter isPutObject (create :: ups ++ tail) = []).
    { apply filter_none. constructor;
        [destruct create; try discriminate; reflexivity|].
      apply Forall_app. split.
      - eapply Forall_impl; [|exact Hups].
        intros c Hu. destruct c; try discriminate; reflexivity.
      - destruct (fst run);
          [destruct Htail as [(complete & -> & Hcomplete) _]
          | destruct Htail as [-> | (complete & -> & Hcomplete)]];
          repeat constructor; destruct complete; try discriminate; reflexivity. }
    assert (Hcreated :
              filter isCreateMultipartUpload (create :: ups ++ tail) = [create]).
    { cbn [filter]. rewrite Hcreate. f_equal. apply filter_none.
      apply Forall_app. split.
      - eapply Forall_impl; [|exact Hups].
        intros c Hu. destruct c; try discriminate; reflexivity.
      - destruct (fst run);
          [destruct Htail as [(complete & -> & Hcomplete) _]
          | destruct Htail as [-> | (complete & -> & Hcomplete)]];
          repeat constructor; destruct complete; try discriminate; reflexivity. }
    rewrite !Hcount, Hsends, Hnoput, Hcreated.
    + split; [reflexivity|]. split; [reflexivity|].
      intros Hdone. rewrite Hdone in Htail.
      destruct Htail as [(complete & -> & Hcomplete) Hsome].
      exists create, ups, complete. rewrite Hrequests, Hsends. auto.
    + intros c Hm. destruct c; try discriminate; reflexivity.
    + intros c Hm. destruct c; try discriminate; reflexivity.
Qed.

End Strategy.

(** ** The parts of a multipart upload *)

Section Parts.

Context {B : Type} `{Bytes B}.
Variable host : Host B.

Lemma uploads_app (a b : list (Command B)) :
  uploads (a ++ b) = uploads a ++ uploads b.
Proof.
  induction a as [|c a IH]; [reflexivity|].
  destruct c; cbn; rewrite ?IH; reflexivity.
Qed.

Lemma completions_app (a b : list (Command B)) :
  completions (a ++ b) = completions a ++ completions b.
Proof.
  induction a as [|c a IH]; [reflexivity|].
  destruct c; cbn; rewrite ?IH; reflexivity.
Qed.

Lemma uploads_requests (ev : list (Event B)) :
  uploads (sends ev) = uploads (requests ev).
Proof.
  unfold requests. induction (sends ev) as [|c l IH]; [reflexivity|].
  destruct c; cbn; rewrite ?IH; reflexivity.
Qed.

Lemma completions_requests (ev : list (Event B)) :
  completions (sends ev) = completions (requests ev).
Proof.
  unfold requests. induction (sends ev) as [|c l IH]; [reflexivity|].
  destruct c; cbn; rewrite ?IH; reflexivity.
Qed.

Lemma completions_uploads (l : list (Command B)) :
  Forall (fun c => isUploadPart c = true) l -> completions l = [].
Proof.
  induction 1 as [|c l Hc _ IH]; [reflexivity|].
  destruct c; try discriminate. exact IH.
Qed.

(** The parts of a multipart upload: those of the stream loop and, when
    the loop left chunks in the buffer, one more with the number the loop
    ended on; a successful upload completes with the numbers of the parts
    recorded. *)
Lemma multipartUpload_parts (this : AwsS3Store B) client remote p h r ev :
  s3Client this = Some client ->
  multipartUpload host this remote p h = (r, ev) ->
  (uploads (sends ev) = [] /\ completions (sends ev) = [] /\
   exists e, r = Throw e) \/
  (exists uploadId h1 rl evl last,
      iterate (onChunk this remote uploadId) (streamChunks (streamOf host p))
        {| partNumber := 1; parts := []; buffer := [] |} h1 = (rl, evl) /\
      uploads (sends ev) = uploads (sends evl) ++ last /\
      match rl with
      | Throw e => last = [] /\ r = Throw e
      | Normal u =>
          (last = [] \/
           (buffer u <> [] /\
            last = [(partNumber u, bconcat (buffer u))])) /\
          (r = Normal tt ->
           streamError (streamOf host p) = None /\
           (buffer u = [] \/ last <> []) /\
           exists ps,
             completions (sends ev) = [ps] /\
             map PartNumber ps = map PartNumber (parts u) ++ map fst last)
      end).
Proof.
  intros Hc Hrun.
  destruct (multipartUpload_inv host this client Hc _ _ _ _ _ Hrun)
    as (created & rest & -> & Hrest).
  destruct created as [e|o].
  { destruct Hrest as [-> ->]. left. cbn. eauto. }
  cbv zeta in Hrest.
  destruct Hrest as (h1 & rl & evl & evt & -> & Hloop & Hend).
  right. exists (UploadId o), h1, rl, evl.
  pose proof (uploads_sends _ (iterate_uploads this _ _ _ _ _ _ _ Hloop))
    as [Hups _].
  assert (Hsplit : forall tail : list (Event B),
             uploads (sends (ConsoleLog
                               ("[S3 Store] Uploading Multiepart File " ++ p)%string
                             :: Send (CreateMultipartUploadCommand
                                        (bucketName this) remote "private"
                                        "application/zip") (inr o)
                             :: CreateReadStream p :: evl ++ tail)) =
             uploads (sends evl) ++ uploads (sends tail) /\
             completions (sends (ConsoleLog
                               ("[S3 Store] Uploading Multiepart File " ++ p)%string
                             :: Send (CreateMultipartUploadCommand
                                        (bucketName this) remote "private"
                                        "application/zip") (inr o)
                             :: CreateReadStream p :: evl ++ tail)) =
             completions (sends tail)).
  { intros tail. cbn [sends uploads completions].
    rewrite sends_app, uploads_app, completions_app,
      (completions_uploads _ Hups). auto. }
  destruct rl as [u|e].
  2:{ destruct Hend as [-> ->]. exists []. repeat split; auto.
      rewrite (proj1 (Hsplit _)); reflexivity. }
  destruct (streamError (streamOf host p)) as [e|].
  { destruct Hend as [-> ->]. exists []. split; [exact Hloop|].
    split; [rewrite (proj1 (Hsplit _)); reflexivity|].
    split; [auto | discriminate]. }
  destruct (buffer u) as [|b0 bs] eqn:Hbuffer.
  - destruct Hend as (completed & -> & ->). exists [].
    split; [exact Hloop|]. split; [rewrite (proj1 (Hsplit _)); reflexivity|].
    split; [auto|]. intros _. repeat split; auto.
    eexists. split; [rewrite (proj2 (Hsplit _)); reflexivity|].
    rewrite app_nil_r. reflexivity.
  - rewrite <- Hbuffer in *.
    assert (Hsome : buffer u <> []) by (rewrite Hbuffer; discriminate).
    clear Hbuffer b0 bs. cbv zeta in Hend.
    destruct Hend as (uploaded & Hend).
    exists [(partNumber u, bconcat (buffer u))]. split; [exact Hloop|].
    destruct uploaded as [e|o'].
    + destruct Hend as [-> ->]. split; [rewrite (proj1 (Hsplit _)); reflexivity|].
      split; [auto | discriminate].
    + destruct Hend as (completed & -> & ->).
      split; [rewrite (proj1 (Hsplit _)); reflexivity|]. split; [auto|].
      intros _. repeat split.
      * right. discriminate.
      * eexists. split; [rewrite (proj2 (Hsplit _)); reflexivity|].
        rewrite map_app. reflexivity.
Qed.

(** The parts and the completion of a run of [save] are those of its
    multipart upload, which it makes exactly for an archive over 4 GiB. *)
Lemma save_multipart (this : AwsS3Store B) (options : Options) h :
  let run := save host this options h in
  let p := (template (session options) ++ ".zip")%string in
  (uploads (sends (snd run)) = [] /\ completions (sends (snd run)) = [] /\
   forall fileSize,
     archiveSize (snd run) = Some (inr fileSize) -> fileSize <= 4 * GiB) \/
  (exists client f remote h1 evm,
      s3Client this = Some client /\ fs host p = Some f /\
      4 * GiB < size f /\
      archiveSize (snd run) = Some (inr (size f)) /\
      multipartUpload host this remote p h1 = (fst run, evm) /\
      uploads (sends (snd run)) = uploads (sends evm) /\
      completions (sends (snd run)) = completions (sends evm)).
Proof.
  intros run p.
  destruct (save_anatomy host this options h)
    as [(_ & Hnone & Hreq) |
        (client & base & h1 & evb & pre & post & Hc & _ & Hrun & Hev &
         Hpre & Hsize & Hpost)];
    fold run in Hnone, Hreq || fold run in Hrun, Hev.
  { left. rewrite uploads_requests, completions_requests, Hreq, Hnone.
    repeat split. discriminate. }
  assert (Hrequests : requests (snd run) = requests evb).
  { rewrite Hev, !requests_app, Hpre, (requests_quiet post Hpost), app_nil_r.
    reflexivity. }
  pose proof (transfer_inv host this client Hc _ _ _ _ _ Hrun) as Hinv.
  cbv zeta in Hinv. fold p in Hinv.
  rewrite uploads_requests, completions_requests, Hrequests,
    <- uploads_requests, <- completions_requests.
  assert (Hstat : archiveSize (snd run) = archiveSize evb \/
                  archiveSize evb = None).
  { rewrite Hev, archiveSize_app, Hsize, archiveSize_app.
    destruct (archiveSize evb); auto. }
  destruct (fs host p) as [f|] eqn:Hf.
  2:{ destruct Hinv as (e & _ & ->). left. cbn in Hstat |- *.
      destruct Hstat as [-> | Hstat]; [|discriminate Hstat].
      repeat split. discriminate. }
  destruct Hinv as (evu & -> & Hevu). cbn [archiveSize] in Hstat.
  destruct Hstat as [Hstat | Hstat]; [|discriminate Hstat].
  change (1024 * 1024 * 1024 * 4) with (4 * GiB) in Hevu.
  destruct (size f <=? 4 * GiB) eqn:Hsmall.
  - apply N.leb_le in Hsmall. left.
    destruct Hevu as (put & -> & _). cbn [sends uploads completions].
    replace (sends _) with (@nil (Command B))
      by (destruct put; [|rewrite sends_debugLine]; reflexivity).
    repeat split. rewrite Hstat. intros fileSize [= <-]. exact Hsmall.
  - apply N.leb_gt in Hsmall. right.
    destruct Hevu as (h2 & evm & Hmulti & ->).
    exists client, f, (remoteFilePath (join host) base (session options)),
      h2, evm.
    repeat split; try assumption.
    + cbn [sends]. rewrite sends_app, uploads_app.
      replace (sends (match fst run with Normal _ => _ | Throw _ => _ end))
        with (@nil (Command B))
        by (destruct (fst run); [rewrite sends_debugLine|]; reflexivity).
      cbn. rewrite app_nil_r. reflexivity.
    + cbn [sends]. rewrite sends_app, completions_app.
      replace (sends (match fst run with Normal _ => _ | Throw _ => _ end))
        with (@nil (Command B))
        by (destruct (fst run); [rewrite sends_debugLine|]; reflexivity).
      cbn. rewrite app_nil_r. reflexivity.
Qed.

End Parts.

Section Counting.

Context {B : Type} `{Bytes B} `{!BytesLaws B}.
Variable host : Host B.
Variable this : AwsS3Store B.
Variable client : S3Client B.
Hypothesis Hclient : s3Client this = Some client.

Lemma numbersFrom_snoc (first : N) (n : nat) :
  numbersFrom first n ++ [first + N.of_nat n] = numbersFrom first (S n).
Proof.
  revert first. induction n as [|n IH]; intros first.
  - cbn. rewrite N.add_0_r. reflexivity.
  - change (numbersFrom first (S (S n)))
      with (first :: numbersFrom (first + 1) (S n)).
    change (numbersFrom first (S n)) with (first :: numbersFrom (first + 1) n).
    cbn [app]. f_equal. rewrite <- IH. f_equal. f_equal. lia.
Qed.

Lemma partNumbers_uploads (ev : list (Event B)) :
  partNumbers ev = map fst (uploads (sends ev)).
Proof. reflexivity. Qed.

(** The parts of a multipart upload are numbered 1, 2, ... in the order
    they are sent, and a successful upload completes with this list. *)
Lemma multipartUpload_numbers remote p h r ev :
  multipartUpload host this remote p h = (r, ev) ->
  let n := List.length (uploads (sends ev)) in
  map fst (uploads (sends ev)) = numbersFrom 1 n /\
  (r = Normal tt ->
   exists ps,
     completions (sends ev) = [ps] /\ map PartNumber ps = numbersFrom 1 n).
Proof.
  intros Hrun n. subst n.
  destruct (multipartUpload_parts host this client _ _ _ _ _ Hclient Hrun)
    as [(-> & _ & e & ->) |
        (uploadId & h1 & rl & evl & last & Hloop & -> & Hend)].
  { split; [reflexivity | discriminate]. }
  destruct (iterate_numbers this client Hclient _ _ _ _ _ _ _ Hloop)
    as [Hnum Hstate].
  rewrite partNumbers_uploads in Hnum, Hstate.
  cbn [partNumber parts map app] in Hnum, Hstate.
  rewrite length_map in Hnum, Hstate.
  rewrite map_app, length_app.
  destruct rl as [u|e].
  2:{ destruct Hend as [-> ->]. cbn. rewrite app_nil_r, Nat.add_0_r.
      split; [exact Hnum | discriminate]. }
  destruct Hstate as [Hnext Hparts].
  destruct Hend as [[-> | [Hsome ->]] Hdone].
  - cbn. rewrite app_nil_r, Nat.add_0_r. split; [exact Hnum|].
    intros Hr. destruct (Hdone Hr) as (_ & _ & ps & Hps & Hmap).
    exists ps. split; [exact Hps|].
    rewrite Hmap, Hparts, app_nil_r. exact Hnum.
  - cbn [map fst List.length].
    assert (Hall : map fst (uploads (sends evl)) ++ [partNumber u] =
                   numbersFrom 1 (List.length (uploads (sends evl)) + 1)).
    { rewrite Nat.add_1_r, <- numbersFrom_snoc, <- Hnext, <- Hnum.
      reflexivity. }
    split; [exact Hall|].
    intros Hr. destruct (Hdone Hr) as (_ & _ & ps & Hps & Hmap).
    exists ps. split; [exact Hps|].
    rewrite Hmap, Hparts. exact Hall.
Qed.

Lemma ceilDiv_full (k T : N) : 0 < T -> ceilDiv (k * T) T = k.
Proof.
  intros HT. unfold ceilDiv. symmetry.
  apply (N.div_unique _ _ _ (T - 1)); lia.
Qed.

Lemma ceilDiv_partial (k t T : N) :
  0 < t < T -> ceilDiv (k * T + t) T = k + 1.
Proof.
  intros Ht. unfold ceilDiv. symmetry.
  apply (N.div_unique _ _ _ (t - 1)); lia.
Qed.

Lemma sum_constant (T : N) (l : list N) :
  Forall (fun n => n = T) l ->
  fold_right N.add 0 l = N.of_nat (List.length l) * T.
Proof.
  induction 1 as [|n l Hn _ IH]; [reflexivity|].
  cbn [fold_right List.length]. rewrite IH, Hn. lia.
Qed.

(** The bytes of the chunks are those of the parts and of the buffer. *)
Lemma iterate_conserves remote uploadId cs (u u' : Upload) h ev :
  iterate (onChunk this remote uploadId) cs u h = (Normal u', ev) ->
  total_length (buffer u) + total_length cs =
  fold_right N.add 0 (partLengths ev) + total_length (buffer u').
Proof.
  intros Hrun.
  destruct (iterate_groups this client Hclient _ _ _ _ _ _ _ Hrun)
    as (groups & tail & Hbodies & Hcut & ->).
  rewrite <- total_length_app, Hcut, total_length_app, total_length_concat.
  f_equal. f_equal. unfold partLengths.
  rewrite <- (map_map snd blength), Hbodies, map_map.
  apply map_ext. intros g. symmetry. apply blength_bconcat.
Qed.

(** With chunks of one length that divides [partSize], a successful
    multipart upload sends [ceil(S / partSize)] parts for a stream of [S]
    bytes. *)
Lemma multipartUpload_count (c : N) remote p h ev :
  multipartUpload host this remote p h = (Normal tt, ev) ->
  0 < c -> partSize mod c = 0 ->
  evenlyChunked c (streamChunks (streamOf host p)) = true ->
  N.of_nat (List.length (uploads (sends ev))) =
  ceilDiv (total_length (streamChunks (streamOf host p))) partSize.
Proof.
  intros Hrun Hc Hdiv Heven.
  destruct (multipartUpload_parts host this client _ _ _ _ _ Hclient Hrun)
    as [(_ & _ & e & He) |
        (uploadId & h1 & rl & evl & last & Hloop & -> & Hend)];
    [discriminate He|].
  destruct rl as [u|e]; [|destruct Hend as [_ He]; discriminate He].
  destruct Hend as [Hlast Hdone].
  destruct (Hdone eq_refl) as (_ & Hrem & _).
  pose proof (iterate_conserves _ _ _ _ _ _ _ Hloop) as Hsum.
  cbn [buffer total_length fold_right] in Hsum. rewrite N.add_0_l in Hsum.
  destruct (iterate_even this client Hclient _ _ c _
              {| partNumber := 1; parts := []; buffer := [] |} _ _ _
              Hc Hdiv Heven
              (N.Div0.mod_0_l c) partSize_pos (or_introl eq_refl) Hloop)
    as [Hexact [Hbelow Hpos]].
  rewrite (sum_constant _ _ Hexact) in Hsum.
  unfold partLengths in Hsum. rewrite length_map in Hsum.
  fold (total_length (streamChunks (streamOf host p))) in Hsum.
  rewrite Hsum, length_app.
  destruct Hlast as [-> | [Hsome ->]].
  - destruct Hrem as [Hempty | Habs]; [|congruence].
    rewrite Hempty. cbn [total_length fold_right List.length].
    rewrite N.add_0_r, Nat.add_0_r. symmetry. apply ceilDiv_full.
    exact partSize_pos.
  - destruct Hpos as [Hempty | Hpos]; [congruence|].
    cbn [List.length]. rewrite ceilDiv_partial by lia. lia.
Qed.

End Counting.

(** ** save: the parts of a large archive *)

Section LargeArchives.

Context {B : Type} `{Bytes B} `{!BytesLaws B}.
Variable host : Host B.

Lemma streamOf_chunks p (f : File B) :
  fs host p = Some f -> streamChunks (streamOf host p) = chunks f.
Proof. intros Hf. unfold streamOf. rewrite Hf. reflexivity. Qed.

(** How many parts a successful run of [save] uploads for an archive
    over 4 GiB that its stream delivers whole and in even chunks. *)
Lemma large_archive_part_count (this : AwsS3Store B) (options : Options)
    (h : list (Event B)) (f : File B) (c : N) :
  let run := save host this options h in
  let p := (template (session options) ++ ".zip")%string in
  fs host p = Some f -> 4 * GiB < size f ->
  archiveSize (snd run) = Some (inr (size f)) ->
  fst run = Normal tt ->
  total_length (chunks f) = size f -> 0 < c -> partSize mod c = 0 ->
  evenlyChunked c (chunks f) = true ->
  N.of_nat (List.length (partNumbers (snd run))) = ceilDiv (size f) partSize.
Proof.
  intros run p Hf Hlarge Hstat Hr Htotal Hpos Hdiv Heven. subst p.
  destruct (save_multipart host this options h)
    as [(_ & _ & Hsmall) |
        (client & f' & remote & h1 & evm & Hc & Hf' & _ & _ & Hmulti &
         Hups & _)];
    fold run in Hsmall || fold run in Hmulti, Hups.
  { specialize (Hsmall _ Hstat). lia. }
  rewrite Hf in Hf'. injection Hf' as <-.
  unfold partNumbers. rewrite length_map, Hups.
  rewrite Hr in Hmulti. rewrite <- Htotal, <- (streamOf_chunks _ f Hf).
  apply (multipartUpload_count host this client Hc c _ _ _ _ Hmulti Hpos Hdiv).
  rewrite (streamOf_chunks _ f Hf). exact Heven.
Qed.

(** C1 (as amended).  In a run of [save] that found its archive to be
    larger than 4 GiB, the part numbers given to [UploadPartCommand] are
    1, 2, ..., n in this order; when the run succeeds, the list given to
    [CompleteMultipartUploadCommand] carries the same numbers in the same
    ascending order, and n is [ceil(S / partSize)] as soon as the read
    stream delivers the S bytes of the archive in chunks of one length
    that divides [partSize] (the last chunk may be shorter). *)
Theorem multipart_parts_numbered (this : AwsS3Store B) (options : Options)
    (h : list (Event B)) (f : File B) (c : N) :
  let run := save host this options h in
  let p := (template (session options) ++ ".zip")%string in
  let n := List.length (partNumbers (snd run)) in
  fs host p = Some f -> 4 * GiB < size f ->
  archiveSize (snd run) = Some (inr (size f)) ->
  partNumbers (snd run) = numbersFrom 1 n /\
  (fst run = Normal tt ->
   (exists ps,
       completions (sends (snd run)) = [ps] /\
       map PartNumber ps = numbersFrom 1 n) /\
   (total_length (chunks f) = size f -> 0 < c -> partSize mod c = 0 ->
    evenlyChunked c (chunks f) = true ->
    N.of_nat n = ceilDiv (size f) partSize)).
Proof.
  intros run p n Hf Hlarge Hstat. subst n p.
  destruct (save_multipart host this options h)
    as [(_ & _ & Hsmall) |
        (client & f' & remote & h1 & evm & Hc & Hf' & _ & _ & Hmulti &
         Hups & Hcompl)];
    fold run in Hsmall || fold run in Hmulti, Hups, Hcompl.
  { specialize (Hsmall _ Hstat). lia. }
  destruct (multipartUpload_numbers host this client Hc _ _ _ _ _ Hmulti)
    as [Hnum Hdone].
  unfold partNumbers. rewrite length_map, Hcompl, Hups.
  split; [exact Hnum|]. intros Hr. split; [exact (Hdone Hr)|].
  intros Htotal Hpos Hdiv Heven.
  pose proof (large_archive_part_count this options h f c Hf Hlarge Hstat Hr
                Htotal Hpos Hdiv Heven) as Hcount.
  unfold partNumbers in Hcount. rewrite length_map in Hcount.
  fold run in Hcount. rewrite Hups in Hcount. exact Hcount.
Qed.

(** C10.  The parts of a run of [save] are those its stream loop uploaded,
    each of at least [partSize] bytes and less than [partSize] plus the
    longest chunk, followed by at most one more part, the rest of the
    stream, of less than [partSize] bytes. *)
Theorem loop_parts_reach_partSize (this : AwsS3Store B) (options : Options)
    (h : list (Event B)) (c : N) :
  let run := save host this options h in
  let p := (template (session options) ++ ".zip")%string in
  Forall (fun b => blength b <= c) (streamChunks (streamOf host p)) ->
  partLengths (snd run) = [] \/
  (exists remote uploadId h1 rl evl rest,
      iterate (onChunk this remote uploadId) (streamChunks (streamOf host p))
        {| partNumber := 1; parts := []; buffer := [] |} h1 = (rl, evl) /\
      partLengths (snd run) = partLengths evl ++ rest /\
      Forall (fun n => partSize <= n < partSize + c) (partLengths evl) /\
      (rest = [] \/ exists n, rest = [n] /\ n < partSize)).
Proof.
  intros run p Hchunks. subst p.
  destruct (save_multipart host this options h)
    as [(Hnone & _ & _) |
        (client & f & remote & h1 & evm & Hc & _ & _ & _ & Hmulti &
         Hups & _)];
    fold run in Hnone || fold run in Hmulti, Hups.
  { left. unfold partLengths. rewrite Hnone. reflexivity. }
  unfold partLengths at 1 2. rewrite Hups.
  destruct (multipartUpload_parts host this client _ _ _ _ _ Hc Hmulti)
    as [(-> & _) | (uploadId & h2 & rl & evl & last & Hloop & -> & Hend)];
    [left; reflexivity|].
  right. exists remote, uploadId, h2, rl, evl.
  exists (map (fun nb => blength (snd nb)) last).
  split; [exact Hloop|]. split; [rewrite map_app; reflexivity|].
  destruct (iterate_lengths this client Hc _ _ c _
              {| partNumber := 1; parts := []; buffer := [] |} _ _ _
              Hchunks partSize_pos Hloop) as [Hlens Hbuf].
  split; [exact Hlens|].
  destruct rl as [u|e]; [|destruct Hend as [-> _]; left; reflexivity].
  destruct Hend as [[-> | [_ ->]] _]; [left; reflexivity|].
  right. eexists. split; [reflexivity|].
  cbn [snd]. rewrite blength_bconcat. exact Hbuf.
Qed.

(** C9.  [save] never looks at [options.path]: two runs that differ in it
    only are the same run.  The only local file a run stats or reads is
    the session's identifier followed by [.zip], the body it puts is the
    read stream of this file, and the bodies of the parts it uploads are
    the chunks of this stream, in order and each once, all of them when
    the multipart upload succeeds. *)
Theorem save_reads_session_archive (this : AwsS3Store B)
    (id path1 path2 : option string) (h : list (Event B)) :
  let p := (template id ++ ".zip")%string in
  let run := save host this {| session := id; path := path1 |} h in
  save host this {| session := id; path := path2 |} h = run /\
  Forall (readsOnly host p) (snd run) /\
  exists groups tail,
    map snd (uploads (sends (snd run))) = map bconcat groups /\
    streamChunks (streamOf host p) = List.concat groups ++ tail /\
    (fst run = Normal tt ->
     forall fileSize,
       archiveSize (snd run) = Some (inr fileSize) -> 4 * GiB < fileSize ->
       tail = []).
Proof.
  intros p run. split; [reflexivity|]. subst p. split.
  { apply (emits_save host
             (readsOnly host (template id ++ ".zip")%string) this
             {| session := id; path := path1 |})
      with (h := h) (r := fst run); try (intros; exact I);
      try (intros; reflexivity).
    - intros x Hx. destruct x as [| | | | | | |c r]; try exact I;
        try discriminate.
      destruct c; try discriminate. exact I.
    - intros c result Hc. destruct c; try discriminate; exact I.
    - subst run. destruct (save host this _ h); reflexivity. }
  destruct (save_multipart host this {| session := id; path := path1 |} h)
    as [(Hnone & _ & Hsmall) |
        (client & f & remote & h1 & evm & Hc & _ & _ & _ & Hmulti &
         Hups & _)];
    fold run in Hnone, Hsmall || fold run in Hmulti, Hups;
    cbn [session] in *.
  { exists [], (streamChunks (streamOf host (template id ++ ".zip")%string)).
    rewrite Hnone. repeat split.
    intros _ fileSize Hstat Hlarge. specialize (Hsmall _ Hstat). lia. }
  rewrite Hups.
  destruct (multipartUpload_parts host this client _ _ _ _ _ Hc Hmulti)
    as [(-> & _ & e & He) |
        (uploadId & h2 & rl & evl & last & Hloop & -> & Hend)].
  { exists [], (streamChunks (streamOf host (template id ++ ".zip")%string)).
    repeat split. intros Hr. rewrite He in Hr. discriminate Hr. }
  destruct (iterate_groups this client Hc _ _ _ _ _ _ _ Hloop)
    as (groups & tail & Hbodies & Hcut & Htail).
  cbn [buffer app] in Hcut. rewrite map_app, Hbodies.
  destruct rl as [u|e].
  2:{ destruct Hend as [-> He]. exists groups, tail. rewrite app_nil_r.
      repeat split; [exact Hcut|]. intros Hr. rewrite He in Hr.
      discriminate Hr. }
  subst tail. destruct Hend as [[-> | [_ ->]] Hdone].
  - exists groups, (buffer u). rewrite app_nil_r.
    repeat split; [exact Hcut|]. intros Hr _ _ _.
    destruct (Hdone Hr) as (_ & [Hempty | Habs] & _); congruence.
  - exists (groups ++ [buffer u]), []. rewrite map_app, concat_app.
    cbn [map snd List.concat]. rewrite !app_nil_r. auto.
Qed.

End LargeArchives.

(** ** The two kinds of buffers keep the law of [Buffer.concat] *)

#[export] Instance ExtentLaws : BytesLaws N.
Proof. constructor. intros l. reflexivity. Qed.

#[export] Instance ByteBufferLaws : BytesLaws (list Byte.byte).
Proof.
  constructor. intros l. unfold total_length. cbn [blength bconcat ByteBuffer].
  induction l as [|b l IH]; [reflexivity|].
  cbn [List.concat fold_right]. rewrite length_app, Nat2N.inj_add, IH.
  reflexivity.
Qed.

(** ** save completes when nothing fails *)

Section Completion.

Context {B : Type} `{Bytes B}.
Variable host : Host B.

Lemma succeeds_ret {A} (a : A) : succeeds (ret (B := B) a).
Proof. intros h. exists a, []. reflexivity. Qed.

Lemma succeeds_bind {A C} (m : M B A) (k : A -> M B C) :
  succeeds m -> (forall a, succeeds (k a)) -> succeeds (bind m k).
Proof.
  intros Hm Hk h. destruct (Hm h) as (a & ev & Hrun).
  destruct (Hk a (h ++ ev)) as (b & ev' & Hrun').
  exists b, (ev ++ ev'). apply (bind_normal _ _ _ _ _ _ _ Hrun Hrun').
Qed.

Lemma succeeds_emit (x : Event B) : succeeds (emit x).
Proof. intros h. exists tt, [x]. reflexivity. Qed.

Lemma succeeds_debugLog (this : AwsS3Store B) msg : succeeds (debugLog this msg).
Proof. intros h. eexists _, _. apply debugLog_run. Qed.

Lemma succeeds_send (this : AwsS3Store B) client c :
  s3Client this = Some client -> accepting client -> succeeds (send this c).
Proof.
  intros Hc Hacc h. rewrite (send_run this client c h Hc).
  destruct (Hacc h c) as [o ->]. eexists _, _. reflexivity.
Qed.

Lemma succeeds_iterate {S} (body : B -> S -> M B S) cs :
  (forall chunk s, succeeds (body chunk s)) ->
  forall s, succeeds (iterate body cs s).
Proof.
  intros Hbody. induction cs as [|chunk cs IH]; intros s; cbn [iterate].
  - apply succeeds_ret.
  - apply succeeds_bind; [apply Hbody | exact IH].
Qed.

Lemma succeeds_uploadBuffer (this : AwsS3Store B) client remote uploadId u :
  s3Client this = Some client -> accepting client ->
  succeeds (uploadBuffer this remote uploadId u).
Proof.
  intros Hc Hacc. unfold uploadBuffer. apply succeeds_bind.
  - apply (succeeds_send this client); assumption.
  - intros o. apply succeeds_ret.
Qed.

Lemma succeeds_onChunk (this : AwsS3Store B) client remote uploadId chunk u :
  s3Client this = Some client -> accepting client ->
  succeeds (onChunk this remote uploadId chunk u).
Proof.
  intros Hc Hacc. unfold onChunk. cbv zeta.
  destruct (partSize <=? _); [|apply succeeds_ret].
  apply succeeds_bind.
  - apply (succeeds_uploadBuffer this client); assumption.
  - intros u'. apply succeeds_ret.
Qed.

(** With a client that accepts every command and a file that is there and
    can be read, the [try] block of [save] completes. *)
Lemma succeeds_transfer (this : AwsS3Store B) client options remote f :
  s3Client this = Some client -> accepting client ->
  fs host (template (session options) ++ ".zip")%string = Some f ->
  readError f = None ->
  succeeds (transfer host this options remote).
Proof.
  intros Hc Hacc Hf Hread. unfold transfer. cbv zeta.
  apply succeeds_bind.
  { intros h. unfold statSync. rewrite Hf. eexists _, _. reflexivity. }
  intros fileSize.
  apply succeeds_bind; [|intros; apply succeeds_debugLog].
  destruct (fileSize <=? _).
  - unfold singleUpload.
    apply succeeds_bind; [apply succeeds_emit|]. intros _.
    apply succeeds_bind; [intros h; eexists _, _; reflexivity|].
    intros stream.
    apply succeeds_bind; [|intros; apply succeeds_ret].
    apply (succeeds_send this client); assumption.
  - unfold multipartUpload.
    apply succeeds_bind; [apply succeeds_emit|]. intros _.
    apply succeeds_bind; [apply (succeeds_send this client); assumption|].
    intros created.
    unfold createReadStream, forAwait.
    intros h. unfold bind at 1.
    assert (Hstream : streamError
                        (streamOf host (template (session options) ++ ".zip")%string)
                      = None).
    { unfold streamOf. rewrite Hf. exact Hread. }
    rewrite Hstream.
    assert (Hrest : succeeds
              (u <- (s' <- iterate (onChunk this remote (UploadId created))
                             (streamChunks
                                (streamOf host
                                   (template (session options) ++ ".zip")%string))
                             {| partNumber := 1; parts := []; buffer := [] |} ;;
                     ret s') ;;
               u0 <- match buffer u with
                     | [] => ret u
                     | _ :: _ => uploadBuffer this remote (UploadId created) u
                     end ;;
               send this
                 (CompleteMultipartUploadCommand (bucketName this) remote
                    (UploadId created) (parts u0)) ;;
               ret tt)).
    { apply succeeds_bind.
      - apply succeeds_bind; [|intros; apply succeeds_ret].
        apply succeeds_iterate. intros chunk u.
        apply (succeeds_onChunk this client); assumption.
      - intros u. apply succeeds_bind.
        + destruct (buffer u); [apply succeeds_ret|].
          apply (succeeds_uploadBuffer this client); assumption.
        + intros u'. apply succeeds_bind; [|intros; apply succeeds_ret].
          apply (succeeds_send this client); assumption. }
    destruct (Hrest (h ++
               [CreateReadStream (template (session options) ++ ".zip")%string]))
      as (a & ev & ->).
    eexists _, _. reflexivity.
Qed.

(** A run of [save] whose configuration is accepted, whose client accepts
    every command and whose archive is there and can be read completes
    normally, having found the size of the archive. *)
Lemma save_completes (this : AwsS3Store B) client options f h :
  s3Client this = Some client -> accepting client ->
  (forall h', fst (isValidConfig this options h') = Normal true) ->
  fs host (template (session options) ++ ".zip")%string = Some f ->
  readError f = None ->
  fst (save host this options h) = Normal tt /\
  archiveSize (snd (save host this options h)) = Some (inr (size f)).
Proof.
  intros Hc Hacc Hvalid Hf Hread.
  destruct (isValidConfig_cases this options
              (h ++ debugLine this "[METHOD: save] Triggered."))
    as [(evv & Hv & Hevv) | (evv & client' & base & Hv & Hc' & Hbase & _ & Hevv)].
  { specialize (Hvalid (h ++ debugLine this "[METHOD: save] Triggered.")).
    rewrite Hv in Hvalid. discriminate Hvalid. }
  rewrite (save_transferred host this options h evv client' base Hv Hc' Hbase).
  cbv zeta.
  destruct (succeeds_transfer this client options
              (remoteFilePath (join host) base (session options)) f
              Hc Hacc Hf Hread
              (((h ++ debugLine this "[METHOD: save] Triggered.") ++ evv) ++
               [SetRemoteFilePath
                  (remoteFilePath (join host) base (session options))]))
    as ([] & evb & Hrun).
  rewrite Hrun. cbn [fst snd]. split; [reflexivity|].
  pose proof (transfer_inv host this client Hc _ _ _ _ _ Hrun) as Hinv.
  cbv zeta in Hinv. rewrite Hf in Hinv. destruct Hinv as (evu & -> & _).
  rewrite archiveSize_app, (archiveSize_debugLine this), archiveSize_app,
    (archiveSize_validation _ Hevv). reflexivity.
Qed.

End Completion.

Lemma okClient_accepting {B : Type} : accepting (okClient (B := B)).
Proof. intros h c. destruct c; eexists; reflexivity. Qed.

(** An archive cut into chunks holds its bytes, and is cut evenly. *)
Lemma archiveIn_total (c n : N) :
  0 < c -> total_length (chunks (archiveIn c n)) = n.
Proof.
  intros Hc. unfold archiveIn. cbn [chunks].
  assert (Hrep : forall k l,
             total_length (repeat c k ++ l) =
             N.of_nat k * c + total_length l).
  { induction k as [|k IH]; intros l.
    - reflexivity.
    - change (repeat c (S k) ++ l) with (c :: repeat c k ++ l).
      unfold total_length in *. cbn [fold_right blength Extent].
      rewrite IH, Nat2N.inj_succ, N.mul_succ_l. cbn [blength Extent]. lia. }
  rewrite Hrep, N2Nat.id.
  pose proof (N.div_mod n c ltac:(lia)) as Hdiv.
  set (q := n / c) in *. set (r := n mod c) in *. clearbody q r.
  destruct (r =? 0) eqn:Hrem.
  - apply N.eqb_eq in Hrem. cbn. lia.
  - cbn. lia.
Qed.

Lemma archiveIn_even (c n : N) :
  0 < c -> evenlyChunked c (chunks (archiveIn c n)) = true.
Proof.
  intros Hc. unfold archiveIn. cbn [chunks].
  assert (Htail : evenlyChunked c
                    (if n mod c =? 0 then [] else [n mod c]) = true).
  { destruct (n mod c =? 0) eqn:Hrem; [reflexivity|].
    apply N.eqb_neq in Hrem. cbn [evenlyChunked blength Extent].
    pose proof (N.mod_lt n c ltac:(lia)) as Hlt.
    set (r := n mod c) in *. clearbody r.
    apply andb_true_iff. split; [apply N.ltb_lt | apply N.leb_le]; lia. }
  induction (N.to_nat (n / c)) as [|k IH]; [exact Htail|].
  change (repeat c (S k) ++ ?l) with (c :: (repeat c k ++ l)).
  destruct (repeat c k ++ (if n mod c =? 0 then [] else [n mod c]))
    as [|b rest] eqn:Hlist.
  - cbn [evenlyChunked blength Extent].
    apply andb_true_iff. split; [apply N.ltb_lt | apply N.leb_le]; lia.
  - cbn [evenlyChunked blength Extent]. rewrite N.eqb_refl. exact IH.
Qed.

(** ** Runs on concrete archives *)

(** An archive of 4.5 GiB, read 64 KiB at a time, is uploaded in 231
    parts numbered 1 to 231. *)
Lemma multipart_parts_numbered_witness :
  let f := archive (9 * GiB / 2) in
  let host := posixHost (oneFile "work-phone.zip" f) in
  let run := save host (storeWith okClient) (sessionOptions "work-phone") [] in
  let n := List.length (partNumbers (snd run)) in
  fst run = Normal tt /\
  partNumbers (snd run) = numbersFrom 1 n /\
  (exists ps,
      completions (sends (snd run)) = [ps] /\
      map PartNumber ps = numbersFrom 1 n) /\
  N.of_nat n = 231.
Proof.
  intros f host run n.
  destruct (save_completes host (storeWith okClient) okClient
              (sessionOptions "work-phone") f [] eq_refl okClient_accepting
              (fun h' => eq_refl) eq_refl eq_refl) as [Hdone Hstat].
  destruct (multipart_parts_numbered host (storeWith okClient)
              (sessionOptions "work-phone") [] f (64 * KiB)
              eq_refl eq_refl Hstat) as [Hnum Hrest].
  destruct (Hrest Hdone) as [Hcomplete Hcount].
  split; [exact Hdone|]. split; [exact Hnum|]. split; [exact Hcomplete|].
  exact (Hcount (archiveIn_total (64 * KiB) (9 * GiB / 2) eq_refl)
           eq_refl eq_refl (archiveIn_even (64 * KiB) (9 * GiB / 2) eq_refl)).
Defined.

(** The same run, counted: 4.5 GiB are 4608 MiB, which make 231 parts of
    at most 20 MiB, not 230. *)
Lemma four_and_a_half_GiB_make_231_parts :
  let f := archive (9 * GiB / 2) in
  let host := posixHost (oneFile "work-phone.zip" f) in
  let run := save host (storeWith okClient) (sessionOptions "work-phone") [] in
  size f = 4608 * MiB /\ partSize = 20 * MiB /\
  fst run = Normal tt /\
  List.length (partNumbers (snd run)) = 231%nat /\
  List.length (partNumbers (snd run)) <> 230%nat.
Proof.
  intros f host run.
  destruct (save_completes host (storeWith okClient) okClient
              (sessionOptions "work-phone") f [] eq_refl okClient_accepting
              (fun h' => eq_refl) eq_refl eq_refl) as [Hdone Hstat].
  assert (Hn : N.of_nat (List.length (partNumbers (snd run))) = 231).
  { exact (large_archive_part_count host (storeWith okClient)
             (sessionOptions "work-phone") [] f (64 * KiB)
             eq_refl eq_refl Hstat Hdone
             (archiveIn_total (64 * KiB) (9 * GiB / 2) eq_refl)
             eq_refl eq_refl
             (archiveIn_even (64 * KiB) (9 * GiB / 2) eq_refl)). }
  split; [reflexivity|]. split; [reflexivity|]. split; [exact Hdone|].
  split; lia.
Qed.

(** A session archive of 50 MiB is put in one request; one of 5 GiB and
    5 MiB, read 1 GiB at a time, goes through a multipart upload. *)
Lemma save_strategy_witness :
  let small := posixHost (oneFile "work-phone.zip" (archive (50 * MiB))) in
  let large :=
    posixHost (oneFile "work-phone.zip" (archiveIn GiB (5 * GiB + 5 * MiB))) in
  let this := storeWith (okClient (B := N)) in
  let options := sessionOptions "work-phone" in
  (count isPutObject (snd (save small this options [])) = 1%nat /\
   count isMultipart (snd (save small this options [])) = 0%nat) /\
  (count isPutObject (snd (save large this options [])) = 0%nat /\
   exists create ups complete,
     requests (snd (save large this options [])) = create :: ups ++ [complete] /\
     isCreateMultipartUpload create = true /\
     Forall (fun c => isUploadPart c = true) ups /\
     isCompleteMultipartUpload complete = true /\ ups <> []).
Proof.
  intros small large this options. split.
  - destruct (save_completes small this okClient options
                (archive (50 * MiB)) [] eq_refl okClient_accepting
                (fun h' => eq_refl) eq_refl eq_refl) as [_ Hstat].
    pose proof (save_strategy small this options []) as Hs. cbv zeta in Hs.
    rewrite Hstat in Hs. exact Hs.
  - destruct (save_completes large this okClient options
                (archiveIn GiB (5 * GiB + 5 * MiB)) [] eq_refl
                okClient_accepting (fun h' => eq_refl) eq_refl eq_refl)
      as [Hdone Hstat].
    pose proof (save_strategy large this options []) as Hs. cbv zeta in Hs.
    rewrite Hstat in Hs.
    destruct Hs as (Hput & _ & Hrest). split; [exact Hput|].
    destruct (Hrest Hdone)
      as (create & ups & complete & Hreq & Hcreate & Hups & Hcomplete & Hsome).
    exists create, ups, complete. repeat split; try assumption.
    apply Hsome. discriminate.
Defined.

(** The archive of the session is read even when the caller names another
    file; read 1 GiB at a time, all of its chunks are uploaded. *)
Lemma save_reads_session_archive_witness :
  let f := archiveIn GiB (5 * GiB + 5 * MiB) in
  let host := posixHost (oneFile "work-phone.zip" f) in
  let this := storeWith (okClient (B := N)) in
  let run :=
    save host this
      {| session := Some "work-phone"; path := Some "elsewhere.zip" |} [] in
  save host this {| session := Some "work-phone"; path := None |} [] = run /\
  Forall (readsOnly host "work-phone.zip") (snd run) /\
  exists groups,
    map snd (uploads (sends (snd run))) = map bconcat groups /\
    chunks f = List.concat groups.
Proof.
  intros f host this run.
  destruct (save_completes host this okClient
              {| session := Some "work-phone"; path := Some "elsewhere.zip" |}
              f [] eq_refl okClient_accepting (fun h' => eq_refl)
              eq_refl eq_refl) as [Hdone Hstat].
  destruct (save_reads_session_archive host this (Some "work-phone")
              (Some "elsewhere.zip") None [])
    as (Hsame & Honly & groups & tail & Hbodies & Hcut & Hall).
  split; [exact Hsame|]. split; [exact Honly|].
  exists groups. split; [exact Hbodies|].
  rewrite (Hall Hdone (size f) Hstat eq_refl), app_nil_r in Hcut. exact Hcut.
Defined.

(** Read 1 GiB at a time, no chunk is longer than 1 GiB, and the parts of
    the loop are between 20 MiB and 20 MiB + 1 GiB. *)
Lemma loop_parts_reach_partSize_witness :
  let f := archiveIn GiB (5 * GiB + 5 * MiB) in
  let host := posixHost (oneFile "work-phone.zip" f) in
  let this := storeWith (okClient (B := N)) in
  let run := save host this (sessionOptions "work-phone") [] in
  Forall (fun b => blength b <= GiB) (chunks f) /\
  (partLengths (snd run) = [] \/
   exists remote uploadId h1 rl evl rest,
     iterate (onChunk this remote uploadId) (chunks f)
       {| partNumber := 1; parts := []; buffer := [] |} h1 = (rl, evl) /\
     partLengths (snd run) = partLengths evl ++ rest /\
     Forall (fun n => partSize <= n < partSize + GiB) (partLengths evl) /\
     (rest = [] \/ exists n, rest = [n] /\ n < partSize)).
Proof.
  intros f host this run.
  assert (Hchunks : Forall (fun b => blength b <= GiB) (chunks f))
    by (repeat constructor; discriminate).
  split; [exact Hchunks|].
  exact (loop_parts_reach_partSize host this (sessionOptions "work-phone")
           [] GiB Hchunks).
Defined.

(** The six parts of that run: chunks that do not divide [partSize] make
    larger and fewer parts than [ceil(S / partSize)]. *)
Example parts_of_5_GiB_in_chunks_of_1_GiB :
  partLengths
    (snd (save
            (posixHost
               (oneFile "work-phone.zip" (archiveIn GiB (5 * GiB + 5 * MiB))))
            (storeWith okClient) (sessionOptions "work-phone") [])) =
  [GiB; GiB; GiB; GiB; GiB; 5 * MiB] /\
  ceilDiv (5 * GiB + 5 * MiB) partSize = 257.
Proof. vm_compute. split; reflexivity. Qed.

(** A part upload that is refused ends the run with its error; nothing is
    aborted and nothing else is sent. *)
Example save_refused_part :
  let host :=
    posixHost (oneFile "work-phone.zip" (archiveIn GiB (5 * GiB + 5 * MiB))) in
  let this :=
    storeWith (failingOn (B := N) isUploadPart (Error "SlowDown")) in
  let run := save host this (sessionOptions "work-phone") [] in
  fst run = Throw (Error "SlowDown") /\
  failures (snd run) = [Error "SlowDown"] /\
  map isCreateMultipartUpload (requests (snd run)) = [true; false] /\
  count isAbortMultipartUpload (snd run) = 0%nat.
Proof. vm_compute. repeat split. Qed.

(** * Further properties *)

(** ** The outcome of the validation decides what a method does *)

Section Outcomes.

Context {B : Type} `{Bytes B}.
Variable host : Host B.

(** A run of [save], event by event. *)
Lemma save_events (this : AwsS3Store B) (options : Options) h :
  let run := save host this options h in
  let dbg := debugLine this "[METHOD: save] Triggered." in
  (exists evv,
      isValidConfig this options (h ++ dbg) = (Normal false, evv) /\
      Forall (fun x => isValidationEvent x = true) evv /\
      run = (Normal tt, dbg ++ evv)) \/
  (exists evv client base evb,
      isValidConfig this options (h ++ dbg) = (Normal true, evv) /\
      Forall (fun x => isValidationEvent x = true) evv /\
      s3Client this = Some client /\ remoteDataPath this = Some base /\
      let key := remoteFilePath (join host) base (session options) in
      transfer host this options key
        (((h ++ dbg) ++ evv) ++ [SetRemoteFilePath key]) = (fst run, evb) /\
      snd run =
      dbg ++ evv ++ SetRemoteFilePath key :: evb ++
      match fst run with
      | Throw e =>
          debugLine this ("[METHOD: save] Error: " ++ message e)%string
      | Normal _ => []
      end).
Proof.
  intros run dbg. subst run dbg.
  destruct (isValidConfig_cases this options
              (h ++ debugLine this "[METHOD: save] Triggered."))
    as [(evv & Hv & Hevv) | (evv & client & base & Hv & Hc & Hbase & _ & Hevv)].
  - left. exists evv. rewrite (save_refused host this options h evv Hv). auto.
  - right. exists evv, client, base.
    rewrite (save_transferred host this options h evv client base Hv Hc Hbase).
    cbv zeta.
    destruct (transfer host this options _ _) as [[a|e] evb] eqn:Hrun;
      exists evb; cbn [fst snd]; rewrite ?app_nil_r; auto 10.
Qed.

Lemma keysWritten_app (a b : list (Event B)) :
  keysWritten (a ++ b) = keysWritten a ++ keysWritten b.
Proof.
  induction a as [|x a IH]; [reflexivity|].
  destruct x; cbn; rewrite ?IH; reflexivity.
Qed.

Lemma keysWritten_debugLine (this : AwsS3Store B) msg :
  keysWritten (debugLine this msg) = [].
Proof. unfold debugLine. destruct (debugEnabled this); reflexivity. Qed.

Lemma keysWritten_validation (ev : list (Event B)) :
  Forall (fun x => isValidationEvent x = true) ev -> keysWritten ev = [].
Proof.
  induction 1 as [|x ev Hx _ IH]; [reflexivity|].
  destruct x; try discriminate; exact IH.
Qed.

(** With a probe that is answered with another status than 200,
    [isValidConfig] answers [false] whatever happened before. *)
Lemma isValidConfig_denied (this : AwsS3Store B) (options : Options) client h :
  s3Client this = Some client -> probeDenied client ->
  exists evv,
    isValidConfig this options h = (Normal false, evv) /\
    Forall (fun x => isValidationEvent x = true) evv.
Proof.
  intros Hc Hdenied.
  destruct (falsy (session options)) eqn:Hs;
    [unfold isValidConfig; rewrite Hs; eexists; split;
     [reflexivity | repeat constructor]|].
  destruct (falsy (bucketName this)) eqn:Hb;
    [unfold isValidConfig; rewrite Hs, Hb; eexists; split;
     [reflexivity | repeat constructor]|].
  destruct (falsy (remoteDataPath this)) eqn:Hp;
    [unfold isValidConfig; rewrite Hs, Hb, Hp; eexists; split;
     [reflexivity | repeat constructor]|].
  rewrite (isValidConfig_probe this options client h Hs Hb Hp Hc).
  destruct (Hdenied h (bucketName this)) as (o & -> & ->).
  eexists. split; [reflexivity | repeat constructor].
Qed.

(** X1.  When the bucket probe is answered with a status other than 200
    (it does not throw), [sessionExists], [save] and [delete] return
    normally without having done anything: no head probe, no stat of the
    archive, no request beside the probe, and [options.remoteFilePath] is
    not written.  The caller of [save] is not told that nothing was saved. *)
Theorem denied_probe_disables (this : AwsS3Store B) (options : Options)
    (client : S3Client B) (h : list (Event B)) :
  s3Client this = Some client -> probeDenied client ->
  (fst (sessionExists host this options h) = Normal None /\
   requests (snd (sessionExists host this options h)) = []) /\
  (fst (save host this options h) = Normal tt /\
   requests (snd (save host this options h)) = [] /\
   archiveSize (snd (save host this options h)) = None /\
   keysWritten (snd (save host this options h)) = []) /\
  (fst (delete host this options h) = Normal tt /\
   requests (snd (delete host this options h)) = []).
Proof.
  intros Hc Hdenied. split; [|split].
  - destruct (isValidConfig_denied this options client
                (h ++ debugLine this "[METHOD: sessionExists] Triggered.")
                Hc Hdenied) as (evv & Hv & Hevv).
    rewrite (sessionExists_refused host this options h evv Hv). cbn [fst snd].
    rewrite requests_app, requests_debugLine, (requests_validation _ Hevv).
    auto.
  - destruct (isValidConfig_denied this options client
                (h ++ debugLine this "[METHOD: save] Triggered.")
                Hc Hdenied) as (evv & Hv & Hevv).
    rewrite (save_refused host this options h evv Hv). cbn [fst snd].
    rewrite requests_app, requests_debugLine, (requests_validation _ Hevv).
    rewrite archiveSize_app, archiveSize_debugLine,
      (archiveSize_validation _ Hevv).
    rewrite keysWritten_app, keysWritten_debugLine,
      (keysWritten_validation _ Hevv).
    auto.
  - destruct (isValidConfig_denied this options client
                (h ++ debugLine this "[METHOD: delete] Triggered.")
                Hc Hdenied) as (evv & Hv & Hevv).
    rewrite (delete_refused host this options h evv Hv). cbn [fst snd].
    rewrite requests_app, requests_debugLine, (requests_validation _ Hevv).
    auto.
Qed.

(** With all fields there and a probe that throws, [isValidConfig]
    answers [true]. *)
Lemma isValidConfig_lenient (this : AwsS3Store B) (options : Options) client h :
  falsy (session options) = false -> configured this = true ->
  s3Client this = Some client -> probeThrows client ->
  exists evv base,
    isValidConfig this options h = (Normal true, evv) /\
    Forall (fun x => isValidationEvent x = true) evv /\
    remoteDataPath this = Some base.
Proof.
  intros Hs Hconf Hc Hthrows. unfold configured in Hconf.
  apply andb_true_iff in Hconf. destruct Hconf as [Hconf _].
  apply andb_true_iff in Hconf. destruct Hconf as [Hb Hp].
  apply negb_true_iff in Hb, Hp.
  rewrite (isValidConfig_probe this options client h Hs Hb Hp Hc).
  destruct (Hthrows h (bucketName this)) as (e & ->).
  destruct (remoteDataPath this) as [base|]; [|discriminate Hp].
  eexists _, base. repeat split. repeat constructor.
Qed.

(** The [try] block of [save] starts with the stat and writes nothing
    into [options]. *)
Lemma transfer_keys (this : AwsS3Store B) client options remote h r ev :
  s3Client this = Some client ->
  transfer host this options remote h = (r, ev) ->
  keysWritten ev = [] /\ archiveSize ev <> None.
Proof.
  intros Hc Hrun.
  pose proof (transfer_inv host this client Hc _ _ _ _ _ Hrun) as Hinv.
  cbv zeta in Hinv.
  destruct (fs host _) as [f|].
  2:{ destruct Hinv as (e & _ & ->). split; [reflexivity | discriminate]. }
  destruct Hinv as (evu & -> & Hevu). split; [|discriminate].
  cbn [keysWritten].
  destruct (size f <=? _).
  { destruct Hevu as (put & -> & _). cbn [keysWritten].
    destruct put; [reflexivity | apply keysWritten_debugLine]. }
  destruct Hevu as (h1 & evm & Hmulti & ->).
  rewrite keysWritten_app.
  replace (keysWritten (match r with Normal _ => _ | Throw _ => _ end))
    with (@nil string)
    by (destruct r; [rewrite keysWritten_debugLine|]; reflexivity).
  rewrite app_nil_r.
  destruct (multipartUpload_inv host this client Hc _ _ _ _ _ Hmulti)
    as (created & rest & -> & Hrest).
  cbn [keysWritten]. destruct created as [e|o].
  { destruct Hrest as [_ ->]. reflexivity. }
  cbv zeta in Hrest.
  destruct Hrest as (h2 & rl & evl & evt & -> & Hloop & Hend).
  cbn [keysWritten]. rewrite keysWritten_app.
  assert (Hloopkeys : keysWritten evl = []).
  { pose proof (iterate_uploads this _ _ _ _ _ _ _ Hloop) as Hups.
    clear -Hups. induction Hups as [|x l Hx _ IH]; [reflexivity|].
    destruct x; try discriminate. exact IH. }
  rewrite Hloopkeys. cbn [app].
  destruct rl as [u|e]; [|destruct Hend as [_ ->]; reflexivity].
  destruct (streamError _); [destruct Hend as [_ ->]; reflexivity|].
  destruct (buffer u).
  - destruct Hend as (completed & -> & _). reflexivity.
  - cbv zeta in Hend. destruct Hend as ([e|o'] & Hend).
    + destruct Hend as [_ ->]. reflexivity.
    + destruct Hend as (completed & -> & _). reflexivity.
Qed.

(** What [save] writes into [options.remoteFilePath], and whether it gets
    to the stat, by the answer of the validation. *)
Lemma save_keys (this : AwsS3Store B) (options : Options) h evv base :
  isValidConfig this options
    (h ++ debugLine this "[METHOD: save] Triggered.") = (Normal true, evv) ->
  remoteDataPath this = Some base ->
  keysWritten (snd (save host this options h)) =
    [remoteFilePath (join host) base (session options)] /\
  archiveSize (snd (save host this options h)) <> None.
Proof.
  intros Hv Hbase.
  destruct (save_events this options h)
    as [(evv' & Hv' & _) |
        (evv' & client & base' & evb & Hv' & Hevv & Hc & Hbase' & Hrun & Hev)];
    cbv zeta in *.
  { rewrite Hv in Hv'. discriminate Hv'. }
  rewrite Hbase in Hbase'. injection Hbase' as <-.
  destruct (transfer_keys this client _ _ _ _ _ Hc Hrun) as [Hkeys Hstat].
  rewrite Hev.
  rewrite archiveSize_app, archiveSize_debugLine, archiveSize_app,
    (archiveSize_validation _ Hevv).
  rewrite keysWritten_app, keysWritten_debugLine, keysWritten_app,
    (keysWritten_validation _ Hevv).
  cbn [archiveSize keysWritten app].
  rewrite archiveSize_app, keysWritten_app, Hkeys. split.
  - cbn [app]. f_equal.
    destruct (fst (save host this options h));
      [reflexivity | apply keysWritten_debugLine].
  - destruct (archiveSize evb); [discriminate | contradiction].
Qed.

(** X2.  A bucket probe that throws (a listing that is not allowed, an
    unreachable endpoint) stops nothing: with the session and the three
    fields there, [sessionExists] and [delete] go on to their head probe
    and [save] goes on to write the key of the session into
    [options.remoteFilePath] and to stat the archive. *)
Theorem thrown_probe_proceeds (this : AwsS3Store B) (options : Options)
    (client : S3Client B) (h : list (Event B)) :
  falsy (session options) = false -> configured this = true ->
  s3Client this = Some client -> probeThrows client ->
  headProbe (snd (sessionExists host this options h)) <> None /\
  headProbe (snd (delete host this options h)) <> None /\
  archiveSize (snd (save host this options h)) <> None /\
  exists base,
    remoteDataPath this = Some base /\
    keysWritten (snd (save host this options h)) =
      [remoteFilePath (join host) base (session options)].
Proof.
  intros Hs Hconf Hc Hthrows. split; [|split].
  - destruct (isValidConfig_lenient this options client
                (h ++ debugLine this "[METHOD: sessionExists] Triggered.")
                Hs Hconf Hc Hthrows) as (evv & base & Hv & Hevv & Hbase).
    rewrite (sessionExists_probed host this options h evv client base
               Hv Hc Hbase). cbv zeta.
    assert (Hprobe : forall answer tail,
               headProbe
                 (debugLine this "[METHOD: sessionExists] Triggered." ++ evv ++
                  Send (HeadObjectCommand (bucketName this)
                          (remoteFilePath (join host) base (session options)))
                    answer :: tail) <> None).
    { intros answer tail.
      rewrite headProbe_app, headProbe_debugLine, headProbe_app,
        (headProbe_validation _ Hevv). discriminate. }
    destruct (client _ _) as [err|o]; [destruct (notFound err)|];
      apply Hprobe.
  - destruct (isValidConfig_lenient this options client
                (h ++ debugLine this "[METHOD: delete] Triggered.")
                Hs Hconf Hc Hthrows) as (evv & base & Hv & Hevv & Hbase).
    rewrite (delete_probed host this options h evv client base Hv Hc Hbase).
    cbv zeta. cbn [snd].
    rewrite headProbe_app, headProbe_debugLine, headProbe_app,
      (headProbe_validation _ Hevv).
    destruct (client _ _); discriminate.
  - destruct (isValidConfig_lenient this options client
                (h ++ debugLine this "[METHOD: save] Triggered.")
                Hs Hconf Hc Hthrows) as (evv & base & Hv & Hevv & Hbase).
    destruct (save_keys this options h evv base Hv Hbase) as [Hkeys Hstat].
    split; [exact Hstat|]. exists base. split; [exact Hbase | exact Hkeys].
Qed.

(** X3.  When the archive of the session is not there, a [save] whose
    configuration is accepted throws the error of the stat.  It has sent no
    request beside the bucket probe, and it has already written the key of
    the session into [options.remoteFilePath]. *)
Theorem save_without_archive (this : AwsS3Store B) (options : Options)
    (h : list (Event B)) (evv : list (Event B)) (base : string) :
  let p := (template (session options) ++ ".zip")%string in
  isValidConfig this options
    (h ++ debugLine this "[METHOD: save] Triggered.") = (Normal true, evv) ->
  remoteDataPath this = Some base ->
  fs host p = None ->
  fst (save host this options h) =
    Throw (Error ("ENOENT: no such file or directory, stat '" ++ p ++ "'")%string) /\
  requests (snd (save host this options h)) = [] /\
  keysWritten (snd (save host this options h)) =
    [remoteFilePath (join host) base (session options)].
Proof.
  intros p Hv Hbase Hf. subst p.
  destruct (save_keys this options h evv base Hv Hbase) as [Hkeys _].
  split; [|split; [|exact Hkeys]].
  - destruct (save_events this options h)
      as [(evv' & Hv' & _) |
          (evv' & client & base' & evb & Hv' & Hevv & Hc & _ & Hrun & _)];
      cbv zeta in *.
    { rewrite Hv in Hv'. discriminate Hv'. }
    pose proof (transfer_inv host this client Hc _ _ _ _ _ Hrun) as Hinv.
    cbv zeta in Hinv. rewrite Hf in Hinv.
    destruct Hinv as (e & Hr & Hev).
    unfold transfer, bind, statSync in Hrun. rewrite Hf in Hrun.
    injection Hrun as Hr' _. symmetry. exact Hr'.
  - destruct (save_events this options h)
      as [(evv' & Hv' & _) |
          (evv' & client & base' & evb & Hv' & Hevv & Hc & _ & Hrun & Hev)];
      cbv zeta in *.
    { rewrite Hv in Hv'. discriminate Hv'. }
    pose proof (transfer_inv host this client Hc _ _ _ _ _ Hrun) as Hinv.
    cbv zeta in Hinv. rewrite Hf in Hinv. destruct Hinv as (e & _ & ->).
    rewrite Hev, requests_app, requests_debugLine, requests_app,
      (requests_validation _ Hevv).
    change (SetRemoteFilePath ?k :: ?l) with ([SetRemoteFilePath k] ++ l).
    rewrite requests_app.
    change ([StatSync ?q ?r] ++ ?l) with ([StatSync q r] ++ l).
    rewrite requests_app.
    replace (requests (match fst (save host this options h) with
                       | Normal _ => _ | Throw _ => _ end))
      with (@nil (Command B)); [reflexivity|].
    destruct (fst (save host this options h));
      [reflexivity | rewrite requests_debugLine; reflexivity].
Qed.

End Outcomes.

(** ** #deletePrevious *)

Section PreviousKey.

Context {B : Type} `{Bytes B}.
Variable host : Host B.

(** The run of [#deletePrevious] without a key. *)
Lemma deletePrevious_keyless (this : AwsS3Store B) (options : Options) key h :
  falsy key = true ->
  deletePrevious this options key h =
  (Throw (Error "A valid remote file path is required for AwsS3Store."),
   debugLine this "[METHOD: #deletePrevious] Triggered.").
Proof.
  intros Hkey. unfold deletePrevious.
  rewrite (bind_step _ _ _ _ _ (debugLog_run this _ h)). rewrite Hkey.
  unfold throw. rewrite app_nil_r. reflexivity.
Qed.

Lemma deletePrevious_refused (this : AwsS3Store B) (options : Options) key h evv :
  falsy key = false ->
  isValidConfig this options
    (h ++ debugLine this "[METHOD: #deletePrevious] Triggered.") =
    (Normal false, evv) ->
  deletePrevious this options key h =
  (Normal tt, debugLine this "[METHOD: #deletePrevious] Triggered." ++ evv).
Proof.
  intros Hkey Hv. unfold deletePrevious.
  rewrite (bind_step _ _ _ _ _ (debugLog_run this _ h)). rewrite Hkey.
  rewrite (bind_step _ _ _ _ _ Hv). cbn [negb]. unfold ret.
  rewrite app_nil_r. reflexivity.
Qed.

(** The run of [#deletePrevious] with a key on an accepted configuration. *)
Lemma deletePrevious_probed (this : AwsS3Store B) (options : Options) key h
    evv client :
  falsy key = false ->
  isValidConfig this options
    (h ++ debugLine this "[METHOD: #deletePrevious] Triggered.") =
    (Normal true, evv) ->
  s3Client this = Some client ->
  let dbg := debugLine this "[METHOD: #deletePrevious] Triggered." in
  let head := HeadObjectCommand (bucketName this) (template key) in
  let del := DeleteObjectCommand (bucketName this) (template key) in
  let answer := client ((h ++ dbg) ++ evv) head in
  let answer' := client (((h ++ dbg) ++ evv) ++ [Send head answer]) del in
  let swallowed (err : JsError) :=
    if notFound err
    then debugLine this
           ("[METHOD: #deletePrevious] File not found. PATH='"
            ++ template key ++ "'.")%string
    else debugLine this
           ("[METHOD: #deletePrevious] Error: " ++ message err)%string in
  deletePrevious this options key h =
  (Normal tt,
   dbg ++ evv ++
   match answer with
   | inl err => Send head answer :: swallowed err
   | inr _ =>
       Send head answer :: Send del answer' ::
       match answer' with
       | inl err => swallowed err
       | inr _ =>
           debugLine this
             ("[METHOD: #deletePrevious] File deleted. PATH='"
              ++ template key ++ "'.")%string
       end
   end).
Proof.
  intros Hkey Hv Hc dbg head del answer answer' swallowed.
  unfold deletePrevious.
  rewrite (bind_step _ _ _ _ _ (debugLog_run this _ h)). rewrite Hkey.
  rewrite (bind_step _ _ _ _ _ Hv). cbn [negb]. cbv zeta.
  unfold tryCatch, bind. rewrite (send_run this client _ _ Hc).
  fold head. fold del. fold dbg. fold answer.
  destruct answer as [err|o].
  - subst swallowed. cbv beta.
    destruct (notFound err); rewrite debugLog_run; reflexivity.
  - rewrite (send_run this client _ _ Hc). fold answer'.
    destruct answer' as [err|o'].
    + subst swallowed. cbv beta.
      destruct (notFound err); rewrite debugLog_run; reflexivity.
    + rewrite debugLog_run. reflexivity.
Qed.

(** X4.  [#deletePrevious] throws when [options.remoteFilePath] is missing
    or empty, and it does so before the validation: nothing has been sent.
    With a key it never throws.  When the configuration is refused it
    sends nothing beside the bucket probe; when it is accepted it sends
    the head probe to the client, on the key it was given as it is, and
    its requests follow the answer like those of [delete]: the probe and
    then the delete command when the probe succeeded, the probe alone when
    it failed. *)
Theorem deletePrevious_needs_key (this : AwsS3Store B) (options : Options)
    (key : option string) (h : list (Event B)) :
  let dbg := debugLine this "[METHOD: #deletePrevious] Triggered." in
  let validation := isValidConfig this options (h ++ dbg) in
  let head := HeadObjectCommand (bucketName this) (template key) in
  let run := deletePrevious this options key h in
  if falsy key then
    fst run =
      Throw (Error "A valid remote file path is required for AwsS3Store.") /\
    sends (snd run) = []
  else
    fst run = Normal tt /\
    match headProbe (snd run) with
    | Some (inr _) =>
        requests (snd run) =
        [head; DeleteObjectCommand (bucketName this) (template key)]
    | Some (inl _) => requests (snd run) = [head]
    | None => requests (snd run) = []
    end /\
    match fst validation with
    | Normal true =>
        exists client,
          s3Client this = Some client /\
          headProbe (snd run) =
          Some (client ((h ++ dbg) ++ snd validation) head)
    | Normal false => headProbe (snd run) = None
    | Throw _ => False
    end.
Proof.
  intros dbg validation head run. subst dbg validation head run.
  destruct (falsy key) eqn:Hkey.
  { rewrite (deletePrevious_keyless this options key h Hkey). cbn [fst snd].
    split; [reflexivity | apply sends_debugLine]. }
  destruct (isValidConfig_cases this options
              (h ++ debugLine this "[METHOD: #deletePrevious] Triggered."))
    as [(evv & Hv & Hevv) | (evv & client & base & Hv & Hc & _ & _ & Hevv)];
    rewrite Hv; cbn [fst snd].
  - rewrite (deletePrevious_refused this options key h evv Hkey Hv).
    cbn [fst snd]. split; [reflexivity|].
    rewrite headProbe_app, headProbe_debugLine, (headProbe_validation _ Hevv).
    rewrite requests_app, requests_debugLine, (requests_validation _ Hevv).
    split; reflexivity.
  - rewrite (deletePrevious_probed this options key h evv client Hkey Hv Hc).
    cbv zeta. cbn [fst snd]. split; [reflexivity|].
    rewrite headProbe_app, headProbe_debugLine, headProbe_app,
      (headProbe_validation _ Hevv).
    rewrite requests_app, requests_debugLine, requests_app,
      (requests_validation _ Hevv).
    destruct (client ((h ++ _) ++ evv) _) as [err|o] eqn:Hanswer.
    + cbn [headProbe app]. split.
      * change (?x :: ?l) with ([x] ++ l). rewrite requests_app.
        destruct (notFound err); rewrite requests_debugLine; reflexivity.
      * exists client. split; [exact Hc | rewrite ?Hanswer; reflexivity].
    + cbn [headProbe app]. split.
      * match goal with
        | |- requests (?x :: ?y :: ?l) = _ =>
            change (x :: y :: l) with ([x; y] ++ l)
        end.
        rewrite requests_app.
        destruct (client _ (DeleteObjectCommand _ _)) as [err|o'];
          [destruct (notFound err)|]; rewrite requests_debugLine; reflexivity.
      * exists client. split; [exact Hc | rewrite ?Hanswer; reflexivity].
Qed.

(** X5.  On a store that prints no debug lines, [#deletePrevious] given
    the key of the session is [delete]: the same requests with the same
    answers, and the same result. *)
Theorem deletePrevious_of_session_key (this : AwsS3Store B)
    (options : Options) (base : string) (h : list (Event B)) :
  debugEnabled this = false ->
  remoteDataPath this = Some base ->
  falsy (Some (remoteFilePath (join host) base (session options))) = false ->
  deletePrevious this options
    (Some (remoteFilePath (join host) base (session options))) h =
  delete host this options h.
Proof.
  intros Hquiet Hbase Hkey.
  assert (Hdbg : forall msg, debugLine this msg = []).
  { intros msg. unfold debugLine. rewrite Hquiet. reflexivity. }
  destruct (isValidConfig_cases this options (h ++ []))
    as [(evv & Hv & Hevv) | (evv & client & base' & Hv & Hc & Hbase' & _ & Hevv)].
  - rewrite (deletePrevious_refused this options _ h evv Hkey)
      by (rewrite Hdbg; exact Hv).
    rewrite (delete_refused host this options h evv)
      by (rewrite Hdbg; exact Hv).
    rewrite !Hdbg. reflexivity.
  - rewrite (deletePrevious_probed this options _ h evv client Hkey)
      by (rewrite ?Hdbg; assumption).
    rewrite (delete_probed host this options h evv client base)
      by (rewrite ?Hdbg; assumption).
    cbv zeta. rewrite !Hdbg. cbn [template].
    destruct (client _ _) as [err|o].
    + destruct (notFound err); rewrite ?Hdbg; reflexivity.
    + destruct (client _ _) as [err|o']; [destruct (notFound err)|];
        rewrite ?Hdbg; reflexivity.
Qed.

End PreviousKey.

(** ** save, sessionExists and delete on one bucket *)

Section Lifecycle.

Context {B : Type} `{Bytes B}.
Variable host : Host B.

Lemma stored_readonly bucket key (ev : list (Event B)) present :
  Forall (fun c => isWrite c = false) (sends ev) ->
  stored bucket key ev present = present.
Proof.
  revert present. induction ev as [|x ev IH]; intros present Hro;
    [reflexivity|].
  destruct x as [| | | | | | |c r]; cbn [sends] in Hro;
    try (cbn [stored]; apply IH; exact Hro).
  inversion Hro as [|? ? Hc Hrest]; subst.
  destruct c; try discriminate Hc; cbn [stored]; apply IH; exact Hrest.
Qed.

Lemma stored_uploads bucket key (ev : list (Event B)) present :
  Forall (fun x => isUpload x = true) ev ->
  stored bucket key ev present = present.
Proof.
  intros Hups. apply stored_readonly.
  eapply Forall_impl; [|exact (proj1 (uploads_sends ev Hups))].
  intros c Hc. destruct c; try discriminate; reflexivity.
Qed.

Lemma stored_debugLine bucket key (this : AwsS3Store B) msg present :
  stored bucket key (debugLine this msg) present = present.
Proof. apply stored_quiet, requests_debugLine. Qed.

(** A multipart upload that succeeds ends with the object in the bucket. *)
Lemma multipartUpload_stores (this : AwsS3Store B) client remote p h ev present :
  s3Client this = Some client ->
  multipartUpload host this remote p h = (Normal tt, ev) ->
  stored (bucketName this) remote ev present = true.
Proof.
  intros Hc Hrun.
  destruct (multipartUpload_inv host this client Hc _ _ _ _ _ Hrun)
    as (created & rest & -> & Hrest).
  destruct created as [e|o]; [destruct Hrest as [Hr _]; discriminate Hr|].
  cbv zeta in Hrest.
  destruct Hrest as (h1 & rl & evl & evt & -> & Hloop & Hend).
  cbn [stored]. rewrite stored_app.
  rewrite (stored_uploads _ _ evl)
    by exact (iterate_uploads this _ _ _ _ _ _ _ Hloop).
  destruct rl as [u|e]; [|destruct Hend as [Hr _]; discriminate Hr].
  destruct (streamError _); [destruct Hend as [Hr _]; discriminate Hr|].
  destruct (buffer u).
  - destruct Hend as ([e|o'] & -> & Hr); [discriminate Hr|].
    cbn [stored]. rewrite sameBucket_refl, String.eqb_refl. reflexivity.
  - cbv zeta in Hend. destruct Hend as ([e|o'] & Hend).
    + destruct Hend as [Hr _]. discriminate Hr.
    + destruct Hend as ([e|o''] & -> & Hr); [discriminate Hr|].
      cbn [stored]. rewrite sameBucket_refl, String.eqb_refl. reflexivity.
Qed.

(** A [save] that got to its archive and completed has left the object of
    the session in the bucket, whatever the bucket held before. *)
Lemma save_stores (this : AwsS3Store B) (options : Options) h base
    fileSize present :
  remoteDataPath this = Some base ->
  fst (save host this options h) = Normal tt ->
  archiveSize (snd (save host this options h)) = Some (inr fileSize) ->
  stored (bucketName this)
    (remoteFilePath (join host) base (session options))
    (snd (save host this options h)) present = true.
Proof.
  intros Hbase Hdone Hstat.
  destruct (save_events host this options h)
    as [(evv & _ & Hevv & Hrun) |
        (evv & client & base' & evb & _ & Hevv & Hc & Hbase' & Hrun & Hev)];
    cbv zeta in *.
  { rewrite Hrun in Hstat. cbn [snd] in Hstat.
    rewrite archiveSize_app, archiveSize_debugLine,
      (archiveSize_validation _ Hevv) in Hstat. discriminate Hstat. }
  rewrite Hbase in Hbase'. injection Hbase' as <-.
  rewrite Hev, Hdone, app_nil_r. rewrite Hdone in Hrun.
  rewrite stored_app, stored_debugLine, stored_app.
  rewrite (stored_quiet _ _ evv) by (apply requests_validation; exact Hevv).
  cbn [stored].
  pose proof (transfer_inv host this client Hc _ _ _ _ _ Hrun) as Hinv.
  cbv zeta in Hinv.
  destruct (fs host _) as [f|];
    [|destruct Hinv as (e & Hr & _); discriminate Hr].
  destruct Hinv as (evu & -> & Hevu). cbn [stored].
  destruct (size f <=? _).
  - destruct Hevu as ([e|o] & -> & Hr); [discriminate Hr|].
    cbn [stored]. rewrite sameBucket_refl, String.eqb_refl. cbn [andb].
    apply stored_debugLine.
  - destruct Hevu as (h1 & evm & Hmulti & ->).
    rewrite stored_app, stored_debugLine.
    apply (multipartUpload_stores this client _ _ _ _ _ Hc Hmulti).
Qed.

(** On a bucket a complete configuration is accepted. *)
Lemma isValidConfig_bucketLike (this : AwsS3Store B) (options : Options)
    client h :
  s3Client this = Some client -> bucketLike client ->
  falsy (session options) = false -> configured this = true ->
  exists evv,
    isValidConfig this options h = (Normal true, evv) /\
    Forall (fun x => isValidationEvent x = true) evv.
Proof.
  intros Hc Hlike Hs Hconf. unfold configured in Hconf.
  apply andb_true_iff in Hconf. destruct Hconf as [Hconf _].
  apply andb_true_iff in Hconf. destruct Hconf as [Hb Hp].
  apply negb_true_iff in Hb, Hp.
  rewrite (isValidConfig_probe this options client h Hs Hb Hp Hc).
  destruct (Hlike h (bucketName this) "") as ((o & -> & ->) & _).
  eexists. split; [reflexivity | repeat constructor].
Qed.

(** What the bucket holds is not changed by debug lines and validation. *)
Lemma stored_preamble bucket key (this : AwsS3Store B) msg h evv :
  Forall (fun x => isValidationEvent x = true) evv ->
  stored bucket key ((h ++ debugLine this msg) ++ evv) false =
  stored bucket key h false.
Proof.
  intros Hevv. rewrite !stored_app, stored_debugLine.
  apply stored_quiet, requests_validation, Hevv.
Qed.

(** The run of [sessionExists] on a bucket: the answer is what the bucket
    holds, and the events are the preamble, the head probe and a debug
    line. *)
Lemma sessionExists_on_bucket (this : AwsS3Store B) (options : Options)
    client base h :
  s3Client this = Some client -> bucketLike client ->
  falsy (session options) = false -> configured this = true ->
  remoteDataPath this = Some base ->
  let key := remoteFilePath (join host) base (session options) in
  exists evv answer msg,
    Forall (fun x => isValidationEvent x = true) evv /\
    sessionExists host this options h =
    (Normal (Some (stored (bucketName this) key h false)),
     debugLine this "[METHOD: sessionExists] Triggered." ++ evv ++
     Send (HeadObjectCommand (bucketName this) key) answer ::
     debugLine this msg).
Proof.
  intros Hc Hlike Hs Hconf Hbase key.
  destruct (isValidConfig_bucketLike this options client
              (h ++ debugLine this "[METHOD: sessionExists] Triggered.")
              Hc Hlike Hs Hconf) as (evv & Hv & Hevv).
  rewrite (sessionExists_probed host this options h evv client base
             Hv Hc Hbase).
  cbv zeta. fold key.
  destruct (Hlike ((h ++ debugLine this "[METHOD: sessionExists] Triggered.")
                   ++ evv) (bucketName this) key) as (_ & _ & Hhead).
  rewrite (stored_preamble _ _ this _ h evv Hevv) in Hhead.
  destruct (stored (bucketName this) key h false).
  - destruct Hhead as (o & ->). eexists evv, _, _. split; [exact Hevv|].
    reflexivity.
  - destruct Hhead as (e & -> & ->). eexists evv, _, _.
    split; [exact Hevv|]. reflexivity.
Qed.

(** A [delete] on a bucket returns normally and leaves the key absent. *)
Lemma delete_on_bucket (this : AwsS3Store B) (options : Options)
    client base h :
  s3Client this = Some client -> bucketLike client ->
  falsy (session options) = false -> configured this = true ->
  remoteDataPath this = Some base ->
  fst (delete host this options h) = Normal tt /\
  stored (bucketName this)
    (remoteFilePath (join host) base (session options))
    (h ++ snd (delete host this options h)) false = false.
Proof.
  intros Hc Hlike Hs Hconf Hbase.
  destruct (isValidConfig_bucketLike this options client
              (h ++ debugLine this "[METHOD: delete] Triggered.")
              Hc Hlike Hs Hconf) as (evv & Hv & Hevv).
  rewrite (delete_probed host this options h evv client base Hv Hc Hbase).
  cbv zeta. cbn [fst snd]. split; [reflexivity|].
  set (key := remoteFilePath (join host) base (session options)).
  set (dbg := debugLine this "[METHOD: delete] Triggered.").
  destruct (Hlike ((h ++ dbg) ++ evv) (bucketName this) key)
    as (_ & _ & Hhead).
  unfold dbg in Hhead.
  rewrite (stored_preamble _ _ this _ h evv Hevv) in Hhead. fold dbg in Hhead.
  rewrite !app_assoc, stored_app.
  rewrite (stored_preamble (bucketName this) key this _ h evv Hevv
           : stored _ _ ((h ++ dbg) ++ evv) false = _).
  destruct (stored (bucketName this) key h false).
  - destruct Hhead as (o & ->).
    destruct (Hlike (((h ++ dbg) ++ evv) ++
                     [Send (HeadObjectCommand (bucketName this) key) (inr o)])
                (bucketName this) key) as (_ & (o' & ->) & _).
    cbn [stored]. rewrite sameBucket_refl, String.eqb_refl. cbn [andb].
    apply stored_debugLine.
  - destruct Hhead as (e & -> & ->). cbn [stored]. apply stored_debugLine.
Qed.

(** X6.  On a bucket, with a complete configuration, [sessionExists]
    answers exactly whether the object of the session is in the bucket,
    never nothing, and it leaves every object of every bucket as it was. *)
Theorem sessionExists_reflects_bucket (this : AwsS3Store B)
    (options : Options) (client : S3Client B) (base : string)
    (h : list (Event B)) :
  s3Client this = Some client -> bucketLike client ->
  falsy (session options) = false -> configured this = true ->
  remoteDataPath this = Some base ->
  let key := remoteFilePath (join host) base (session options) in
  let run := sessionExists host this options h in
  fst run = Normal (Some (stored (bucketName this) key h false)) /\
  forall bucket' key' present,
    stored bucket' key' (snd run) present = present.
Proof.
  intros Hc Hlike Hs Hconf Hbase key run. subst run.
  destruct (sessionExists_on_bucket this options client base h
              Hc Hlike Hs Hconf Hbase) as (evv & answer & msg & Hevv & ->).
  fold key. cbn [fst snd]. split; [reflexivity|].
  intros bucket' key' present.
  rewrite stored_app, stored_debugLine, stored_app.
  rewrite (stored_quiet _ _ evv) by (apply requests_validation; exact Hevv).
  cbn [stored]. apply stored_debugLine.
Qed.

(** X7.  On a bucket: after a [save] that got to its archive and
    completed, [sessionExists] answers [true]; a [delete] then returns
    normally; and [sessionExists] after it answers [false]. *)
Theorem saved_then_deleted (this : AwsS3Store B) (options : Options)
    (client : S3Client B) (base : string) (h : list (Event B))
    (fileSize : N) :
  s3Client this = Some client -> bucketLike client ->
  falsy (session options) = false -> configured this = true ->
  remoteDataPath this = Some base ->
  let saved := save host this options h in
  let h1 := h ++ snd saved in
  let found := sessionExists host this options h1 in
  let h2 := h1 ++ snd found in
  let deleted := delete host this options h2 in
  let h3 := h2 ++ snd deleted in
  let gone := sessionExists host this options h3 in
  fst saved = Normal tt ->
  archiveSize (snd saved) = Some (inr fileSize) ->
  fst found = Normal (Some true) /\
  fst deleted = Normal tt /\
  fst gone = Normal (Some false).
Proof.
  intros Hc Hlike Hs Hconf Hbase saved h1 found h2 deleted h3 gone
    Hdone Hstat.
  set (key := remoteFilePath (join host) base (session options)).
  assert (Hstored : stored (bucketName this) key h1 false = true).
  { subst h1. rewrite stored_app.
    exact (save_stores this options h base fileSize _ Hbase Hdone Hstat). }
  destruct (sessionExists_on_bucket this options client base h1
              Hc Hlike Hs Hconf Hbase) as (evv & answer & msg & _ & Hfound).
  fold found key in Hfound. rewrite Hstored in Hfound.
  split; [rewrite Hfound; reflexivity|].
  destruct (delete_on_bucket this options client base h2
              Hc Hlike Hs Hconf Hbase) as [Hnormal Hgone].
  fold deleted key h3 in Hnormal, Hgone.
  split; [exact Hnormal|].
  destruct (sessionExists_on_bucket this options client base h3
              Hc Hlike Hs Hconf Hbase) as (evv' & answer' & msg' & _ & Hanswer).
  fold gone key in Hanswer. rewrite Hgone in Hanswer.
  rewrite Hanswer. reflexivity.
Qed.

(** The bucket kept in the history behaves like a bucket. *)
Lemma memoryS3_bucketLike : bucketLike (memoryS3 (B := B)).
Proof.
  intros h bucket key. split; [|split].
  - eexists. split; reflexivity.
  - eexists. reflexivity.
  - cbn [memoryS3]. destruct (stored bucket key h false).
    + eexists. reflexivity.
    + eexists. split; reflexivity.
Qed.

End Lifecycle.

(** ** delete, and delete again *)

Section Repetition.

Context {B : Type} `{Bytes B}.
Variable host : Host B.

(** The run of [delete] on a bucket that does not hold the object: the
    head probe alone. *)
Lemma delete_absent_on_bucket (this : AwsS3Store B) (options : Options)
    client base h :
  s3Client this = Some client -> bucketLike client ->
  falsy (session options) = false -> configured this = true ->
  remoteDataPath this = Some base ->
  let key := remoteFilePath (join host) base (session options) in
  stored (bucketName this) key h false = false ->
  requests (snd (delete host this options h)) =
    [HeadObjectCommand (bucketName this) key] /\
  count isDeleteObject (snd (delete host this options h)) = 0%nat.
Proof.
  intros Hc Hlike Hs Hconf Hbase key Habsent.
  destruct (isValidConfig_bucketLike this options client
              (h ++ debugLine this "[METHOD: delete] Triggered.")
              Hc Hlike Hs Hconf) as (evv & Hv & Hevv).
  rewrite (delete_probed host this options h evv client base Hv Hc Hbase).
  cbv zeta. cbn [snd]. fold key.
  destruct (Hlike ((h ++ debugLine this "[METHOD: delete] Triggered.") ++ evv)
              (bucketName this) key) as (_ & _ & Hhead).
  rewrite (stored_preamble _ _ this _ h evv Hevv), Habsent in Hhead.
  destruct Hhead as (e & -> & ->).
  rewrite requests_app, requests_debugLine, requests_app,
    (requests_validation _ Hevv).
  rewrite count_app, count_debugLine, count_app, (count_validation _ Hevv).
  change (?x :: debugLine this ?msg) with ([x] ++ debugLine this msg).
  rewrite requests_app, requests_debugLine, count_app, count_debugLine.
  split; reflexivity.
Qed.

(** C6.  [delete] never throws.  Its requests follow the head probe of the
    run: the probe and then the delete command when the probe succeeded,
    the probe alone when it failed (with not-found or with any other
    error), and nothing when the configuration was refused; an error
    thrown by either command is swallowed.  A second call after the first
    does not throw either, and against every client that behaves like a
    bucket it does what a [delete] of a key that is not there does: it
    sends the head probe alone, and no delete. *)
Theorem delete_never_throws (this : AwsS3Store B) (options : Options)
    (h : list (Event B)) :
  let run := delete host this options h in
  let again := delete host this options (h ++ snd run) in
  fst run = Normal tt /\
  match headProbe (snd run) with
  | Some (inr _) =>
      exists key,
        requests (snd run) =
        [HeadObjectCommand (bucketName this) key;
         DeleteObjectCommand (bucketName this) key]
  | Some (inl _) =>
      exists key,
        requests (snd run) = [HeadObjectCommand (bucketName this) key]
  | None => requests (snd run) = []
  end /\
  fst again = Normal tt /\
  (forall client base h0,
      s3Client this = Some client -> bucketLike client ->
      falsy (session options) = false -> configured this = true ->
      remoteDataPath this = Some base ->
      let key := remoteFilePath (join host) base (session options) in
      let absent := delete host this options h0 in
      stored (bucketName this) key h0 false = false ->
      fst again = fst absent /\
      requests (snd again) = [HeadObjectCommand (bucketName this) key] /\
      requests (snd absent) = [HeadObjectCommand (bucketName this) key] /\
      count isDeleteObject (snd again) = 0%nat).
Proof.
  assert (Hnormal : forall h', fst (delete host this options h') = Normal tt).
  { intros h'.
    destruct (isValidConfig_cases this options
                (h' ++ debugLine this "[METHOD: delete] Triggered."))
      as [(evv & Hv & _) | (evv & client & base & Hv & Hc & Hbase & _)].
    - rewrite (delete_refused host this options h' evv Hv). reflexivity.
    - rewrite (delete_probed host this options h' evv client base Hv Hc Hbase).
      reflexivity. }
  intros run again. subst run again.
  split; [apply Hnormal|]. split; [|split; [apply Hnormal|]].
  - destruct (isValidConfig_cases this options
                (h ++ debugLine this "[METHOD: delete] Triggered."))
      as [(evv & Hv & Hevv) | (evv & client & base & Hv & Hc & Hbase & _ & Hevv)].
    + rewrite (delete_refused host this options h evv Hv). cbn [snd].
      rewrite headProbe_app, headProbe_debugLine,
        (headProbe_validation _ Hevv).
      rewrite requests_app, requests_debugLine,
        (requests_validation _ Hevv). reflexivity.
    + rewrite (delete_probed host this options h evv client base Hv Hc Hbase).
      cbv zeta. cbn [snd].
      rewrite headProbe_app, headProbe_debugLine, headProbe_app,
        (headProbe_validation _ Hevv).
      rewrite requests_app, requests_debugLine, requests_app,
        (requests_validation _ Hevv).
      destruct (client ((h ++ _) ++ evv) _) as [err|o].
      * cbn [headProbe app]. eexists.
        change (?x :: ?l) with ([x] ++ l). rewrite requests_app.
        destruct (notFound err); rewrite requests_debugLine; reflexivity.
      * cbn [headProbe app]. eexists.
        match goal with
        | |- requests (?x :: ?y :: ?l) = _ =>
            change (x :: y :: l) with ([x; y] ++ l)
        end.
        rewrite requests_app.
        destruct (client _ (DeleteObjectCommand _ _)) as [err|o'];
          [destruct (notFound err)|]; rewrite requests_debugLine; reflexivity.
  - intros client base h0 Hc Hlike Hs Hconf Hbase key absent Habsent.
    subst absent.
    destruct (delete_on_bucket host this options client base h
                Hc Hlike Hs Hconf Hbase) as [_ Hgone].
    fold key in Hgone.
    destruct (delete_absent_on_bucket this options client base _
                Hc Hlike Hs Hconf Hbase Hgone) as [Hagain Hnone].
    destruct (delete_absent_on_bucket this options client base h0
                Hc Hlike Hs Hconf Hbase Habsent) as [Habs _].
    fold key in Hagain, Habs.
    rewrite !Hnormal. auto.
Qed.

End Repetition.

(** The archive of a session was saved; it is deleted, and deleted again. *)
Lemma delete_never_throws_witness :
  let host := posixHost (B := N) noFiles in
  let this := storeWith (memoryS3 (B := N)) in
  let options := sessionOptions "work-phone" in
  let head :=
    HeadObjectCommand (B := N) (Some "satuin")
      "dev/wwebjs-auth/work-phone.zip" in
  let saved :=
    [Send
       (PutObjectCommand (Some "satuin") "dev/wwebjs-auth/work-phone.zip"
          {| streamPath := "work-phone.zip"; streamChunks := [4608];
             streamError := None |}
          "application/zip" "Enabled" "gzip")
       (inr (status 200))] in
  let run := delete host this options saved in
  let again := delete host this options (saved ++ snd run) in
  let absent := delete host this options [] in
  fst run = Normal tt /\
  requests (snd run) =
    [head;
     DeleteObjectCommand (Some "satuin") "dev/wwebjs-auth/work-phone.zip"] /\
  fst again = fst absent /\
  requests (snd again) = [head] /\ requests (snd absent) = [head] /\
  count isDeleteObject (snd again) = 0%nat.
Proof.
  intros host this options head saved run again absent.
  destruct (delete_never_throws host this options saved)
    as (Hrun & Hreq & _ & Hagain).
  destruct (Hagain memoryS3 "dev/wwebjs-auth" [] eq_refl memoryS3_bucketLike
              eq_refl eq_refl eq_refl eq_refl)
    as (Hsame & Hhead & Habsent & Hnone).
  destruct Hreq as (key & Hreq).
  split; [exact Hrun|].
  split; [|split; [exact Hsame|split; [exact Hhead|split;
    [exact Habsent | exact Hnone]]]].
  reflexivity.
Defined.

(** A bucket that refuses to delete: the delete command of the first call
    fails and is swallowed, the archive stays, and the second call sends
    the head probe and the delete command again, where a [delete] of a key
    that is not there sends the head probe alone. *)
Lemma refused_delete_is_repeated :
  let host := posixHost (B := N) noFiles in
  let this := storeWith (deleteDenied (B := N)) in
  let options := sessionOptions "work-phone" in
  let head :=
    HeadObjectCommand (B := N) (Some "satuin")
      "dev/wwebjs-auth/work-phone.zip" in
  let del :=
    DeleteObjectCommand (B := N) (Some "satuin")
      "dev/wwebjs-auth/work-phone.zip" in
  let saved :=
    [Send
       (PutObjectCommand (Some "satuin") "dev/wwebjs-auth/work-phone.zip"
          {| streamPath := "work-phone.zip"; streamChunks := [4608];
             streamError := None |}
          "application/zip" "Enabled" "gzip")
       (inr (status 200))] in
  let run := delete host this options saved in
  let again := delete host this options (saved ++ snd run) in
  let absent := delete host this options [] in
  fst run = Normal tt /\ fst again = Normal tt /\
  requests (snd again) = [head; del] /\
  requests (snd absent) = [head] /\
  requests (snd again) <> requests (snd absent).
Proof.
  intros host this options head del saved run again absent.
  assert (Hagain : requests (snd again) = [head; del])
    by (vm_compute; reflexivity).
  assert (Habsent : requests (snd absent) = [head])
    by (vm_compute; reflexivity).
  split; [vm_compute; reflexivity|]. split; [vm_compute; reflexivity|].
  split; [exact Hagain|]. split; [exact Habsent|].
  rewrite Hagain, Habsent. discriminate.
Qed.

(** ** Where the requests go *)

Section Addressing.

Context {B : Type} `{Bytes B}.
Variable host : Host B.

(** What the three public methods may add to the history, for a store with
    the key [key]: debug lines when the store prints them, other lines and
    file accesses, and the commands of the method, on the store's bucket
    and on [key]. *)
Lemma emits_methods (P : Event B -> Prop) (allowed : Command B -> bool)
    (this : AwsS3Store B) (options : Options) (key : string) :
  (forall base,
      remoteDataPath this = Some base ->
      key = remoteFilePath (join host) base (session options)) ->
  (debugEnabled this = true -> forall msg, P (DebugLog msg)) ->
  (forall x, isDebugLog x = false -> sends [x] = [] -> P x) ->
  (forall c result,
      addressedTo (bucketName this) key c -> allowed c = true ->
      P (Send c result)) ->
  ((forall c, probes c = true -> allowed c = true) ->
   emits P (sessionExists host this options)) /\
  ((forall c, stores c = true -> allowed c = true) ->
   emits P (save host this options)) /\
  ((forall c, removes c = true -> allowed c = true) ->
   emits P (delete host this options)).
Proof.
  intros Hkey Hdebug Hother Hsend.
  assert (Hdbg : forall msg, emits P (debugLog this msg)).
  { intros msg. unfold debugLog.
    destruct (debugEnabled this); [|apply emits_ret].
    apply emits_emit, Hdebug. reflexivity. }
  assert (Hlog : forall line, emits P (log line)).
  { intros line. apply emits_emit, Hother; reflexivity. }
  assert (Hto : forall c,
             addressedTo (bucketName this) key c -> allowed c = true ->
             emits P (send this c)).
  { intros c Hc Hkind. apply emits_send. intros result.
    apply Hsend; assumption. }
  assert (Hvalid : allowed (ListObjectsCommand (bucketName this)) = true ->
                   emits P (isValidConfig this options)).
  { intros Hlist. unfold isValidConfig.
    destruct (falsy (session options));
      [apply emits_seq; [apply Hlog | intros; apply emits_ret]|].
    destruct (falsy (bucketName this));
      [apply emits_seq; [apply Hlog | intros; apply emits_ret]|].
    destruct (falsy (remoteDataPath this));
      [apply emits_seq; [apply Hlog | intros; apply emits_ret]|].
    destruct (s3Client this);
      [|apply emits_seq; [apply Hlog | intros; apply emits_ret]].
    apply emits_tryCatch.
    - apply emits_seq; [apply Hto; [reflexivity | exact Hlist]|].
      intros result. destruct (metadata result); [|apply emits_ret].
      destruct (falsy_num _); [apply emits_ret|].
      destruct (httpStatusCode _); [destruct (_ =? _)|]; apply emits_ret.
    - intros e. apply emits_seq; [|intros; apply emits_ret].
      apply emits_emit, Hother; reflexivity. }
  assert (Hremote : forall C (k : string -> M B C),
             emits P (k key) -> emits P (bind (remoteKey host this options) k)).
  { intros C k Hk.
    apply (emits_bind P (fun remote => remote = key)).
    - unfold remoteKey. destruct (remoteDataPath this);
        [apply emits_ret | apply emits_throw].
    - intros h a ev. unfold remoteKey.
      destruct (remoteDataPath this) as [base|] eqn:Hbase;
        [|discriminate].
      intros [= <- _]. symmetry. apply Hkey. reflexivity.
    - intros a ->. exact Hk. }
  split; [|split]; intros Hkinds;
    assert (Hcmd : forall c, addressedTo (bucketName this) key c ->
                             _ c = true -> emits P (send this c))
      by (intros c Hc Hkind; apply Hto; [exact Hc | apply Hkinds, Hkind]).
  - unfold sessionExists.
    apply emits_seq; [apply Hdbg | intros _].
    apply emits_seq; [apply Hvalid, Hkinds; reflexivity | intros valid].
    destruct valid; cbn [negb]; [|apply emits_ret].
    apply Hremote. apply emits_tryCatch.
    + apply emits_seq; [apply Hcmd; [split|]; reflexivity | intros _].
      apply emits_seq; [apply Hdbg | intros; apply emits_ret].
    + intros e. destruct (notFound e);
        (apply emits_seq; [apply Hdbg | intros; apply emits_ret]).
  - assert (Hpart : forall uploadId u,
               emits P (uploadBuffer this key uploadId u)).
    { intros uploadId u. unfold uploadBuffer.
      apply emits_seq;
        [apply Hcmd; [split|]; reflexivity | intros; apply emits_ret]. }
    unfold save.
    apply emits_seq; [apply Hdbg | intros _].
    apply emits_seq; [apply Hvalid, Hkinds; reflexivity | intros valid].
    destruct valid; cbn [negb]; [|apply emits_ret].
    apply Hremote.
    apply emits_seq; [apply emits_emit, Hother; reflexivity | intros _].
    apply emits_tryCatch;
      [|intros e; apply emits_seq; [apply Hdbg | intros; apply emits_throw]].
    unfold transfer. cbv zeta.
    apply emits_seq;
      [apply emits_statSync; intros; apply Hother; reflexivity | intros fileSize].
    apply emits_seq; [|intros; apply Hdbg].
    destruct (fileSize <=? _).
    + unfold singleUpload.
      apply emits_seq; [apply Hlog | intros _].
      apply emits_seq;
        [apply emits_createReadStream, Hother; reflexivity | intros stream].
      apply emits_seq;
        [apply Hcmd; [split|]; reflexivity | intros; apply emits_ret].
    + unfold multipartUpload.
      apply emits_seq; [apply Hlog | intros _].
      apply emits_seq; [apply Hcmd; [split|]; reflexivity | intros created].
      cbv zeta.
      apply emits_seq;
        [apply emits_createReadStream, Hother; reflexivity | intros stream].
      apply emits_seq.
      { apply emits_forAwait; [|intros e; apply Hother; reflexivity].
        intros chunk u. unfold onChunk. cbv zeta.
        destruct (partSize <=? _); [|apply emits_ret].
        apply emits_seq; [apply Hpart | intros; apply emits_ret]. }
      intros u. apply emits_seq.
      { destruct (buffer u); [apply emits_ret | apply Hpart]. }
      intros u'.
      apply emits_seq;
        [apply Hcmd; [split|]; reflexivity | intros; apply emits_ret].
  - unfold delete.
    apply emits_seq; [apply Hdbg | intros _].
    apply emits_seq; [apply Hvalid, Hkinds; reflexivity | intros valid].
    destruct valid; cbn [negb]; [|apply emits_ret].
    apply Hremote. apply emits_tryCatch.
    + apply emits_seq; [apply Hcmd; [split|]; reflexivity | intros _].
      apply emits_seq; [apply Hcmd; [split|]; reflexivity | intros _].
      apply Hdbg.
    + intros e. destruct (notFound e); apply Hdbg.
Qed.

Lemma addressed_sends bucket key (ev : list (Event B)) :
  Forall (addressed bucket key) ev ->
  Forall (addressedTo bucket key) (sends ev).
Proof.
  induction 1 as [|x ev Hx _ IH]; [constructor|].
  destruct x; cbn [sends]; try exact IH. constructor; [exact Hx | exact IH].
Qed.

(** X8.  Every command [sessionExists], [save] and [delete] send names the
    bucket of the store, and every command other than the bucket probe
    names the key of the session: the put, the head probe, the delete, the
    multipart create, every part and the completion.  The three methods
    address the same object. *)
Theorem requests_name_session_object (this : AwsS3Store B)
    (options : Options) (base : string) (h : list (Event B)) :
  remoteDataPath this = Some base ->
  let key := remoteFilePath (join host) base (session options) in
  let named (ev : list (Event B)) :=
    Forall (addressedTo (bucketName this) key) (sends ev) in
  named (snd (sessionExists host this options h)) /\
  named (snd (save host this options h)) /\
  named (snd (delete host this options h)).
Proof.
  intros Hbase key named. subst named. cbv beta.
  destruct (emits_methods (addressed (bucketName this) key) (fun _ => true)
              this options key)
    as (Hexists & Hsave & Hdelete).
  - intros base' Hbase'. rewrite Hbase in Hbase'. injection Hbase' as <-.
    reflexivity.
  - intros _ msg. exact I.
  - intros x _ Hx. destruct x; try exact I. discriminate Hx.
  - intros c result Hc _. exact Hc.
  - split; [|split]; apply addressed_sends.
    + apply (Hexists (fun _ _ => eq_refl) h
               (fst (sessionExists host this options h))).
      destruct (sessionExists host this options h); reflexivity.
    + apply (Hsave (fun _ _ => eq_refl) h (fst (save host this options h))).
      destruct (save host this options h); reflexivity.
    + apply (Hdelete (fun _ _ => eq_refl) h
               (fst (delete host this options h))).
      destruct (delete host this options h); reflexivity.
Qed.

Lemma allowed_sends (allowed : Command B -> bool) (ev : list (Event B)) :
  Forall (fun x => match x with
                   | Send c _ => allowed c = true
                   | _ => True
                   end) ev ->
  Forall (fun c => allowed c = true) (sends ev).
Proof.
  induction 1 as [|x ev Hx _ IH]; [constructor|].
  destruct x; cbn [sends]; try exact IH. constructor; [exact Hx | exact IH].
Qed.

(** The commands [allowed] are the only ones a method sends, given that
    [allowed] holds of the method's own. *)
Lemma methods_send_allowed (allowed : Command B -> bool)
    (this : AwsS3Store B) (options : Options) :
  let P (x : Event B) :=
    match x with Send c _ => allowed c = true | _ => True end in
  ((forall c, probes c = true -> allowed c = true) ->
   emits P (sessionExists host this options)) /\
  ((forall c, stores c = true -> allowed c = true) ->
   emits P (save host this options)) /\
  ((forall c, removes c = true -> allowed c = true) ->
   emits P (delete host this options)).
Proof.
  intros P.
  apply (emits_methods P allowed this options
           match remoteDataPath this with
           | Some base => remoteFilePath (join host) base (session options)
           | None => ""%string
           end).
  - intros base ->. reflexivity.
  - intros _ msg. exact I.
  - intros x _ Hx. destruct x; try exact I. discriminate Hx.
  - intros c result _ Hc. exact Hc.
Qed.

(** X13.  Each public method keeps to its own commands, whatever the
    answers: [sessionExists] sends nothing but the bucket probe and a head
    probe; [save] sends no head probe and no delete (it neither looks for
    nor removes what the bucket holds under the key before it writes);
    [delete] sends no put and no command of a multipart upload. *)
Theorem methods_keep_to_their_commands (this : AwsS3Store B)
    (options : Options) (h : list (Event B)) :
  Forall (fun c => probes c = true)
    (sends (snd (sessionExists host this options h))) /\
  Forall (fun c => stores c = true)
    (sends (snd (save host this options h))) /\
  Forall (fun c => removes c = true)
    (sends (snd (delete host this options h))).
Proof.
  split; [|split]; apply allowed_sends.
  - apply (proj1 (methods_send_allowed probes this options)
             (fun c Hc => Hc) h (fst (sessionExists host this options h))).
    destruct (sessionExists host this options h); reflexivity.
  - apply (proj1 (proj2 (methods_send_allowed stores this options))
             (fun c Hc => Hc) h (fst (save host this options h))).
    destruct (save host this options h); reflexivity.
  - apply (proj2 (proj2 (methods_send_allowed removes this options))
             (fun c Hc => Hc) h (fst (delete host this options h))).
    destruct (delete host this options h); reflexivity.
Qed.

End Addressing.

(** ** The commands of one multipart upload *)

Section OneUpload.

Context {B : Type} `{Bytes B}.
Variable host : Host B.

Lemma uploadIds_app (a b : list (Event B)) :
  uploadIds (a ++ b) = uploadIds a ++ uploadIds b.
Proof.
  induction a as [|x a IH]; [reflexivity|].
  destruct x as [| | | | | | |c r]; cbn [app uploadIds]; try exact IH.
  destruct c; cbn [app]; rewrite ?IH; reflexivity.
Qed.

Lemma answeredParts_app (a b : list (Event B)) :
  answeredParts (a ++ b) = answeredParts a ++ answeredParts b.
Proof.
  induction a as [|x a IH]; [reflexivity|].
  destruct x as [| | | | | | |c r]; cbn [app answeredParts]; try exact IH.
  destruct c; try exact IH. destruct r; [exact IH|].
  cbn [app]. rewrite IH. reflexivity.
Qed.

Lemma createdUploadId_app (a b : list (Event B)) :
  createdUploadId (a ++ b) =
  match createdUploadId a with
  | Some u => Some u
  | None => createdUploadId b
  end.
Proof.
  induction a as [|x a IH]; [reflexivity|].
  destruct x as [| | | | | | |c r]; cbn [app createdUploadId]; try exact IH.
  destruct c; try exact IH. destruct r; [exact IH | reflexivity].
Qed.

(** The four observations see the multipart commands only. *)
Lemma multipart_free (ev : list (Event B)) :
  Forall (fun x => ofMultipart x = false) ev ->
  uploadIds ev = [] /\ answeredParts ev = [] /\
  createdUploadId ev = None /\ completions (sends ev) = [].
Proof.
  induction 1 as [|x ev Hx _ IH]; [repeat split|].
  destruct x as [| | | | | | |c r]; try exact IH.
  destruct c; try discriminate Hx; exact IH.
Qed.

Lemma multipart_between (pre evm post : list (Event B)) :
  Forall (fun x => ofMultipart x = false) pre ->
  Forall (fun x => ofMultipart x = false) post ->
  uploadIds (pre ++ evm ++ post) = uploadIds evm /\
  answeredParts (pre ++ evm ++ post) = answeredParts evm /\
  createdUploadId (pre ++ evm ++ post) = createdUploadId evm /\
  completions (sends (pre ++ evm ++ post)) = completions (sends evm).
Proof.
  intros Hpre Hpost.
  destruct (multipart_free pre Hpre) as (Hi & Ha & Hc & Hl).
  destruct (multipart_free post Hpost) as (Hi' & Ha' & Hc' & Hl').
  rewrite !uploadIds_app, !answeredParts_app, !createdUploadId_app,
    !sends_app, !completions_app.
  rewrite Hi, Ha, Hc, Hl, Hi', Ha', Hc', Hl', !app_nil_r.
  repeat split. destruct (createdUploadId evm); reflexivity.
Qed.

Lemma free_debugLine (this : AwsS3Store B) msg :
  Forall (fun x => ofMultipart x = false) (debugLine this msg).
Proof.
  unfold debugLine. destruct (debugEnabled this); repeat constructor.
Qed.

Lemma free_validation (evv : list (Event B)) :
  Forall (fun x => isValidationEvent x = true) evv ->
  Forall (fun x => ofMultipart x = false) evv.
Proof.
  apply Forall_impl. intros x Hx.
  destruct x as [| | | | | | |c r]; try reflexivity.
  destruct c; try discriminate Hx. reflexivity.
Qed.

Lemma regroup {A} (a b m t1 t2 : list A) x y :
  a ++ b ++ x :: (y :: m ++ t1) ++ t2 = (a ++ b ++ [x; y]) ++ m ++ (t1 ++ t2).
Proof.
  rewrite <- !app_assoc. cbn [app]. rewrite <- !app_assoc. reflexivity.
Qed.

(** A run of [save] is a multipart upload between events that are no
    multipart commands, or it holds no multipart command at all. *)
Lemma save_around_multipart (this : AwsS3Store B) (options : Options) h :
  let ev := snd (save host this options h) in
  Forall (fun x => ofMultipart x = false) ev \/
  exists client remote p h1 r pre evm post,
    s3Client this = Some client /\
    multipartUpload host this remote p h1 = (r, evm) /\
    ev = pre ++ evm ++ post /\
    Forall (fun x => ofMultipart x = false) pre /\
    Forall (fun x => ofMultipart x = false) post.
Proof.
  intros ev. subst ev.
  destruct (save_events host this options h)
    as [(evv & _ & Hevv & ->) |
        (evv & client & base & evb & _ & Hevv & Hc & _ & Hrun & ->)];
    cbv zeta in *.
  { left. cbn [snd]. apply Forall_app.
    split; [apply free_debugLine | apply free_validation, Hevv]. }
  assert (Htail : Forall (fun x : Event B => ofMultipart x = false)
                    match fst (save host this options h) with
                    | Throw e =>
                        debugLine this
                          ("[METHOD: save] Error: " ++ message e)%string
                    | Normal _ => []
                    end).
  { destruct (fst (save host this options h));
      [constructor | apply free_debugLine]. }
  pose proof (transfer_inv host this client Hc _ _ _ _ _ Hrun) as Hinv.
  cbv zeta in Hinv.
  destruct (fs host _) as [f|].
  2:{ destruct Hinv as (e & _ & ->). left.
      apply Forall_app. split; [apply free_debugLine|].
      apply Forall_app. split; [apply free_validation, Hevv|].
      constructor; [reflexivity|]. constructor; [reflexivity | exact Htail]. }
  destruct Hinv as (evu & -> & Hevu).
  destruct (size f <=? _).
  - destruct Hevu as (put & -> & _). left.
    apply Forall_app. split; [apply free_debugLine|].
    apply Forall_app. split; [apply free_validation, Hevv|].
    repeat (constructor; [reflexivity|]).
    apply Forall_app. split; [|exact Htail].
    destruct put; [constructor | apply free_debugLine].
  - destruct Hevu as (h1 & evm & Hmulti & ->). right.
    eexists client, _, _, h1, _, _, evm, _.
    split; [exact Hc|]. split; [exact Hmulti|].
    split; [|split].
    + apply regroup.
    + apply Forall_app. split; [apply free_debugLine|].
      apply Forall_app. split; [apply free_validation, Hevv|].
      repeat constructor.
    + apply Forall_app. split; [|exact Htail].
      destruct (fst (save host this options h));
        [apply free_debugLine | constructor].
Qed.

(** The loop sends its parts under the identifier it was given, completes
    nothing, and records every answered part under its number with the
    tag of the answer. *)
Lemma iterate_records (this : AwsS3Store B) client remote uploadId cs :
  s3Client this = Some client ->
  forall (u : Upload) h r ev,
    iterate (onChunk this remote uploadId) cs u h = (r, ev) ->
    Forall (eq uploadId) (uploadIds ev) /\
    completions (sends ev) = [] /\
    match r with
    | Normal u' => parts u' = parts u ++ answeredParts ev
    | Throw _ => True
    end.
Proof.
  intros Hc. induction cs as [|chunk cs IH]; intros u h r ev Hrun.
  - injection Hrun as <- <-. cbn [uploadIds sends completions answeredParts].
    rewrite app_nil_r. repeat split. constructor.
  - rewrite iterate_step, (onChunk_run this client Hc) in Hrun.
    cbv zeta in Hrun.
    destruct (partSize <=? _).
    + destruct (client h _) as [e|o].
      * injection Hrun as <- <-. repeat split. repeat constructor.
      * destruct (iterate _ cs _ _) as [r' ev'] eqn:Hrest.
        injection Hrun as <- <-.
        apply IH in Hrest. cbn [parts] in Hrest.
        destruct Hrest as (Hids & Hnone & Hparts).
        change ([?x] ++ ?l) with (x :: l).
        cbn [uploadIds sends completions answeredParts].
        split; [constructor; [reflexivity | exact Hids]|].
        split; [exact Hnone|].
        destruct r' as [u'|]; [|exact I].
        rewrite Hparts, <- app_assoc. reflexivity.
    + destruct (iterate _ cs _ _) as [r' ev'] eqn:Hrest.
      injection Hrun as <- <-. apply IH in Hrest. exact Hrest.
Qed.

(** One multipart upload: its parts and its completion carry the
    identifier the create was answered with, and the completion lists the
    answered parts. *)
Lemma multipartUpload_records (this : AwsS3Store B) client remote p h r evm :
  s3Client this = Some client ->
  multipartUpload host this remote p h = (r, evm) ->
  Forall (fun id => createdUploadId evm = Some id) (uploadIds evm) /\
  Forall (fun ps => ps = answeredParts evm) (completions (sends evm)).
Proof.
  intros Hc Hrun.
  destruct (multipartUpload_inv host this client Hc _ _ _ _ _ Hrun)
    as (created & rest & -> & Hrest).
  destruct created as [e|o].
  { destruct Hrest as [_ ->]. split; constructor. }
  cbv zeta in Hrest.
  destruct Hrest as (h1 & rl & evl & evt & -> & Hloop & Hend).
  destruct (iterate_records this client remote _ _ Hc _ _ _ _ Hloop)
    as (Hids & Hnone & Hparts).
  cbn [parts app] in Hparts.
  cbn [createdUploadId uploadIds sends completions answeredParts].
  rewrite uploadIds_app, sends_app, completions_app, answeredParts_app, Hnone.
  cbn [app].
  assert (Hloopids : Forall (fun id => Some (UploadId o) = Some id)
                       (uploadIds evl)).
  { eapply Forall_impl; [|exact Hids]. intros id <-. reflexivity. }
  destruct rl as [u|e].
  2:{ destruct Hend as [_ ->]. rewrite !app_nil_r.
      split; [exact Hloopids | constructor]. }
  destruct (streamError _).
  { destruct Hend as [_ ->]. cbn [uploadIds sends completions].
    rewrite app_nil_r. split; [exact Hloopids | constructor]. }
  destruct (buffer u).
  - destruct Hend as (completed & -> & _).
    cbn [uploadIds sends completions answeredParts]. rewrite app_nil_r.
    split.
    + apply Forall_app. split; [exact Hloopids | repeat constructor].
    + constructor; [exact Hparts | constructor].
  - cbv zeta in Hend. destruct Hend as ([e|o'] & Hend).
    + destruct Hend as [_ ->].
      cbn [uploadIds sends completions answeredParts]. rewrite app_nil_r.
      split; [|constructor].
      apply Forall_app. split; [exact Hloopids | repeat constructor].
    + destruct Hend as (completed & -> & _).
      cbn [uploadIds sends completions answeredParts].
      split.
      * apply Forall_app. split; [exact Hloopids | repeat constructor].
      * constructor; [|constructor]. rewrite Hparts. reflexivity.
Qed.

(** X9.  In every run of [save], each part upload and the completion
    carry the upload identifier that the create of this run was answered
    with: no part is sent before the create is answered, and none under
    another identifier. *)
Theorem parts_continue_created_upload (this : AwsS3Store B)
    (options : Options) (h : list (Event B)) :
  let ev := snd (save host this options h) in
  Forall (fun id => createdUploadId ev = Some id) (uploadIds ev).
Proof.
  intros ev.
  destruct (save_around_multipart this options h)
    as [Hfree |
        (client & remote & p & h1 & r & pre & evm & post &
         Hc & Hrun & Hev & Hpre & Hpost)];
    fold ev in Hfree || fold ev in Hev.
  { destruct (multipart_free ev Hfree) as (-> & _). constructor. }
  destruct (multipart_between pre evm post Hpre Hpost) as (Hi & _ & Hu & _).
  rewrite Hev, Hi, Hu.
  exact (proj1 (multipartUpload_records this client remote p h1 r evm Hc Hrun)).
Qed.

(** X10.  The part list a run of [save] hands to the completion is the
    list of the parts that were uploaded and answered in this run, in the
    order of their upload, each under the number it was sent with and with
    the entity tag of its answer. *)
Theorem completion_lists_answered_parts (this : AwsS3Store B)
    (options : Options) (h : list (Event B)) :
  let ev := snd (save host this options h) in
  Forall (fun ps => ps = answeredParts ev) (completions (sends ev)).
Proof.
  intros ev.
  destruct (save_around_multipart this options h)
    as [Hfree |
        (client & remote & p & h1 & r & pre & evm & post &
         Hc & Hrun & Hev & Hpre & Hpost)];
    fold ev in Hfree || fold ev in Hev.
  { destruct (multipart_free ev Hfree) as (_ & _ & _ & ->). constructor. }
  destruct (multipart_between pre evm post Hpre Hpost) as (_ & Ha & _ & Hl).
  rewrite Hev, Ha, Hl.
  exact (proj2 (multipartUpload_records this client remote p h1 r evm Hc Hrun)).
Qed.

End OneUpload.

(** ** Stores built by the constructor *)

Section Constructed.

Context {B : Type} `{Bytes B}.
Variable host : Host B.

(** What the constructor returns has its three fields, and prints debug
    lines only for [STORE_DEBUG=true]. *)
Lemma constructor_inr (env : option string) (arg : option (StoreOptions B))
    (this : AwsS3Store B) :
  constructor env arg = inr this ->
  configured this = true /\
  (env <> Some "true"%string -> debugEnabled this = false).
Proof.
  unfold constructor. cbv zeta.
  destruct (falsy (optBucketName (givenOptions arg))) eqn:Hb; [discriminate|].
  destruct (falsy (optRemoteDataPath (givenOptions arg))) eqn:Hp;
    [discriminate|].
  destruct (optS3Client (givenOptions arg)) as [client|] eqn:Hc;
    [|discriminate].
  intros [= <-]. unfold configured.
  cbn [bucketName remoteDataPath s3Client debugEnabled].
  rewrite Hb, Hp. split; [reflexivity|].
  intros Henv. destruct env as [v|]; [|reflexivity].
  apply String.eqb_neq. intros ->. apply Henv. reflexivity.
Qed.

(** X11.  For a store the constructor returned, the checks of the bucket
    name, the remote path and the client in [isValidConfig] never fail:
    the answer is [false] only for a missing session or a probe answered
    without status 200, and it is [true] for a probe that throws. *)
Theorem constructed_store_validates (env : option string)
    (arg : option (StoreOptions B)) (this : AwsS3Store B)
    (options : Options) (h : list (Event B)) :
  constructor env arg = inr this ->
  exists client,
    s3Client this = Some client /\
    fst (isValidConfig this options h) =
    Normal
      (if falsy (session options) then false
       else
         match client h (ListObjectsCommand (bucketName this)) with
         | inr o => explicitSuccess o
         | inl _ => true
         end).
Proof.
  intros Hnew. destruct (constructor_inr env arg this Hnew) as [Hconf _].
  unfold configured in Hconf.
  apply andb_true_iff in Hconf. destruct Hconf as [Hconf Hc].
  apply andb_true_iff in Hconf. destruct Hconf as [Hb Hp].
  apply negb_true_iff in Hb, Hp.
  destruct (s3Client this) as [client|] eqn:Hclient; [|discriminate Hc].
  exists client. split; [reflexivity|].
  destruct (falsy (session options)) eqn:Hs.
  - unfold isValidConfig. rewrite Hs. reflexivity.
  - rewrite (isValidConfig_probe this options client h Hs Hb Hp Hclient).
    destruct (client h _); reflexivity.
Qed.

Lemma validation_prints_no_debug (evv : list (Event B)) :
  Forall (fun x => isValidationEvent x = true) evv ->
  Forall (fun x => isDebugLog x = false) evv.
Proof.
  apply Forall_impl. intros x Hx. destruct x; try reflexivity.
  discriminate Hx.
Qed.

(** A store that prints no debug lines adds none in [#deletePrevious]. *)
Lemma deletePrevious_silent (this : AwsS3Store B) (options : Options)
    (key : option string) (h : list (Event B)) :
  debugEnabled this = false ->
  Forall (fun x => isDebugLog x = false)
    (snd (deletePrevious this options key h)).
Proof.
  intros Hquiet.
  assert (Hdbg : forall msg, debugLine this msg = []).
  { intros msg. unfold debugLine. rewrite Hquiet. reflexivity. }
  destruct (falsy key) eqn:Hkey.
  { rewrite (deletePrevious_keyless this options key h Hkey). cbn [snd].
    rewrite Hdbg. constructor. }
  destruct (isValidConfig_cases this options
              (h ++ debugLine this "[METHOD: #deletePrevious] Triggered."))
    as [(evv & Hv & Hevv) | (evv & client & base & Hv & Hc & _ & _ & Hevv)].
  - rewrite (deletePrevious_refused this options key h evv Hkey Hv).
    cbn [snd]. rewrite Hdbg. apply validation_prints_no_debug, Hevv.
  - rewrite (deletePrevious_probed this options key h evv client Hkey Hv Hc).
    cbv zeta. cbn [snd]. rewrite Hdbg. cbn [app].
    apply Forall_app. split; [apply validation_prints_no_debug, Hevv|].
    destruct (client _ _) as [err|o].
    + constructor; [reflexivity|].
      destruct (notFound err); rewrite Hdbg; constructor.
    + constructor; [reflexivity|]. constructor; [reflexivity|].
      destruct (client _ _) as [err|o']; [destruct (notFound err)|];
        rewrite Hdbg; constructor.
Qed.

(** X12.  A store built while [STORE_DEBUG] is anything but the string
    [true] prints no debug line, in any method and whatever happens in
    it. *)
Theorem no_debug_line_unless_enabled (env : option string)
    (arg : option (StoreOptions B)) (this : AwsS3Store B)
    (options : Options) (key : option string) (h : list (Event B)) :
  constructor env arg = inr this -> env <> Some "true"%string ->
  let silent (ev : list (Event B)) :=
    Forall (fun x => isDebugLog x = false) ev in
  silent (snd (sessionExists host this options h)) /\
  silent (snd (save host this options h)) /\
  silent (snd (delete host this options h)) /\
  silent (snd (deletePrevious this options key h)).
Proof.
  intros Hnew Henv silent. subst silent. cbv beta.
  destruct (constructor_inr env arg this Hnew) as [_ Hquiet].
  specialize (Hquiet Henv).
  destruct (emits_methods host (fun x => isDebugLog x = false)
              (fun _ => true) this options
              match remoteDataPath this with
              | Some base => remoteFilePath (join host) base (session options)
              | None => ""%string
              end)
    as (Hexists & Hsave & Hdelete).
  - intros base ->. reflexivity.
  - intros Hon. rewrite Hquiet in Hon. discriminate Hon.
  - intros x Hx _. exact Hx.
  - intros c result _ _. reflexivity.
  - split; [|split; [|split]].
    + apply (Hexists (fun _ _ => eq_refl) h
               (fst (sessionExists host this options h))).
      destruct (sessionExists host this options h); reflexivity.
    + apply (Hsave (fun _ _ => eq_refl) h (fst (save host this options h))).
      destruct (save host this options h); reflexivity.
    + apply (Hdelete (fun _ _ => eq_refl) h
               (fst (delete host this options h))).
      destruct (delete host this options h); reflexivity.
    + apply deletePrevious_silent, Hquiet.
Qed.

End Constructed.

(** ** Runs on concrete stores *)

Lemma forbiddenProbe_denied {B : Type} : probeDenied (forbiddenProbe (B := B)).
Proof. intros h bucket. eexists. split; reflexivity. Qed.

Lemma failingOn_probe_throws {B : Type} (e : JsError) :
  probeThrows (failingOn (B := B) isListObjects e).
Proof. intros h bucket. exists e. reflexivity. Qed.

(** A bucket that answers its probe with 403: [save] of an archive that is
    there returns normally and has not looked at it. *)
Lemma denied_probe_disables_witness :
  let host := posixHost (oneFile "work-phone.zip" (archive (50 * MiB))) in
  let this := storeWith (forbiddenProbe (B := N)) in
  let options := sessionOptions "work-phone" in
  fst (save host this options []) = Normal tt /\
  requests (snd (save host this options [])) = [] /\
  archiveSize (snd (save host this options [])) = None /\
  keysWritten (snd (save host this options [])) = [].
Proof.
  intros host this options.
  exact (proj1 (proj2 (denied_probe_disables host this options
                         forbiddenProbe [] eq_refl forbiddenProbe_denied))).
Defined.

(** A bucket whose listing is not allowed: the methods go on. *)
Lemma thrown_probe_proceeds_witness :
  let host := posixHost (B := N) noFiles in
  let this :=
    storeWith (failingOn (B := N) isListObjects (Error "AccessDenied")) in
  let options := sessionOptions "work-phone" in
  headProbe (snd (sessionExists host this options [])) <> None /\
  headProbe (snd (delete host this options [])) <> None /\
  archiveSize (snd (save host this options [])) <> None /\
  keysWritten (snd (save host this options [])) =
    ["dev/wwebjs-auth/work-phone.zip"%string].
Proof.
  intros host this options.
  destruct (thrown_probe_proceeds host this options
              (failingOn isListObjects (Error "AccessDenied")) []
              eq_refl eq_refl eq_refl (failingOn_probe_throws _))
    as (Hexists & Hdelete & Hstat & base & Hbase & Hkeys).
  injection Hbase as <-.
  split; [exact Hexists|]. split; [exact Hdelete|].
  split; [exact Hstat | exact Hkeys].
Defined.

(** No archive in the directory. *)
Lemma save_without_archive_witness :
  let host := posixHost (B := N) noFiles in
  let this := storeWith (okClient (B := N)) in
  let options := sessionOptions "work-phone" in
  fst (save host this options []) =
    Throw (Error "ENOENT: no such file or directory, stat 'work-phone.zip'") /\
  requests (snd (save host this options [])) = [] /\
  keysWritten (snd (save host this options [])) =
    ["dev/wwebjs-auth/work-phone.zip"%string].
Proof.
  intros host this options.
  exact (save_without_archive host this options []
           [Send (ListObjectsCommand (Some "satuin"%string)) (inr (status 200))]
           "dev/wwebjs-auth" eq_refl eq_refl eq_refl).
Defined.

Lemma deletePrevious_of_session_key_witness :
  let host := posixHost (B := N) noFiles in
  let this := storeWith (okClient (B := N)) in
  let options := sessionOptions "work-phone" in
  deletePrevious this options (Some "dev/wwebjs-auth/work-phone.zip"%string) [] =
  delete host this options [].
Proof.
  intros host this options.
  exact (deletePrevious_of_session_key host this options "dev/wwebjs-auth" []
           eq_refl eq_refl eq_refl).
Defined.

(** A bucket that holds the archive of the session after a put. *)
Lemma sessionExists_reflects_bucket_witness :
  let host := posixHost (B := N) noFiles in
  let this := storeWith (memoryS3 (B := N)) in
  let options := sessionOptions "work-phone" in
  let saved :=
    [Send
       (PutObjectCommand (Some "satuin") "dev/wwebjs-auth/work-phone.zip"
          {| streamPath := "work-phone.zip"; streamChunks := [4608];
             streamError := None |}
          "application/zip" "Enabled" "gzip")
       (inr (status 200))] in
  fst (sessionExists host this options saved) = Normal (Some true) /\
  fst (sessionExists host this options []) = Normal (Some false).
Proof.
  intros host this options saved. split.
  - exact (proj1 (sessionExists_reflects_bucket host this options memoryS3
                    "dev/wwebjs-auth" saved eq_refl memoryS3_bucketLike
                    eq_refl eq_refl eq_refl)).
  - exact (proj1 (sessionExists_reflects_bucket host this options memoryS3
                    "dev/wwebjs-auth" [] eq_refl memoryS3_bucketLike
                    eq_refl eq_refl eq_refl)).
Defined.

(** An archive of 3 KiB saved, found, deleted and gone. *)
Lemma saved_then_deleted_witness :
  let host := posixHost (oneFile "work-phone.zip" (archiveIn KiB (3 * KiB))) in
  let this := storeWith (memoryS3 (B := N)) in
  let options := sessionOptions "work-phone" in
  let h1 := snd (save host this options []) in
  let h2 := h1 ++ snd (sessionExists host this options h1) in
  let h3 := h2 ++ snd (delete host this options h2) in
  fst (save host this options []) = Normal tt /\
  fst (sessionExists host this options h1) = Normal (Some true) /\
  fst (delete host this options h2) = Normal tt /\
  fst (sessionExists host this options h3) = Normal (Some false).
Proof.
  intros host this options h1 h2 h3.
  assert (Hdone : fst (save host this options []) = Normal tt)
    by (vm_compute; reflexivity).
  assert (Hstat : archiveSize (snd (save host this options [])) =
                  Some (inr (3 * KiB)))
    by (vm_compute; reflexivity).
  split; [exact Hdone|].
  exact (saved_then_deleted host this options memoryS3 "dev/wwebjs-auth" []
           (3 * KiB) eq_refl memoryS3_bucketLike eq_refl eq_refl eq_refl
           Hdone Hstat).
Defined.

Lemma requests_name_session_object_witness :
  let host :=
    posixHost (oneFile "work-phone.zip" (archiveIn GiB (5 * GiB + 5 * MiB))) in
  let this := storeWith (okClient (B := N)) in
  let options := sessionOptions "work-phone" in
  Forall (addressedTo (Some "satuin"%string) "dev/wwebjs-auth/work-phone.zip")
    (sends (snd (save host this options []))).
Proof.
  intros host this options.
  exact (proj1 (proj2 (requests_name_session_object host this options
                         "dev/wwebjs-auth" [] eq_refl))).
Defined.

(** The store of the example, on a bucket that answers its probe with
    403. *)
Lemma constructed_store_validates_witness :
  let arg :=
    Some {| optBucketName := Some "satuin"%string;
            optRemoteDataPath := Some "dev/wwebjs-auth"%string;
            optS3Client := Some (forbiddenProbe (B := N)) |} in
  let this := storeWith (forbiddenProbe (B := N)) in
  constructor None arg = inr this /\
  fst (isValidConfig this (sessionOptions "work-phone") []) = Normal false.
Proof.
  intros arg this. split; [reflexivity|].
  destruct (constructed_store_validates None arg this
              (sessionOptions "work-phone") [] eq_refl)
    as (client & Hclient & Hanswer).
  injection Hclient as <-. exact Hanswer.
Defined.

Lemma no_debug_line_unless_enabled_witness :
  let host := posixHost (oneFile "work-phone.zip" (archive (50 * MiB))) in
  let arg :=
    Some {| optBucketName := Some "satuin"%string;
            optRemoteDataPath := Some "dev/wwebjs-auth"%string;
            optS3Client := Some (okClient (B := N)) |} in
  let this := storeWith (okClient (B := N)) in
  constructor (Some "1"%string) arg = inr this /\
  Forall (fun x => isDebugLog x = false)
    (snd (save host this (sessionOptions "work-phone") [])).
Proof.
  intros host arg this. split; [reflexivity|].
  assert (Henv : Some "1"%string <> Some "true"%string) by discriminate.
  exact (proj1 (proj2 (no_debug_line_unless_enabled host (Some "1"%string) arg
                         this (sessionOptions "work-phone") None []
                         eq_refl Henv))).
Defined.

(** [#deletePrevious] without a key, with a key on an accepting bucket,
    and with a key on a bucket that answers its probe with 403. *)
Lemma deletePrevious_needs_key_witness :
  let options := sessionOptions "work-phone" in
  let key := Some "dev/wwebjs-auth/work-phone.zip"%string in
  let keyless := deletePrevious (storeWith (okClient (B := N))) options None [] in
  let accepted := deletePrevious (storeWith (okClient (B := N))) options key [] in
  let refused :=
    deletePrevious (storeWith (forbiddenProbe (B := N))) options key [] in
  (fst keyless =
     Throw (Error "A valid remote file path is required for AwsS3Store.") /\
   sends (snd keyless) = []) /\
  (fst accepted = Normal tt /\
   requests (snd accepted) =
     [HeadObjectCommand (Some "satuin") "dev/wwebjs-auth/work-phone.zip";
      DeleteObjectCommand (Some "satuin") "dev/wwebjs-auth/work-phone.zip"]) /\
  (fst refused = Normal tt /\ requests (snd refused) = []).
Proof.
  intros options key keyless accepted refused. split; [|split].
  - exact (deletePrevious_needs_key (B := N) (storeWith okClient) options
             None []).
  - destruct (deletePrevious_needs_key (B := N) (storeWith okClient) options
                key [])
      as (Hrun & Hreq & _).
    split; [exact Hrun | exact Hreq].
  - destruct (deletePrevious_needs_key (B := N) (storeWith forbiddenProbe)
                options key [])
      as (Hrun & Hreq & _).
    split; [exact Hrun | exact Hreq].
Defined.
